(** * integrate_html_files: wrapping standalone HTML pages in the pdoc template

    A shallow embedding of [dev/integrate_html_files.py] and the proofs of
    its documented properties.

    Conventions of the model.
    - A Python [str] is a [text], a list of characters.  Characters are the
      8-bit code points (the Latin-1 range of a Python [str]); on that range
      [str.lower], [str.strip] and [re.IGNORECASE] are the functions
      [chr_lower], [is_space] and [chr_match] below.
    - In the string literals of this file a backquote stands for the
      double-quote character: [py] turns a literal into the text it denotes.
      No string of the script contains a backquote.
    - Python integers are [Z]; [str.find] and slicing are modelled with their
      treatment of negative and out-of-range indices.
    - The [re] module is modelled by a backtracking matcher that lists the
      ways a pattern matches at a position in the order in which Python's
      engine tries them; the match Python reports is the first of the list. *)

From Stdlib Require Import Ascii String ZArith List Lia Bool.
From stdpp Require Import gmap strings list fin_maps.
Import ListNotations.

Local Open Scope Z_scope.
Local Open Scope list_scope.

Abbreviation text := (list ascii).

(** ** Characters and string literals *)

Definition dquote : ascii := ascii_of_nat 34.
Definition newline : ascii := ascii_of_nat 10.

Definition unquote (c : ascii) : ascii :=
  if Ascii.eqb c "`"%char then dquote else c.

Definition py (s : string) : text := List.map unquote (list_ascii_of_string s).

(** [str.lower] on one character: A-Z, and the Latin-1 capitals 192..222
    other than the multiplication sign 215, move up by 32. *)
Definition chr_lower (c : ascii) : ascii :=
  let n := nat_of_ascii c in
  if ((65 <=? n) && (n <=? 90))%nat then ascii_of_nat (n + 32)
  else if ((192 <=? n) && (n <=? 222) && negb (n =? 215))%nat then ascii_of_nat (n + 32)
  else c.

(** The characters [str.strip] removes: those for which [str.isspace] holds. *)
Definition is_space (c : ascii) : bool :=
  let n := nat_of_ascii c in
  (((9 <=? n) && (n <=? 13)) || ((28 <=? n) && (n <=? 32)) || (n =? 133) || (n =? 160))%nat.

(** ** Python string operations *)

Definition str_lower (s : text) : text := List.map chr_lower s.

Fixpoint lstrip (s : text) : text :=
  match s with
  | c :: s' => if is_space c then lstrip s' else s
  | [] => []
  end.

Definition str_strip (s : text) : text := rev (lstrip (rev (lstrip s))).

(** [s.startswith(w)] *)
Fixpoint starts_with (w s : text) : bool :=
  match w, s with
  | [], _ => true
  | a :: w', b :: s' => Ascii.eqb a b && starts_with w' s'
  | _ :: _, [] => false
  end.

(** The lowest index at which [w] occurs in [s]. *)
Fixpoint index_of (w s : text) : option nat :=
  if starts_with w s then Some 0%nat
  else match s with
       | [] => None
       | _ :: s' => option_map S (index_of w s')
       end.

(** [w in s] *)
Definition str_contains (w s : text) : bool :=
  match index_of w s with Some _ => true | None => false end.

(** An index as Python clamps it for [find] and for slices. *)
Definition clamp_index (len i : Z) : Z :=
  if i <? 0 then Z.max 0 (i + len) else Z.min i len.

(** [s.find(w, start)]: the lowest index at or after [start], or -1. *)
Definition str_find_from (s w : text) (start : Z) : Z :=
  let len := Z.of_nat (length s) in
  if len <? start then -1
  else
    let st := clamp_index len start in
    match index_of w (skipn (Z.to_nat st) s) with
    | Some i => st + Z.of_nat i
    | None => -1
    end.

(** [s.find(w)] *)
Definition str_find (s w : text) : Z := str_find_from s w 0.

(** [s[lo:hi]] *)
Definition str_slice (s : text) (lo hi : Z) : text :=
  let len := Z.of_nat (length s) in
  let a := clamp_index len lo in
  let b := clamp_index len hi in
  firstn (Z.to_nat (b - a)) (skipn (Z.to_nat a) s).

(** [s[lo:]] *)
Definition str_slice_from (s : text) (lo : Z) : text :=
  skipn (Z.to_nat (clamp_index (Z.of_nat (length s)) lo)) s.

(** [s[:hi]] *)
Definition str_slice_to (s : text) (hi : Z) : text :=
  firstn (Z.to_nat (clamp_index (Z.of_nat (length s)) hi)) s.

(** [sep.join(parts)] *)
Fixpoint str_join (sep : text) (parts : list text) : text :=
  match parts with
  | [] => []
  | [p] => p
  | p :: ps => p ++ sep ++ str_join sep ps
  end.

(** ** The [re] module *)

Module Re.

Record flags := { IGNORECASE : bool; DOTALL : bool }.

(** The pattern syntax the script uses.  [Group] is a capturing group; no
    pattern of the script has more than one, so it is group 1. *)
Inductive regex : Type :=
| Chars (w : text)          (* literal characters, in sequence *)
| OneOf (cs : text)         (* [cs]  *)
| NoneOf (cs : text)        (* [^cs] *)
| Dot                       (* .     *)
| Seq (r1 r2 : regex)       (* r1r2  *)
| Alt (r1 r2 : regex)       (* r1|r2 *)
| Opt (r : regex)           (* r?    *)
| Star (r : regex)          (* r*    *)
| Plus (r : regex)          (* r+    *)
| LazyStar (r : regex)      (* r*?   *)
| Group (r : regex).        (* (r)   *)

(** One way of matching: what is left of the subject, and group 1. *)
Definition way : Type := text * option text.

Section Matcher.
Variable f : flags.

Definition chr_match (c x : ascii) : bool :=
  if IGNORECASE f then Ascii.eqb (chr_lower x) (chr_lower c) else Ascii.eqb x c.

Definition in_set (cs : text) (x : ascii) : bool := existsb (fun c => chr_match c x) cs.

Definition dot_match (x : ascii) : bool :=
  if DOTALL f then true else negb (Ascii.eqb x newline).

(** The literal [w] at the head of [s]: what follows it. *)
Fixpoint eat (w s : text) : option text :=
  match w, s with
  | [], _ => Some s
  | c :: w', x :: s' => if chr_match c x then eat w' s' else None
  | _ :: _, [] => None
  end.

(** One character satisfying [p]. *)
Definition one (p : ascii -> bool) (s : text) (g : option text) : list way :=
  match s with
  | x :: s' => if p x then [(s', g)] else []
  | [] => []
  end.

(** Repetition.  An iteration that consumes nothing ends the loop, as in
    Python's engine; [fuel] bounds the iterations by the subject's length.
    The greedy loop tries one more iteration before it tries to stop, the
    lazy one tries to stop first. *)
Fixpoint iter_greedy (step : text -> option text -> list way) (fuel : nat)
    (s : text) (g : option text) : list way :=
  match fuel with
  | O => [(s, g)]
  | S n =>
      flat_map (fun w : way =>
                  if (length (fst w) <? length s)%nat
                  then iter_greedy step n (fst w) (snd w) else [])
               (step s g)
      ++ [(s, g)]
  end.

Fixpoint iter_lazy (step : text -> option text -> list way) (fuel : nat)
    (s : text) (g : option text) : list way :=
  match fuel with
  | O => [(s, g)]
  | S n =>
      (s, g) ::
      flat_map (fun w : way =>
                  if (length (fst w) <? length s)%nat
                  then iter_lazy step n (fst w) (snd w) else [])
               (step s g)
  end.

(** What a way consumed of [s]. *)
Definition consumed (s : text) (w : way) : text :=
  firstn (length s - length (fst w)) s.

(** All the ways [r] matches at the head of [s], in backtracking order. *)
Fixpoint ways (r : regex) (s : text) (g : option text) : list way :=
  match r with
  | Chars w => match eat w s with Some s' => [(s', g)] | None => [] end
  | OneOf cs => one (in_set cs) s g
  | NoneOf cs => one (fun x => negb (in_set cs x)) s g
  | Dot => one dot_match s g
  | Seq r1 r2 => flat_map (fun w : way => ways r2 (fst w) (snd w)) (ways r1 s g)
  | Alt r1 r2 => ways r1 s g ++ ways r2 s g
  | Opt r1 => ways r1 s g ++ [(s, g)]
  | Star r1 => iter_greedy (ways r1) (length s) s g
  | Plus r1 =>
      flat_map (fun w : way => iter_greedy (ways r1) (length (fst w)) (fst w) (snd w))
               (ways r1 s g)
  | LazyStar r1 => iter_lazy (ways r1) (length s) s g
  | Group r1 => List.map (fun w : way => (fst w, Some (consumed s w))) (ways r1 s g)
  end.

(** A match object: the matched text, group 1, and the text after it. *)
Record found := { matched : text; group1 : option text; after : text }.

(** [m.group(1)], for the patterns whose group takes part in every match. *)
Definition group (m : found) : text :=
  match group1 m with Some g => g | None => [] end.

(** [pattern.match(s)] at the head of [s]: the first of the ways. *)
Definition match_here (r : regex) (s : text) : option found :=
  match ways r s None with
  | w :: _ => Some {| matched := consumed s w; group1 := snd w; after := fst w |}
  | [] => None
  end.

(** [re.search(r, s)]: the text skipped, and the first match. *)
Fixpoint search (r : regex) (s : text) : option (text * found) :=
  match match_here r s with
  | Some m => Some ([], m)
  | None =>
      match s with
      | [] => None
      | c :: s' =>
          match search r s' with
          | Some (skipped, m) => Some (c :: skipped, m)
          | None => None
          end
      end
  end.

(** The subject cut into the matches [re.finditer] reports and the
    characters between them.  [skip] counts the characters a match has
    still to cover; after an empty match the scan moves one character on
    (no pattern of the script matches the empty text). *)
Inductive piece := Gap (c : ascii) | Hit (m : found).

Fixpoint pieces (r : regex) (s : text) (skip : nat) : list piece :=
  match skip with
  | S k => match s with [] => [] | _ :: s' => pieces r s' k end
  | O =>
      match match_here r s with
      | Some m =>
          Hit m ::
          match s with
          | [] => []
          | c :: s' =>
              match matched m with
              | [] => Gap c :: pieces r s' 0
              | _ :: rest => pieces r s' (length rest)
              end
          end
      | None =>
          match s with
          | [] => []
          | c :: s' => Gap c :: pieces r s' 0
          end
      end
  end.

(** [re.findall(r, s)]: group 1 when the pattern has a group, else the
    whole match. *)
Definition result_of (m : found) : text :=
  match group1 m with Some g => g | None => matched m end.

Definition hits (ps : list piece) : list found :=
  flat_map (fun p => match p with Hit m => [m] | Gap _ => [] end) ps.

Definition findall (r : regex) (s : text) : list text :=
  List.map result_of (hits (pieces r s 0)).

(** [re.sub(r, repl, s)] with the replacement given as a function of the
    match. *)
Definition sub (r : regex) (repl : found -> text) (s : text) : text :=
  flat_map (fun p => match p with Hit m => repl m | Gap c => [c] end) (pieces r s 0).

End Matcher.

End Re.

(** ** The page template of [create_integrated_page]

    The f-string of the source, cut at its placeholders; doubled braces are
    single braces and the doubled backslash is one backslash, as the f-string
    evaluates them. *)

(** The template up to the title element. *)
Definition page_0 : text := py "<!doctype html>
<html lang=`en`>
<head>
  <meta charset=`utf-8`>
  <meta name=`viewport` content=`width=device-width, initial-scale=1, minimum-scale=1` />
  <meta name=`generator` content=`pdoc 0.11.6` />
  <title>".

(** The template between the title and the description. *)
Definition page_1 : text := py "</title>
  <meta name=`description` content=`".

(** The template the fixed head: stylesheets and the pdoc styles, up to the styles of the page. *)
Definition page_2 : text := py "` />
  <link rel=`preload stylesheet` as=`style` href=`https://cdnjs.cloudflare.com/ajax/libs/10up-sanitize.css/11.0.1/sanitize.min.css` integrity=`sha256-PK9q560IAAa6WVRRh76LtCaI8pjTJ2z11v0miyNNjrs=` crossorigin>
  <link rel=`preload stylesheet` as=`style` href=`https://cdnjs.cloudflare.com/ajax/libs/10up-sanitize.css/11.0.1/typography.min.css` integrity=`sha256-7l/o7C8jubJiy74VsKTidCy1yBkRtiUGbVkYBylBqUg=` crossorigin>
  <link rel=`stylesheet preload` as=`style` href=`https://cdnjs.cloudflare.com/ajax/libs/highlight.js/10.1.1/styles/github.min.css` crossorigin>
  
  <!-- Pdoc Styles -->
  <style>:root{--highlight-color:#fe9}.flex{display:flex !important}body{line-height:1.5em}#content{padding:20px}#sidebar{padding:30px;overflow:hidden}#sidebar > *:last-child{margin-bottom:2cm}.http-server-breadcrumbs{font-size:130%;margin:0 0 15px 0}#footer{font-size:.75em;padding:5px 30px;border-top:1px solid #ddd;text-align:right}#footer p{margin:0 0 0 1em;display:inline-block}#footer p:last-child{margin-right:30px}h1,h2,h3,h4,h5{font-weight:300}h1{font-size:2.5em;line-height:1.1em}h2{font-size:1.75em;margin:1em 0 .50em 0}h3{font-size:1.4em;margin:25px 0 10px 0}h4{margin:0;font-size:105%}h1:target,h2:target,h3:target,h4:target,h5:target,h6:target{background:var(--highlight-color);padding:.2em 0}a{color:#058;text-decoration:none;transition:color .3s ease-in-out}a:hover{color:#e82}.title code{font-weight:bold}h2[id^=`header-`]{margin-top:2em}.ident{color:#900}pre code{background:#f8f8f8;font-size:.8em;line-height:1.4em}code{background:#f2f2f1;padding:1px 4px;overflow-wrap:break-word}h1 code{background:transparent}pre{background:#f8f8f8;border:0;border-top:1px solid #ccc;border-bottom:1px solid #ccc;margin:1em 0;padding:1ex}#http-server-module-list{display:flex;flex-flow:column}#http-server-module-list div{display:flex}#http-server-module-list dt{min-width:10%}#http-server-module-list p{margin-top:0}.toc ul,#index{list-style-type:none;margin:0;padding:0}#index code{background:transparent}#index h3{border-bottom:1px solid #ddd}#index ul{padding:0}#index h4{margin-top:.6em;font-weight:bold}@media (min-width:200ex){#index .two-column{column-count:2}}@media (min-width:300ex){#index .two-column{column-count:3}}dl{margin-bottom:2em}dl dl:last-child{margin-bottom:4em}dd{margin:0 0 1em 3em}#header-classes + dl > dd{margin-bottom:3em}dd dd{margin-left:2em}dd p{margin:10px 0}.name{background:#eee;font-weight:bold;font-size:.85em;padding:5px 10px;display:inline-block;min-width:40%}.name:hover{background:#e0e0e0}dt:target .name{background:var(--highlight-color)}.name > span:first-child{white-space:nowrap}.name.class > span:nth-child(2){margin-left:.4em}.inherited{color:#999;border-left:5px solid #eee;padding-left:1em}.inheritance em{font-style:normal;font-weight:bold}.desc h2{font-weight:400;font-size:1.25em}.desc h3{font-size:1em}.desc dt code{background:inherit}.source summary,.git-link-div{color:#666;text-align:right;font-weight:400;font-size:.8em;text-transform:uppercase}.source summary > *{white-space:nowrap;cursor:pointer}.git-link{color:inherit;margin-left:1em}.source pre{max-height:500px;overflow:auto;margin:0}.source pre code{font-size:12px;overflow:visible}.hlist{list-style:none}.hlist li{display:inline}.hlist li:after{content:',\2002'}.hlist li:last-child:after{content:none}.hlist .hlist{display:inline;padding-left:1em}img{max-width:100%}td{padding:0 .5em}.admonition{padding:.1em .5em;margin-bottom:1em}.admonition-title{font-weight:bold}.admonition.note,.admonition.info,.admonition.important{background:#aef}.admonition.todo,.admonition.versionadded,.admonition.tip,.admonition.hint{background:#dfd}.admonition.warning,.admonition.versionchanged,.admonition.deprecated{background:#fd4}.admonition.error,.admonition.danger,.admonition.caution{background:lightpink}</style>
  <style media=`screen and (min-width: 700px)`>@media screen and (min-width:700px){#sidebar{width:30%;height:100vh;overflow:auto;position:sticky;top:0}#content{width:70%;padding:3em 4em;border-left:1px solid #ddd}pre code{font-size:1em}.item .name{font-size:1em}main{display:flex;flex-direction:row-reverse;justify-content:flex-end}.toc ul ul,#index ul{padding-left:1.5em}.toc > ul > li{margin-top:.5em}}</style>
  <style media=`print`>@media print{#sidebar h1{page-break-before:always}.source{display:none}}@media print{*{background:transparent !important;color:#000 !important;box-shadow:none !important;text-shadow:none !important}a[href]:after{content:` (` attr(href) `)`;font-size:90%}a[href][title]:after{content:none}abbr[title]:after{content:` (` attr(title) `)`} .ir a:after,a[href^=`javascript:`]:after,a[href^=`#`]:after{content:``}pre,blockquote{border:1px solid #999;page-break-inside:avoid}thead{display:table-header-group}tr,img{page-break-inside:avoid}img{max-width:100% !important}@page{margin:0.5cm}p,h2,h3{orphans:3;widows:3}h1,h2,h3,h4,h5,h6{page-break-after:avoid}}</style>

  <!-- Additional styles for custom content -->
  <style>
    .badges img {
      margin-right: 0.5rem;
      margin-bottom: 0.25rem;
    }
    .mermaid {
      text-align: center;
      margin: 1rem 0;
    }
    #section-intro .badges {
      margin-bottom: 1rem;
    }
    /* Custom styles from original HTML */
    ".

(** The template the end of the head and the opening of the content section. *)
Definition page_3 : text := py "
  </style>
  <script defer src=`https://cdnjs.cloudflare.com/ajax/libs/highlight.js/10.1.1/highlight.min.js` integrity=`sha256-Uv3H6lx7dJmRfRvH8TH6kJD1TSK1aFcwgx+mdg3epi8=` crossorigin></script>
  <script>window.addEventListener('DOMContentLoaded', () => hljs.initHighlighting())</script>
  <link rel=`shortcut icon` type=`image/x-icon` href=`adaptyv_logo.png?`>
</head>
<body>
<main>
<article id=`content`>
<section id=`section-intro`>
".

(** The template the end of the content section. *)
Definition page_4 : text := py "
</section>
</article>

".

(** The template after the sidebar. *)
Definition page_5 : text := py "
</main>

".

(** The template after the footer. *)
Definition page_6 : text := py "

".

(** The template after the scripts. *)
Definition page_7 : text := py "
".

(** ** The patterns of the script

    In the comments, as in the literals, a backquote stands for the
    double-quote character. *)

Import Re.

Declare Scope regex_scope.
Delimit Scope regex_scope with re.
Bind Scope regex_scope with regex.
Infix "⊙" := Seq (at level 60, right associativity) : regex_scope.

(** [re.IGNORECASE | re.DOTALL], [re.IGNORECASE] alone, and no flag. *)
Definition ci_dotall : flags := {| IGNORECASE := true; DOTALL := true |}.
Definition ci : flags := {| IGNORECASE := true; DOTALL := false |}.
Definition no_flags : flags := {| IGNORECASE := false; DOTALL := false |}.

(** [<NAME[^>]*>(.*?)</NAME>], the shape of the title, body and style
    patterns. *)
Definition element_re (name : text) : regex :=
  (Chars (py "<" ++ name) ⊙ Star (NoneOf (py ">")) ⊙ Chars (py ">")
   ⊙ Group (LazyStar Dot) ⊙ Chars (py "</" ++ name ++ py ">"))%re.

(** [<title[^>]*>(.*?)</title>] *)
Definition title_re : regex := element_re (py "title").
(** [<body[^>]*>(.*?)</body>] *)
Definition body_re : regex := element_re (py "body").
(** [<style[^>]*>(.*?)</style>] *)
Definition style_pattern : regex := element_re (py "style").

(** [</?NAME[^>]*>], the shape of the two tag-removal patterns. *)
Definition tag_re (name : text) : regex :=
  (Chars (py "<") ⊙ Opt (Chars (py "/")) ⊙ Chars name
   ⊙ Star (NoneOf (py ">")) ⊙ Chars (py ">"))%re.

(** [[`\']] and [[^`\']] *)
Definition quotes : text := py "`'".

(** [src=[`\'][^`\']*[`\']] and [type=[`\'][^`\']*[`\']] *)
Definition attr_re (name : text) : regex :=
  (Chars (name ++ py "=") ⊙ OneOf quotes ⊙ Star (NoneOf quotes) ⊙ OneOf quotes)%re.

(** [<script[^>]*(?:src=[`\'][^`\']*[`\']|type=[`\'][^`\']*[`\'])*[^>]*>.*?</script>] *)
Definition script_pattern : regex :=
  (Chars (py "<script") ⊙ Star (NoneOf (py ">"))
   ⊙ Star (Alt (attr_re (py "src")) (attr_re (py "type")))
   ⊙ Star (NoneOf (py ">")) ⊙ Chars (py ">")
   ⊙ LazyStar Dot ⊙ Chars (py "</script>"))%re.

(** [<script[^>]*type=[`\']module[`\'][^>]*>.*?</script>] *)
Definition module_pattern : regex :=
  (Chars (py "<script") ⊙ Star (NoneOf (py ">"))
   ⊙ Chars (py "type=") ⊙ OneOf quotes ⊙ Chars (py "module") ⊙ OneOf quotes
   ⊙ Star (NoneOf (py ">")) ⊙ Chars (py ">")
   ⊙ LazyStar Dot ⊙ Chars (py "</script>"))%re.

(** [href=`#([^`]+)`] *)
Definition href_re : regex :=
  (Chars (py "href=`#") ⊙ Group (Plus (NoneOf (py "`"))) ⊙ Chars (py "`"))%re.

(** The replacement [href=`index.html#\1`]. *)
Definition href_repl (m : found) : text :=
  py "href=`index.html#" ++ group m ++ py "`".

(** The empty replacement. *)
Definition no_repl (_ : found) : text := [].

(** ** extract_html_content *)

(** The dictionary [extract_html_content] returns. *)
Record html_data := { title : text; content : text; styles : text; scripts : text }.

Definition keywords : list text :=
  [py "badge"; py "mermaid"; py "highlight"; py "code"; py "pre"; py "table"; py "img"].

(** [any(keyword in style.lower() for keyword in [...])] *)
Definition useful (style : text) : bool :=
  existsb (fun keyword => str_contains keyword (str_lower style)) keywords.

Definition extract_title (c : text) : text :=
  match search ci_dotall title_re c with
  | Some (_, m) => str_strip (group m)
  | None => py "Documentation"
  end.

Definition extract_body (c : text) : text :=
  match search ci_dotall body_re c with
  | Some (_, m) => str_strip (group m)
  | None =>
      let head_end := str_find c (py "</head>") in
      if head_end =? -1 then c
      else
        let b := str_strip (str_slice_from c (head_end + 7)) in
        let b := sub ci (tag_re (py "html")) no_repl b in
        sub ci (tag_re (py "body")) no_repl b
  end.

Definition extract_styles (c : text) : text :=
  let style_matches := findall ci_dotall style_pattern c in
  let useful_styles := List.map str_strip (List.filter useful style_matches) in
  match useful_styles with
  | [] => []
  | _ => str_join [newline] useful_styles
  end.

Definition extract_scripts (c : text) : text :=
  let script_matches := findall ci_dotall script_pattern c in
  let scripts := match script_matches with
                 | [] => []
                 | _ => str_join [newline] script_matches
                 end in
  let import_script_matches := findall ci_dotall module_pattern c in
  match import_script_matches with
  | [] => scripts
  | _ => str_join [newline] import_script_matches ++ [newline] ++ scripts
  end.

(** The body of the [try] block, on the text read from the file. *)
Definition extract (c : text) : html_data :=
  {| title := extract_title c;
     content := extract_body c;
     styles := extract_styles c;
     scripts := extract_scripts c |}.

(** ** Files, output and exceptions *)

(** A file of the [docs] directory: its text, or [None] when reading it
    raises (a directory, a file without read permission, bytes that are not
    UTF-8), and whether it can be opened for writing. *)
Record file := { data : option text; writable : bool }.

(** What the script prints, one constructor per [print] of the source. *)
Inductive line : Type :=
| ErrorReading (filename : string)          (* Error reading docs/{filename}: {e} *)
| DocsNotFound                              (* docs directory not found *)
| NoTemplate                                (* Could not extract template structure from index.html *)
| CouldNotRead (filename : string)          (* Warning: Could not read {filename}: {e} *)
| NoStandalone                              (* No standalone HTML files found to integrate *)
| FoundStandalone (n : nat)                 (* Found {n} standalone HTML files to integrate: *)
| Listed (filename : string)                (*   - {filename} *)
| Integrating (filename : string)           (* Integrating {filename}... *)
| Integrated (filename : string)            (* Successfully integrated {filename}, after a check mark *)
| FailedToExtract (filename : string)       (* Failed to extract content from {filename}, after a cross *)
| NotFoundSkipping (filename : string)      (* File {filename} not found, skipping... *)
| Complete (n : nat).                       (* Integration complete! Processed {n} files. *)

(** The world the script runs in: the [docs] directory ([None] when there
    is none) and the standard output so far. *)
Record world := { docs : option (gmap string file); out : list line }.

(** A call returns a value or raises. *)
Inductive result (A : Type) : Type :=
| Ok (a : A)
| Raise.
Arguments Ok {A} a.
Arguments Raise {A}.

Definition M (A : Type) : Type := world -> result A * world.

#[global] Instance M_ret : MRet M := fun A a w => (Ok a, w).

#[global] Instance M_bind : MBind M := fun A B k m w =>
  match m w with
  | (Ok a, w') => k a w'
  | (Raise, w') => (Raise, w')
  end.

(** [try: m except Exception: h] *)
Definition try_except {A} (m : M A) (h : M A) : M A :=
  fun w => match m w with
           | (Ok a, w') => (Ok a, w')
           | (Raise, w') => h w'
           end.

Definition print (l : line) : M unit :=
  fun w => (Ok tt, {| docs := docs w; out := out w ++ [l] |}).

(** [os.path.exists] and [Path.exists] on a file of [docs]. *)
Definition path_exists (filename : string) : M bool :=
  fun w => (Ok match docs w with
               | Some d => match d !! filename with Some _ => true | None => false end
               | None => false
               end, w).

(** [Path("docs").exists()] *)
Definition docs_exists : M bool :=
  fun w => (Ok match docs w with Some _ => true | None => false end, w).

(** [open(path, 'r', encoding='utf-8')] followed by [f.read()] *)
Definition read_file (filename : string) : M text :=
  fun w => match docs w with
           | Some d => match d !! filename with
                       | Some {| data := Some c |} => (Ok c, w)
                       | _ => (Raise, w)
                       end
           | None => (Raise, w)
           end.

(** [open(path, 'w', encoding='utf-8')] followed by [f.write(c)] *)
Definition write_file (filename : string) (c : text) : M unit :=
  fun w => match docs w with
           | Some d =>
               match d !! filename with
               | Some {| writable := false |} => (Raise, w)
               | _ => (Ok tt, {| docs := Some (<[filename := {| data := Some c; writable := true |}]> d);
                                 out := out w |})
               end
           | None => (Raise, w)
           end.

(** [s.endswith(suffix)] on file names. *)
Definition ends_with (suffix s : string) : bool :=
  let n := String.length s in
  let m := String.length suffix in
  (m <=? n)%nat && String.eqb (String.substring (n - m) m s) suffix.

(** [docs_dir.glob('*.html')], in the order the directory lists its
    entries (the order of [map_to_list] stands for it). *)
Definition glob_html : M (list string) :=
  fun w => (Ok match docs w with
               | Some d => List.filter (ends_with ".html") (map_to_list d).*1
               | None => []
               end, w).

(** ** extract_html_content, with its handler *)

Definition extract_html_content (filename : string) : M (option html_data) :=
  try_except
    (c ← read_file filename ;
     mret (Some (extract c)))
    (print (ErrorReading filename) ;;
     mret None).

(** ** generate_pdoc_template *)

Record template_data := { before_content : text; sidebar : text; footer : text }.

Definition article_tag : text := py "<article id=`content`>".
Definition sidebar_tag : text := py "<nav id=`sidebar`>".
Definition footer_tag : text := py "<footer id=`footer`>".

(** The function after the file is read. *)
Definition template_of (c : text) : option template_data :=
  let content_start := str_find c article_tag in
  if content_start =? -1 then None
  else
    let before_content := str_slice_to c content_start in
    let sidebar_start := str_find c sidebar_tag in
    let sidebar_end := str_find_from c (py "</nav>") sidebar_start + 6 in
    if (sidebar_start =? -1) || (sidebar_end =? -1) then None
    else
      let sidebar := str_slice c sidebar_start sidebar_end in
      let footer_start := str_find c footer_tag in
      let footer_end := str_find c (py "</html>") in
      if (footer_start =? -1) || (footer_end =? -1) then None
      else
        let footer := str_slice c footer_start footer_end in
        Some {| before_content := before_content; sidebar := sidebar; footer := footer |}.

Definition generate_pdoc_template : M (option template_data) :=
  present ← path_exists "index.html" ;
  if negb (present : bool) then mret None
  else
    c ← read_file "index.html" ;
    mret (template_of c).

(** ** create_integrated_page *)

(** [re.sub(r'href=`#([^`]+)`', r'href=`index.html#\1`', sidebar)] *)
Definition rewrite_sidebar (s : text) : text := sub no_flags href_re href_repl s.

(** The f-string [integrated_html]. *)
Definition integrated_html (h : html_data) (t : template_data) : text :=
  page_0 ++ title h ++ page_1 ++ title h ++ page_2 ++ styles h ++ page_3
  ++ content h ++ page_4 ++ rewrite_sidebar (sidebar t) ++ page_5
  ++ footer t ++ page_6 ++ scripts h ++ page_7.

Definition create_integrated_page (h : html_data) (t : template_data)
    (output_path : string) : M unit :=
  write_file output_path (integrated_html h t).

(** ** main *)

(** The loop that finds the standalone files, lines 199 to 210. *)
Fixpoint find_standalone (files : list string) : M (list string) :=
  match files with
  | [] => mret []
  | filename :: rest =>
      found_here ←
        (if String.eqb filename "index.html" then (mret false : M bool)
         else
           try_except
             (c ← read_file filename ;
              mret (negb (str_contains sidebar_tag c)))
             (print (CouldNotRead filename) ;;
              mret false)) ;
      more ← find_standalone rest ;
      mret (if (found_here : bool) then filename :: more else more)
  end.

(** The loop that lists the standalone files, lines 217 and 218. *)
Fixpoint list_files (names : list string) : M unit :=
  match names with
  | [] => mret tt
  | filename :: rest => print (Listed filename) ;; list_files rest
  end.

(** The loop that processes the standalone files, lines 221 to 235. *)
Fixpoint integrate_files (t : template_data) (names : list string) : M unit :=
  match names with
  | [] => mret tt
  | filename :: rest =>
      present ← path_exists filename ;
      (if (present : bool) then
         print (Integrating filename) ;;
         extracted ← extract_html_content filename ;
         match (extracted : option html_data) with
         | Some h =>
             create_integrated_page h t filename ;;
             print (Integrated filename)
         | None => print (FailedToExtract filename)
         end
       else print (NotFoundSkipping filename)) ;;
      integrate_files t rest
  end.

Definition main : M unit :=
  present ← docs_exists ;
  if negb (present : bool) then print DocsNotFound
  else
    template ← generate_pdoc_template ;
    match (template : option template_data) with
    | None => print NoTemplate
    | Some t =>
        files ← glob_html ;
        standalone_files ← find_standalone files ;
        match (standalone_files : list string) with
        | [] => print NoStandalone
        | _ =>
            print (FoundStandalone (length standalone_files)) ;;
            list_files standalone_files ;;
            integrate_files t standalone_files ;;
            print (Complete (length standalone_files))
        end
    end.

(** A run of the script on a [docs] directory. *)
Definition run (d : option (gmap string file)) : result unit * world :=
  main {| docs := d; out := [] |}.

(** ** The behaviour the specification describes

    Definitions that follow the words of the specification, to be compared
    with the functions above. *)

Module Spec.

(** [w] at the head of [s], whatever the case. *)
Definition starts_with_ci (w s : text) : bool :=
  starts_with (str_lower w) (str_lower s).

(** The lowest index of a case-insensitive occurrence of [w] in [s]. *)
Definition index_of_ci (w s : text) : option nat :=
  index_of (str_lower w) (str_lower s).

(** An occurrence of the element NAME located in a text: the text before
    it, the whole element from [<NAME] to the end of [</NAME>], the inner
    text between the tag and the closing tag, and the text after it. *)
Record element := { before : text; whole : text; inner : text; rest : text }.

(** The first element NAME of [c]: the first case-insensitive [<NAME],
    the first [>] after it, and the first case-insensitive [</NAME>]
    after that. *)
Definition first_element (name c : text) : option element :=
  match index_of_ci (py "<" ++ name) c with
  | None => None
  | Some i =>
      let from_tag := skipn i c in
      let tag_on := skipn (S (length name)) from_tag in
      match index_of (py ">") tag_on with
      | None => None
      | Some j =>
          let inside := skipn (S j) tag_on in
          match index_of_ci (py "</" ++ name ++ py ">") inside with
          | None => None
          | Some k =>
              Some {| before := firstn i c;
                      whole := firstn (S (length name) + S j + k + (length name + 3)) from_tag;
                      inner := firstn k inside;
                      rest := skipn (k + (length name + 3)) inside |}
          end
      end
  end.

(** All the elements NAME of [c], from left to right, each searched in
    what follows the one before.  [fuel] bounds their number. *)
Fixpoint elements_upto (fuel : nat) (name c : text) : list element :=
  match fuel with
  | O => []
  | S n =>
      match first_element name c with
      | Some e => e :: elements_upto n name (rest e)
      | None => []
      end
  end.

Definition elements (name c : text) : list element :=
  elements_upto (length c) name c.

(** A style block is useful when it contains, whatever the case, one of
    the keywords. *)
Definition has_keyword (style : text) : bool :=
  existsb (fun keyword => match index_of_ci keyword style with Some _ => true | None => false end)
          keywords.

(** The anchor at the head of [s]: [href=`#] followed by a non-empty
    fragment up to the next double quote.  The fragment and the text after
    the closing quote. *)
Definition anchor_here (s : text) : option (text * text) :=
  if starts_with (py "href=`#") s then
    let s1 := skipn 7 s in
    match index_of [dquote] s1 with
    | Some (S j) => Some (firstn (S j) s1, skipn (S (S j)) s1)
    | _ => None
    end
  else None.

(** The sidebar with its in-page anchors pointed at the index page: the
    text is read from left to right, an anchor is replaced and the reading
    goes on after it, any other character is copied. *)
Fixpoint rewrite_anchors_upto (fuel : nat) (s : text) : text :=
  match fuel with
  | O => []
  | S n =>
      match anchor_here s with
      | Some (fragment, s') =>
          py "href=`index.html#" ++ fragment ++ py "`" ++ rewrite_anchors_upto n s'
      | None =>
          match s with
          | [] => []
          | c :: s' => c :: rewrite_anchors_upto n s'
          end
      end
  end.

Definition rewrite_anchors (s : text) : text := rewrite_anchors_upto (S (length s)) s.

(** The tag [<NAME ...>] or [</NAME ...>] at the head of [s], whatever the
    case of NAME: the text after its [>]. *)
Definition tag_here (name s : text) : option text :=
  let after_name :=
    if starts_with_ci (py "</" ++ name) s then Some (skipn (2 + length name) s)
    else if starts_with_ci (py "<" ++ name) s then Some (skipn (1 + length name) s)
    else None in
  match after_name with
  | Some s1 =>
      match index_of (py ">") s1 with
      | Some j => Some (skipn (S j) s1)
      | None => None
      end
  | None => None
  end.

(** A text with its NAME tags removed, read from left to right. *)
Fixpoint remove_tags_upto (fuel : nat) (name s : text) : text :=
  match fuel with
  | O => []
  | S n =>
      match tag_here name s with
      | Some s' => remove_tags_upto n name s'
      | None =>
          match s with
          | [] => []
          | c :: s' => c :: remove_tags_upto n name s'
          end
      end
  end.

Definition remove_tags (name s : text) : text := remove_tags_upto (S (length s)) name s.

End Spec.

(** ** Auxiliary definitions of the proofs *)

(** What follows [<NAME] when the element is closed: the first [>], and the
    first [</NAME>] after it; the inner text and the text after the
    element. *)
Definition close_from (name tag_on : text) : option (text * text) :=
  match index_of (py ">") tag_on with
  | None => None
  | Some j =>
      let inside := skipn (S j) tag_on in
      match Spec.index_of_ci (py "</" ++ name ++ py ">") inside with
      | None => None
      | Some k => Some (firstn k inside, skipn (k + (length name + 3)) inside)
      end
  end.

(** The element NAME at the head of [s]: its inner text and the text after
    it. *)
Definition element_here (name s : text) : option (text * text) :=
  if Spec.starts_with_ci (py "<" ++ name) s
  then close_from name (skipn (S (length name)) s)
  else None.

(** The longest run of characters satisfying [p] removed from the head. *)
Fixpoint skip_while (p : ascii -> bool) (s : text) : text :=
  match s with
  | x :: s' => if p x then skip_while p s' else s
  | [] => []
  end.

(** The text of a file of the directory, when it can be read. *)
Definition readable (d : gmap string file) (filename : string) : option text :=
  match d !! filename with
  | Some f => data f
  | None => None
  end.

(** The test of the driver for a standalone file. *)
Definition is_standalone (d : gmap string file) (filename : string) : bool :=
  negb (String.eqb filename "index.html")
  && match readable d filename with
     | Some c => negb (str_contains sidebar_tag c)
     | None => false
     end.

(** A file as [create_integrated_page] leaves it. *)
Definition written (c : text) : file := {| data := Some c; writable := true |}.

(** The standalone files of a directory, in the order of its listing. *)
Definition standalone_files (d : gmap string file) : list string :=
  List.filter (is_standalone d) (List.filter (ends_with ".html") (map_to_list d).*1).

(** Whether a file of the directory can be written (a new file can). *)
Definition can_write (d : gmap string file) (filename : string) : bool :=
  match d !! filename with
  | Some f => writable f
  | None => true
  end.

(** The text of a file in a world. *)
Definition page_in (w : world) (filename : string) : option text :=
  match docs w with
  | Some d => readable d filename
  | None => None
  end.

(** The text of a file after a run on the directory. *)
Definition page_after (d : gmap string file) (filename : string) : option text :=
  page_in (snd (run (Some d))) filename.

(** What a run did, as far as one file goes: its result, its output, and
    of the file it leaves whether it holds the sidebar tag, and its length. *)
Definition report (r : result unit * world) (filename : string)
    : result unit * list line * option bool * option Z :=
  (fst r, out (snd r),
   option_map (str_contains sidebar_tag) (page_in (snd r) filename),
   option_map (fun c => Z.of_nat (length c)) (page_in (snd r) filename)).

(** The directory a run leaves. *)
Definition docs_after (d : gmap string file) : option (gmap string file) :=
  docs (snd (run (Some d))).

(** [s.endswith(w)] *)
Definition str_ends_with (w s : text) : bool := starts_with (rev w) (rev s).

(** The fragments the rewriting of a sidebar replaces, from left to right. *)
Fixpoint fragments_upto (fuel : nat) (s : text) : list text :=
  match fuel with
  | O => []
  | S n =>
      match Spec.anchor_here s with
      | Some (fragment, s') => fragment :: fragments_upto n s'
      | None =>
          match s with
          | [] => []
          | _ :: s' => fragments_upto n s'
          end
      end
  end.

Definition fragments (s : text) : list text := fragments_upto (S (length s)) s.

(** No fragment of the sidebar ends with [href=]. *)
Definition plain_fragments (s : text) : bool :=
  forallb (fun fragment => negb (str_ends_with (py "href=") fragment)) (fragments s).

(** ** Auxiliary definitions of the further properties *)

(** The files the driver warns about: the entries of the listing, other
    than the index page, that cannot be read. *)
Definition unreadable_files (d : gmap string file) : list string :=
  List.filter (fun n => negb (String.eqb n "index.html")
                        && match readable d n with Some _ => false | None => true end)
              (List.filter (ends_with ".html") (map_to_list d).*1).

(** The files of a list up to the first that cannot be written. *)
Fixpoint writable_prefix (d : gmap string file) (names : list string) : list string :=
  match names with
  | n :: rest => if can_write d n then n :: writable_prefix d rest else []
  | [] => []
  end.

(** The first file of a list that cannot be written. *)
Definition first_unwritable (d : gmap string file) (names : list string) : option string :=
  List.find (fun n => negb (can_write d n)) names.

(** The lines the last loop of the driver prints for a file it integrates. *)
Definition integrated_lines (names : list string) : list line :=
  flat_map (fun n => [Integrating n; Integrated n]) names.

(** A quote character, the class [[`\']]. *)
Definition is_quote (x : ascii) : bool := Ascii.eqb x dquote || Ascii.eqb x "'".

(** The attribute [type=`module`] at the head of [s]: [type=], a quote,
    [module] and a quote, whatever the case of the letters and whichever
    the quotes.  The text after it. *)
Definition module_attribute (s : text) : option text :=
  if Spec.starts_with_ci (py "type=") s then
    match skipn 5 s with
    | q :: s1 =>
        if is_quote q && Spec.starts_with_ci (py "module") s1 then
          match skipn 6 s1 with
          | q' :: s2 => if is_quote q' then Some s2 else None
          | [] => None
          end
        else None
    | [] => None
    end
  else None.

(** Whether the attribute starts somewhere in a tag, before its [>]. *)
Fixpoint module_in_tag (u : text) : bool :=
  match u with
  | [] => false
  | x :: u' =>
      if Ascii.eqb x ">" then false
      else match module_attribute u with
           | Some _ => true
           | None => module_in_tag u'
           end
  end.

(** The module script at the head of [s]: a script element whose tag
    holds the attribute.  Its inner text and the text after it. *)
Definition module_here (s : text) : option (text * text) :=
  if Spec.starts_with_ci (py "<script") s && module_in_tag (skipn 7 s)
  then close_from (py "script") (skipn 7 s)
  else None.

(** The module scripts of a text, read from left to right: a module script
    is taken whole and the reading goes on after it. *)
Fixpoint module_scripts_upto (fuel : nat) (s : text) : list text :=
  match fuel with
  | O => []
  | S n =>
      match module_here s with
      | Some (_, rest) => firstn (length s - length rest) s :: module_scripts_upto n rest
      | None =>
          match s with
          | [] => []
          | _ :: s' => module_scripts_upto n s'
          end
      end
  end.

Definition module_scripts (s : text) : list text := module_scripts_upto (S (length s)) s.

(** Whether no proper part of the word [w], taken from its start, ends the
    text [F], and whether none, taken from its end, begins it or is begun
    by it. *)
Definition no_part_at_end (w F : text) : bool :=
  forallb (fun k => negb (starts_with (firstn k w) (skipn (length F - k) F)))
          (seq 1 (length w - 1)).

Definition no_part_at_start (w F : text) : bool :=
  forallb (fun k => negb (starts_with (skipn k w) F) && negb (starts_with F (skipn k w)))
          (seq 1 (length w - 1)).

(** Whether the fixed text of the composed page neither holds the word [w]
    nor can complete an occurrence of it. *)
Definition fixed_text_free (w : text) : bool :=
  forallb (fun F => match index_of w F with None => true | Some _ => false end
                    && no_part_at_end w F && no_part_at_start w F)
          [page_0; page_1; page_2; page_3; page_4; page_5; page_6; page_7].

(** ** Sample inputs *)

(** An index page whose sidebar is not closed by [</nav>]. *)
Definition index_without_nav_end : text :=
  py "<html><body><article id=`content`>API</article><nav id=`sidebar`><a href=`#methods`>Methods</a><footer id=`footer`>pdoc</footer></body></html>".

(** An index page with the four regions, its sidebar holding an in-page
    anchor. *)
Definition index_page : text :=
  py "<html><body><article id=`content`>API</article><nav id=`sidebar`><a href=`#methods`>Methods</a></nav><footer id=`footer`>pdoc</footer></body></html>".

(** A standalone page. *)
Definition guide_page : text := py "<title>Guide</title><body>Hello</body>".

Definition plain (c : text) : file := {| data := Some c; writable := true |}.

(** A directory with an index page, a standalone page and an entry that
    cannot be read. *)
Definition sample_docs : gmap string file :=
  <["index.html" := plain index_page]>
    (<["guide.html" := plain guide_page]>
       (<["assets.html" := {| data := None; writable := false |}]> ∅)).

(** The same, the sidebar of the index page left open. *)
Definition open_sidebar_docs : gmap string file :=
  <["index.html" := plain index_without_nav_end]>
    (<["guide.html" := plain guide_page]> ∅).

(** The template of [index_page]. *)
Definition index_template : template_data :=
  {| before_content := py "<html><body>";
     sidebar := py "<nav id=`sidebar`><a href=`#methods`>Methods</a></nav>";
     footer := py "<footer id=`footer`>pdoc</footer></body>" |}.

(** An index page whose footer tag comes after [</html>]. *)
Definition index_footer_last : text :=
  py "<article id=`content`>API</article><nav id=`sidebar`></nav></html><footer id=`footer`>late</footer>".

(** A directory whose standalone page cannot be written. *)
Definition locked_docs : gmap string file :=
  <["guide.html" := {| data := Some guide_page; writable := false |}]> sample_docs.

(** A directory whose index page cannot be read. *)
Definition unreadable_index_docs : gmap string file :=
  <["index.html" := {| data := None; writable := true |}]> sample_docs.

(** * Properties *)

(** ** Texts *)

Lemma ascii_eqb_sym (a b : ascii) : Ascii.eqb a b = Ascii.eqb b a.
Proof. destruct (Ascii.eqb_spec a b), (Ascii.eqb_spec b a); congruence. Qed.

Lemma starts_with_app (w t : text) : starts_with w (w ++ t) = true.
Proof.
  induction w as [|a w IH]; simpl; [reflexivity|].
  rewrite Ascii.eqb_refl. exact IH.
Qed.

Lemma starts_with_split (w s : text) :
  starts_with w s = true -> s = w ++ skipn (length w) s.
Proof.
  revert s. induction w as [|a w IH]; intros s H; simpl in *; [reflexivity|].
  destruct s as [|b s]; [discriminate|].
  apply andb_true_iff in H as [Hab Hw].
  apply Ascii.eqb_eq in Hab. subst b. simpl. f_equal. apply IH, Hw.
Qed.

Lemma starts_with_iff (w s : text) :
  starts_with w s = true <-> exists t, s = w ++ t.
Proof.
  split.
  - intros H. eexists. apply starts_with_split, H.
  - intros [t ->]. apply starts_with_app.
Qed.

Lemma index_of_cons (w : text) (x : ascii) (s : text) :
  index_of w (x :: s) =
  if starts_with w (x :: s) then Some 0%nat else option_map S (index_of w s).
Proof. reflexivity. Qed.

Lemma index_of_nil (w : text) :
  index_of w [] = if starts_with w [] then Some 0%nat else None.
Proof. reflexivity. Qed.

Lemma index_of_Some (w s : text) (i : nat) :
  index_of w s = Some i ->
  starts_with w (skipn i s) = true /\ (i <= length s)%nat /\
  forall j, (j < i)%nat -> starts_with w (skipn j s) = false.
Proof.
  revert i. induction s as [|x s IH]; intros i H.
  - rewrite index_of_nil in H. destruct (starts_with w []) eqn:E; [|discriminate].
    injection H as <-. simpl. repeat split; [exact E|lia|intros; lia].
  - rewrite index_of_cons in H. destruct (starts_with w (x :: s)) eqn:E.
    + injection H as <-. simpl. repeat split; [exact E|lia|intros; lia].
    + destruct (index_of w s) as [i'|] eqn:E'; [|discriminate].
      injection H as <-. destruct (IH i' eq_refl) as (H1 & H2 & H3).
      simpl. repeat split; [exact H1|lia|].
      intros [|j] Hj; [exact E|]. simpl. apply H3. lia.
Qed.

Lemma index_of_None (w s : text) :
  index_of w s = None -> forall j, starts_with w (skipn j s) = false.
Proof.
  induction s as [|x s IH]; intros H j.
  - rewrite index_of_nil in H. rewrite skipn_nil.
    destruct (starts_with w []); [discriminate|reflexivity].
  - rewrite index_of_cons in H. destruct (starts_with w (x :: s)) eqn:E; [discriminate|].
    destruct (index_of w s) eqn:E'; [discriminate|].
    destruct j as [|j]; [exact E|]. simpl. apply IH. reflexivity.
Qed.

Lemma index_of_found (w s : text) (j : nat) :
  starts_with w (skipn j s) = true ->
  exists i, index_of w s = Some i /\ (i <= j)%nat.
Proof.
  revert j. induction s as [|x s IH]; intros j H.
  - rewrite skipn_nil in H. rewrite index_of_nil, H. exists 0%nat. split; [reflexivity|lia].
  - rewrite index_of_cons. destruct (starts_with w (x :: s)) eqn:E.
    + exists 0%nat. split; [reflexivity|lia].
    + destruct j as [|j]; [simpl in H; congruence|].
      simpl in H. destruct (IH j H) as (i & -> & Hi).
      exists (S i). split; [reflexivity|lia].
Qed.

Lemma index_of_first (w s : text) (i : nat) :
  starts_with w (skipn i s) = true ->
  (forall j, (j < i)%nat -> starts_with w (skipn j s) = false) ->
  index_of w s = Some i.
Proof.
  intros H Hmin. destruct (index_of_found w s i H) as (i' & Hi' & Hle).
  destruct (index_of_Some w s i' Hi') as (H1 & _ & _).
  destruct (Nat.eq_dec i' i) as [->|Hne]; [exact Hi'|].
  rewrite Hmin in H1 by lia. discriminate.
Qed.

Lemma index_of_skipn_None (w s : text) (k : nat) :
  index_of w s = None -> index_of w (skipn k s) = None.
Proof.
  intros H. destruct (index_of w (skipn k s)) as [i|] eqn:E; [|reflexivity].
  apply index_of_Some in E as (E & _ & _).
  rewrite skipn_skipn in E. rewrite (index_of_None w s H) in E. discriminate.
Qed.

Lemma str_lower_skipn (k : nat) (s : text) :
  str_lower (skipn k s) = skipn k (str_lower s).
Proof.
  revert s. induction k as [|k IH]; intros [|x s]; simpl; try reflexivity. apply IH.
Qed.

Lemma str_lower_length (s : text) : length (str_lower s) = length s.
Proof. apply length_map. Qed.

Lemma str_lower_app (a b : text) : str_lower (a ++ b) = str_lower a ++ str_lower b.
Proof. apply map_app. Qed.
(** ** The matcher *)

Lemma flat_map_nil {A B} (k : A -> list B) (l : list A) :
  (forall a, In a l -> k a = []) -> flat_map k l = [].
Proof.
  induction l as [|a l IH]; intros H; [reflexivity|].
  simpl. rewrite (H a) by (left; reflexivity). apply IH. intros b Hb. apply H. right. exact Hb.
Qed.

(** The fuel of the repetitions is enough: with the length of the subject
    or more, the ways are the same. *)
Lemma iter_greedy_fuel (step : text -> option text -> list way) (n : nat) :
  forall m s g, (length s <= n)%nat -> (length s <= m)%nat ->
    iter_greedy step n s g = iter_greedy step m s g.
Proof.
  induction n as [|n IH]; intros m s g Hn Hm.
  - destruct s; simpl in Hn; [|lia]. destruct m as [|m]; [reflexivity|].
    simpl. rewrite flat_map_nil; [reflexivity|]. intros w _. reflexivity.
  - destruct m as [|m].
    + destruct s; simpl in Hm; [|lia].
      simpl. rewrite flat_map_nil; [reflexivity|]. intros w _. reflexivity.
    + simpl. f_equal. apply flat_map_ext. intros w.
      destruct (Nat.ltb_spec (length (fst w)) (length s)) as [Hlt|]; [|reflexivity].
      apply IH; lia.
Qed.

Lemma iter_lazy_fuel (step : text -> option text -> list way) (n : nat) :
  forall m s g, (length s <= n)%nat -> (length s <= m)%nat ->
    iter_lazy step n s g = iter_lazy step m s g.
Proof.
  induction n as [|n IH]; intros m s g Hn Hm.
  - destruct s; simpl in Hn; [|lia]. destruct m as [|m]; [reflexivity|].
    simpl. rewrite flat_map_nil; [reflexivity|]. intros w _. reflexivity.
  - destruct m as [|m].
    + destruct s; simpl in Hm; [|lia].
      simpl. rewrite flat_map_nil; [reflexivity|]. intros w _. reflexivity.
    + simpl. f_equal. apply flat_map_ext. intros w.
      destruct (Nat.ltb_spec (length (fst w)) (length s)) as [Hlt|]; [|reflexivity].
      apply IH; lia.
Qed.

Section Engine.
Variable f : flags.

Lemma eat_split (w s t : text) :
  eat f w s = Some t -> exists a, s = a ++ t /\ length a = length w.
Proof.
  revert s. induction w as [|c w IH]; intros s H; simpl in H.
  - injection H as <-. exists []. split; reflexivity.
  - destruct s as [|x s]; [discriminate|].
    destruct (chr_match f c x); [|discriminate].
    destruct (IH s H) as (a & -> & Ha). exists (x :: a). split; [reflexivity|simpl; lia].
Qed.

Lemma one_suffix (p : ascii -> bool) (s : text) (g : option text) (w : way) :
  In w (one p s g) -> exists a, s = a ++ fst w.
Proof.
  destruct s as [|x s]; simpl; [tauto|].
  destruct (p x); simpl; [|tauto].
  intros [<-|[]]. exists [x]. reflexivity.
Qed.

Lemma iter_greedy_suffix (step : text -> option text -> list way) :
  (forall s g w, In w (step s g) -> exists a, s = a ++ fst w) ->
  forall n s g w, In w (iter_greedy step n s g) -> exists a, s = a ++ fst w.
Proof.
  intros Hstep. induction n as [|n IH]; intros s g w H; simpl in H.
  - destruct H as [<-|[]]. exists []. reflexivity.
  - apply in_app_iff in H as [H|[<-|[]]]; [|exists []; reflexivity].
    apply in_flat_map in H as (w1 & Hw1 & H).
    destruct (length (fst w1) <? length s)%nat; [|destruct H].
    destruct (Hstep _ _ _ Hw1) as (a & ->).
    destruct (IH _ _ _ H) as (b & ->).
    exists (a ++ b). rewrite <- app_assoc. reflexivity.
Qed.

Lemma iter_lazy_suffix (step : text -> option text -> list way) :
  (forall s g w, In w (step s g) -> exists a, s = a ++ fst w) ->
  forall n s g w, In w (iter_lazy step n s g) -> exists a, s = a ++ fst w.
Proof.
  intros Hstep. induction n as [|n IH]; intros s g w H; simpl in H.
  - destruct H as [<-|[]]. exists []. reflexivity.
  - destruct H as [<-|H]; [exists []; reflexivity|].
    apply in_flat_map in H as (w1 & Hw1 & H).
    destruct (length (fst w1) <? length s)%nat; [|destruct H].
    destruct (Hstep _ _ _ Hw1) as (a & ->).
    destruct (IH _ _ _ H) as (b & ->).
    exists (a ++ b). rewrite <- app_assoc. reflexivity.
Qed.

(** What a way leaves is a suffix of the subject. *)
Lemma ways_suffix (r : regex) :
  forall s g w, In w (ways f r s g) -> exists a, s = a ++ fst w.
Proof.
  induction r as [w0|cs|cs| |r1 IH1 r2 IH2|r1 IH1 r2 IH2|r1 IH1|r1 IH1|r1 IH1|r1 IH1|r1 IH1];
    intros s g w H; simpl in H.
  - destruct (eat f w0 s) as [t|] eqn:E; [|destruct H].
    destruct H as [<-|[]]. destruct (eat_split _ _ _ E) as (a & -> & _). exists a. reflexivity.
  - eapply one_suffix, H.
  - eapply one_suffix, H.
  - eapply one_suffix, H.
  - apply in_flat_map in H as (w1 & Hw1 & H).
    destruct (IH1 _ _ _ Hw1) as (a & ->). destruct (IH2 _ _ _ H) as (b & ->).
    exists (a ++ b). rewrite <- app_assoc. reflexivity.
  - apply in_app_iff in H as [H|H]; eauto.
  - apply in_app_iff in H as [H|[<-|[]]]; eauto. exists []. reflexivity.
  - eapply iter_greedy_suffix; eauto.
  - apply in_flat_map in H as (w1 & Hw1 & H).
    destruct (IH1 _ _ _ Hw1) as (a & ->).
    destruct (iter_greedy_suffix _ IH1 _ _ _ _ H) as (b & ->).
    exists (a ++ b). rewrite <- app_assoc. reflexivity.
  - eapply iter_lazy_suffix; eauto.
  - apply in_map_iff in H as (w1 & <- & Hw1). simpl. eauto.
Qed.

Lemma consumed_app (a t : text) (g : option text) : consumed (a ++ t) (t, g) = a.
Proof.
  unfold consumed. simpl. rewrite length_app.
  replace (length a + length t - length t)%nat with (length a) by lia.
  rewrite firstn_app, Nat.sub_diag, firstn_all. simpl. apply app_nil_r.
Qed.

(** A match and what follows it make up the subject. *)
Lemma match_here_split (r : regex) (s : text) (m : found) :
  match_here f r s = Some m -> s = matched m ++ after m.
Proof.
  unfold match_here. destruct (ways f r s None) as [|w l] eqn:E; [discriminate|].
  intros H. injection H as <-. simpl.
  destruct (ways_suffix r s None w) as (a & Ha); [rewrite E; left; reflexivity|].
  destruct w as [t g]. simpl in Ha. subst s. rewrite consumed_app. reflexivity.
Qed.

Lemma pieces_skip (r : regex) (k : nat) :
  forall s, (k <= length s)%nat -> pieces f r s k = pieces f r (skipn k s) 0.
Proof.
  induction k as [|k IH]; intros s Hk; [reflexivity|].
  destruct s as [|x s]; simpl in Hk; [lia|].
  simpl. apply IH. lia.
Qed.

Lemma pieces_hit (r : regex) (s : text) (m : found) :
  match_here f r s = Some m -> matched m <> [] ->
  pieces f r s 0 = Hit m :: pieces f r (after m) 0.
Proof.
  intros H Hne. pose proof (match_here_split _ _ _ H) as Hs.
  destruct (matched m) as [|y ys] eqn:Em; [congruence|].
  destruct s as [|x s]; [discriminate|].
  simpl. rewrite H, Em. f_equal.
  simpl in Hs. injection Hs as _ ->.
  rewrite pieces_skip by (rewrite length_app; lia).
  rewrite skipn_app, Nat.sub_diag, skipn_all. reflexivity.
Qed.

Lemma pieces_gap (r : regex) (x : ascii) (s : text) :
  match_here f r (x :: s) = None -> pieces f r (x :: s) 0 = Gap x :: pieces f r s 0.
Proof. intros H. simpl. rewrite H. reflexivity. Qed.

Lemma pieces_end (r : regex) :
  match_here f r [] = None -> pieces f r [] 0 = [].
Proof. intros H. simpl. rewrite H. reflexivity. Qed.

Lemma sub_hit (r : regex) (repl : found -> text) (s : text) (m : found) :
  match_here f r s = Some m -> matched m <> [] ->
  sub f r repl s = repl m ++ sub f r repl (after m).
Proof. intros H Hne. unfold sub. rewrite (pieces_hit _ _ _ H Hne). reflexivity. Qed.

Lemma sub_gap (r : regex) (repl : found -> text) (x : ascii) (s : text) :
  match_here f r (x :: s) = None -> sub f r repl (x :: s) = x :: sub f r repl s.
Proof. intros H. unfold sub. rewrite (pieces_gap _ _ _ H). reflexivity. Qed.

Lemma sub_end (r : regex) (repl : found -> text) :
  match_here f r [] = None -> sub f r repl [] = [].
Proof. intros H. unfold sub. rewrite (pieces_end _ H). reflexivity. Qed.

Lemma findall_hit (r : regex) (s : text) (m : found) :
  match_here f r s = Some m -> matched m <> [] ->
  findall f r s = result_of m :: findall f r (after m).
Proof. intros H Hne. unfold findall. rewrite (pieces_hit _ _ _ H Hne). reflexivity. Qed.

Lemma findall_gap (r : regex) (x : ascii) (s : text) :
  match_here f r (x :: s) = None -> findall f r (x :: s) = findall f r s.
Proof. intros H. unfold findall. rewrite (pieces_gap _ _ _ H). reflexivity. Qed.

Lemma findall_end (r : regex) :
  match_here f r [] = None -> findall f r [] = [].
Proof. intros H. unfold findall. rewrite (pieces_end _ H). reflexivity. Qed.

(** [findall] is [search], repeated on what follows each match. *)
Lemma findall_search (r : regex) :
  (forall t m, match_here f r t = Some m -> matched m <> []) ->
  forall s, findall f r s =
            match search f r s with
            | Some (_, m) => result_of m :: findall f r (after m)
            | None => []
            end.
Proof.
  intros Hne. induction s as [|x s IH].
  - simpl search. destruct (match_here f r []) as [m|] eqn:E.
    + apply findall_hit; eauto.
    + apply findall_end, E.
  - simpl search. destruct (match_here f r (x :: s)) as [m|] eqn:E.
    + apply findall_hit; eauto.
    + rewrite (findall_gap _ _ _ E), IH.
      destruct (search f r s) as [[skipped m]|]; reflexivity.
Qed.

(** A class repeated greedily, before a continuation [K] that refuses
    every text starting in the class: the only way through takes the
    longest run. *)
Lemma greedy_then (p : ascii -> bool) (K : way -> list way) :
  (forall x t g, p x = true -> K (x :: t, g) = []) ->
  forall n s g, (length s <= n)%nat ->
    flat_map K (iter_greedy (one p) n s g) = K (skip_while p s, g).
Proof.
  intros HK. induction n as [|n IH]; intros s g Hn.
  - destruct s; simpl in Hn; [|lia]. simpl. apply app_nil_r.
  - destruct s as [|x s]; simpl.
    + apply app_nil_r.
    + destruct (p x) eqn:Ep; simpl.
      * replace (length s <? S (length s))%nat with true
          by (symmetry; apply Nat.ltb_lt; lia).
        rewrite app_nil_r, flat_map_app. simpl.
        rewrite HK by exact Ep. rewrite !app_nil_r. apply IH. simpl in Hn. lia.
      * apply app_nil_r.
Qed.
End Engine.

(** ** Literals, classes and lazy repetition under the flags of the script *)

Section Shapes.
Variable f : flags.

Lemma eat_ci (w s : text) :
  IGNORECASE f = true ->
  eat f w s = if Spec.starts_with_ci w s then Some (skipn (length w) s) else None.
Proof.
  intros Hf. unfold Spec.starts_with_ci. revert s.
  induction w as [|c w IH]; intros s; simpl; [reflexivity|].
  destruct s as [|x s]; simpl; [reflexivity|].
  unfold chr_match. rewrite Hf, ascii_eqb_sym.
  destruct (Ascii.eqb (chr_lower c) (chr_lower x)); simpl; [apply IH|reflexivity].
Qed.

Lemma eat_exact (w s : text) :
  IGNORECASE f = false ->
  eat f w s = if starts_with w s then Some (skipn (length w) s) else None.
Proof.
  intros Hf. revert s.
  induction w as [|c w IH]; intros s; simpl; [reflexivity|].
  destruct s as [|x s]; simpl; [reflexivity|].
  unfold chr_match. rewrite Hf, ascii_eqb_sym.
  destruct (Ascii.eqb c x); simpl; [apply IH|reflexivity].
Qed.

Lemma chr_match_gt (x : ascii) : chr_match f ">" x = Ascii.eqb x ">".
Proof.
  unfold chr_match. destruct (IGNORECASE f); [|reflexivity].
  destruct x as [[] [] [] [] [] [] [] []]; reflexivity.
Qed.

Lemma chr_match_dquote (x : ascii) : chr_match f dquote x = Ascii.eqb x dquote.
Proof.
  unfold chr_match. destruct (IGNORECASE f); [|reflexivity].
  destruct x as [[] [] [] [] [] [] [] []]; reflexivity.
Qed.

Lemma dot_match_all : DOTALL f = true -> forall x, dot_match f x = true.
Proof. intros H x. unfold dot_match. rewrite H. reflexivity. Qed.

Lemma skip_while_ext (p q : ascii -> bool) (s : text) :
  (forall x, p x = q x) -> skip_while p s = skip_while q s.
Proof.
  intros H. induction s as [|x s IH]; simpl; [reflexivity|].
  rewrite H, IH. reflexivity.
Qed.

(** Skipping what is not [c] stops at the first [c]. *)
Lemma skip_while_index (c : ascii) (s : text) :
  skip_while (fun x => negb (Ascii.eqb x c)) s =
  match index_of [c] s with
  | Some j => c :: skipn (S j) s
  | None => []
  end.
Proof.
  induction s as [|x s IH]; [reflexivity|].
  rewrite index_of_cons. simpl. rewrite (ascii_eqb_sym c x).
  destruct (Ascii.eqb x c) eqn:E; simpl.
  - apply Ascii.eqb_eq in E. subst x. reflexivity.
  - rewrite IH. destruct (index_of [c] s); reflexivity.
Qed.

(** [.*?] before a literal, with [re.DOTALL]: the first way through stops
    at the first occurrence of the literal.  [G] is what becomes of group 1,
    as a function of what is left when the repetition stops. *)
Lemma lazy_then_literal (close : text) (G : text -> option text -> option text) :
  IGNORECASE f = true -> DOTALL f = true ->
  forall n t g, (length t <= n)%nat ->
    hd_error (flat_map (fun w : way =>
                          match eat f close (fst w) with
                          | Some t' => [(t', G (fst w) (snd w))]
                          | None => []
                          end)
                       (iter_lazy (one (dot_match f)) n t g)) =
    match Spec.index_of_ci close t with
    | Some k => Some (skipn (k + length close) t, G (skipn k t) g)
    | None => None
    end.
Proof.
  intros Hi Hd. unfold Spec.index_of_ci.
  induction n as [|n IH]; intros t g Hn.
  - destruct t; simpl in Hn; [|lia]. simpl.
    rewrite (eat_ci _ _ Hi). unfold Spec.starts_with_ci. simpl str_lower.
    destruct (starts_with (str_lower close) []); simpl; rewrite ?skipn_nil; reflexivity.
  - destruct t as [|x t].
    + simpl. rewrite (eat_ci _ _ Hi). unfold Spec.starts_with_ci. simpl str_lower.
      destruct (starts_with (str_lower close) []); simpl; rewrite ?skipn_nil; reflexivity.
    + cbn [iter_lazy one]. rewrite (dot_match_all Hd).
      cbn [flat_map fst snd length].
      replace (length t <? S (length t))%nat with true
        by (symmetry; apply Nat.ltb_lt; lia).
      rewrite app_nil_r. cbn [flat_map fst].
      rewrite (eat_ci _ (x :: t) Hi). unfold Spec.starts_with_ci.
      cbn [str_lower List.map]. fold (str_lower t). rewrite index_of_cons.
      destruct (starts_with (str_lower close) (chr_lower x :: str_lower t)); [reflexivity|].
      cbn [app]. rewrite IH by (simpl in Hn; lia).
      destruct (index_of (str_lower close) (str_lower t)); reflexivity.
Qed.
End Shapes.

(** ** The element patterns *)

Section Search.
Variable f : flags.

Lemma match_here_head (r : regex) (s : text) :
  match_here f r s =
  option_map (fun w : way => {| matched := consumed s w; group1 := snd w; after := fst w |})
             (hd_error (ways f r s None)).
Proof. unfold match_here. destruct (ways f r s None); reflexivity. Qed.

Lemma search_None (r : regex) (s : text) :
  (forall k, match_here f r (skipn k s) = None) -> search f r s = None.
Proof.
  induction s as [|x s IH]; intros H; pose proof (H 0%nat) as H0; simpl in H0; simpl.
  - rewrite H0. reflexivity.
  - rewrite H0. rewrite IH; [reflexivity|]. intros k. apply (H (S k)).
Qed.

Lemma search_at (r : regex) (s : text) (i : nat) (m : found) :
  (forall j, (j < i)%nat -> match_here f r (skipn j s) = None) ->
  match_here f r (skipn i s) = Some m -> (i <= length s)%nat ->
  search f r s = Some (firstn i s, m).
Proof.
  revert s. induction i as [|i IH]; intros s Hlt Hm Hi.
  - simpl in Hm. destruct s; simpl in *; rewrite Hm; reflexivity.
  - destruct s as [|x s]; simpl in Hi; [lia|].
    simpl search. pose proof (Hlt 0%nat ltac:(lia)) as H0. simpl in H0. rewrite H0.
    rewrite (IH s); [reflexivity| |exact Hm|lia].
    intros j Hj. apply (Hlt (S j)). lia.
Qed.

Lemma ways_chars_then (w : text) (r : regex) (s : text) (g : option text) :
  ways f (Chars w ⊙ r) s g =
  match eat f w s with Some s' => ways f r s' g | None => [] end.
Proof.
  cbn [ways]. destruct (eat f w s); simpl; [apply app_nil_r|reflexivity].
Qed.

Lemma class_star_then (cs : text) (r : regex) (s : text) (g : option text) :
  (forall x t g', in_set f cs x = false -> ways f r (x :: t) g' = []) ->
  ways f (Star (NoneOf cs) ⊙ r) s g =
  ways f r (skip_while (fun x => negb (in_set f cs x)) s) g.
Proof.
  intros H. cbn [ways].
  change (ways f (NoneOf cs)) with (one (fun x => negb (in_set f cs x))).
  apply (greedy_then (fun x => negb (in_set f cs x))
                     (fun w : way => ways f r (fst w) (snd w))); [|lia].
  intros x t g' Hx. simpl. apply H. destruct (in_set f cs x); [discriminate|reflexivity].
Qed.

Lemma in_set_gt (x : ascii) : in_set f (py ">") x = Ascii.eqb x ">".
Proof. unfold in_set. simpl. rewrite orb_false_r. apply chr_match_gt. Qed.

(** [[^>]*>] runs to the first [>]. *)
Lemma to_gt_then (r : regex) (s : text) (g : option text) :
  ways f (Star (NoneOf (py ">")) ⊙ Chars (py ">") ⊙ r) s g =
  match index_of (py ">") s with
  | Some j => ways f r (skipn (S j) s) g
  | None => []
  end.
Proof.
  rewrite class_star_then.
  - rewrite (skip_while_ext _ (fun x => negb (Ascii.eqb x ">"))) by (intros x; rewrite in_set_gt; reflexivity).
    rewrite skip_while_index. change [">"%char] with (py ">").
    destruct (index_of (py ">") s) as [j|]; [|reflexivity].
    rewrite ways_chars_then. simpl. rewrite chr_match_gt. reflexivity.
  - intros x t g' Hx. rewrite ways_chars_then. simpl.
    rewrite in_set_gt in Hx. rewrite chr_match_gt, Hx. reflexivity.
Qed.
End Search.

Lemma flat_map_map {A B C} (h : A -> B) (k : B -> list C) (l : list A) :
  flat_map k (List.map h l) = flat_map (fun a => k (h a)) l.
Proof. induction l as [|a l IH]; simpl; [reflexivity|]. rewrite IH. reflexivity. Qed.

Lemma starts_with_length (w s : text) :
  starts_with w s = true -> (length w <= length s)%nat.
Proof.
  intros H. rewrite (starts_with_split _ _ H), length_app. lia.
Qed.

Section Element.
Variable name : text.

Lemma close_length : length (py "</" ++ name ++ py ">") = (length name + 3)%nat.
Proof. simpl. rewrite length_app. simpl. lia. Qed.

(** [(.*?)</NAME>] stops at the first [</NAME>]. *)
Lemma inner_then_close (t : text) (g : option text) :
  hd_error (ways ci_dotall (Group (LazyStar Dot) ⊙ Chars (py "</" ++ name ++ py ">")) t g) =
  match Spec.index_of_ci (py "</" ++ name ++ py ">") t with
  | Some k => Some (skipn (k + (length name + 3)) t, Some (firstn k t))
  | None => None
  end.
Proof.
  cbn [ways]. rewrite flat_map_map.
  pose proof (lazy_then_literal ci_dotall (py "</" ++ name ++ py ">")
                (fun u _ => Some (firstn (length t - length u) t))
                eq_refl eq_refl (length t) t g (le_n _)) as H.
  cbv beta in H. etransitivity; [exact H|]. clear H.
  rewrite close_length.
  destruct (Spec.index_of_ci (py "</" ++ name ++ py ">") t) as [k|] eqn:E; [|reflexivity].
  apply index_of_Some in E as (_ & Hk & _). rewrite str_lower_length in Hk.
  rewrite length_skipn.
  replace (length t - (length t - k))%nat with k by lia. reflexivity.
Qed.

(** [.*?</NAME>], without a group. *)
Lemma any_then_close (t : text) (g : option text) :
  hd_error (ways ci_dotall (LazyStar Dot ⊙ Chars (py "</" ++ name ++ py ">")) t g) =
  match Spec.index_of_ci (py "</" ++ name ++ py ">") t with
  | Some k => Some (skipn (k + (length name + 3)) t, g)
  | None => None
  end.
Proof.
  cbn [ways].
  pose proof (lazy_then_literal ci_dotall (py "</" ++ name ++ py ">")
                (fun _ g' => g')
                eq_refl eq_refl (length t) t g (le_n _)) as H.
  cbv beta in H. etransitivity; [exact H|]. clear H.
  rewrite close_length. reflexivity.
Qed.

(** The first way the element pattern matches at the head of [s]. *)
Lemma element_way (s : text) :
  hd_error (ways ci_dotall (element_re name) s None) =
  option_map (fun e : text * text => (snd e, Some (fst e))) (element_here name s).
Proof.
  unfold element_re, element_here. rewrite ways_chars_then, (eat_ci ci_dotall _ _ eq_refl).
  destruct (Spec.starts_with_ci (py "<" ++ name) s); [|reflexivity].
  change (length (py "<" ++ name)) with (S (length name)).
  rewrite to_gt_then.
  unfold close_from.
  destruct (index_of (py ">") (skipn (S (length name)) s)) as [j|]; [|reflexivity].
  rewrite inner_then_close.
  destruct (Spec.index_of_ci _ _); reflexivity.
Qed.
End Element.

(** ** Searching for an element *)

Section ElementSearch.
Variable name : text.

Lemma element_here_no_tag (s : text) :
  Spec.starts_with_ci (py "<" ++ name) s = false -> element_here name s = None.
Proof. intros H. unfold element_here. rewrite H. reflexivity. Qed.

(** When the element at some place is not closed, none further on is. *)
Lemma close_from_mono (t : text) (q : nat) :
  close_from name t = None -> close_from name (skipn q t) = None.
Proof.
  intros H. destruct (close_from name (skipn q t)) as [e|] eqn:E; [exfalso|reflexivity].
  unfold close_from in E, H.
  destruct (index_of (py ">") (skipn q t)) as [j'|] eqn:Ej; [|discriminate].
  destruct (Spec.index_of_ci (py "</" ++ name ++ py ">") (skipn (S j') (skipn q t)))
    as [k'|] eqn:Ek; [|discriminate].
  apply index_of_Some in Ej as (Ej & _ & _). rewrite skipn_skipn in Ej.
  destruct (index_of_found _ _ _ Ej) as (j & Hj & Hle). rewrite Hj in H.
  destruct (Spec.index_of_ci (py "</" ++ name ++ py ">") (skipn (S j) t)) eqn:Ec; [discriminate|].
  unfold Spec.index_of_ci in Ek, Ec.
  apply (index_of_skipn_None _ _ (j' + q - j)) in Ec.
  rewrite <- str_lower_skipn, skipn_skipn in Ec.
  rewrite skipn_skipn in Ek.
  replace (j' + q - j + S j)%nat with (S j' + q)%nat in Ec by lia.
  congruence.
Qed.

Lemma element_here_mono (s : text) (q : nat) :
  Spec.starts_with_ci (py "<" ++ name) s = true ->
  element_here name s = None -> element_here name (skipn q s) = None.
Proof.
  intros Hs H. unfold element_here in *. rewrite Hs in H.
  destruct (Spec.starts_with_ci (py "<" ++ name) (skipn q s)); [|reflexivity].
  rewrite skipn_skipn, Nat.add_comm, <- skipn_skipn. apply close_from_mono, H.
Qed.

Lemma starts_with_ci_length (w s : text) :
  Spec.starts_with_ci w s = true -> (length w <= length s)%nat.
Proof.
  intros H. apply starts_with_length in H. rewrite !str_lower_length in H. exact H.
Qed.

Lemma close_from_lengths (t i r : text) :
  close_from name t = Some (i, r) ->
  exists j k, index_of (py ">") t = Some j /\
    Spec.index_of_ci (py "</" ++ name ++ py ">") (skipn (S j) t) = Some k /\
    i = firstn k (skipn (S j) t) /\ r = skipn (k + (length name + 3)) (skipn (S j) t) /\
    (S j + k + (length name + 3) <= length t)%nat.
Proof.
  unfold close_from. intros H.
  destruct (index_of (py ">") t) as [j|] eqn:Ej; [|discriminate].
  destruct (Spec.index_of_ci (py "</" ++ name ++ py ">") (skipn (S j) t)) as [k|] eqn:Ek;
    [|discriminate].
  injection H as <- <-. exists j, k.
  split; [reflexivity|]. split; [exact Ek|]. split; [reflexivity|]. split; [reflexivity|].
  apply index_of_Some in Ej as (Ej & _ & _). apply starts_with_length in Ej.
  unfold Spec.index_of_ci in Ek. apply index_of_Some in Ek as (Ek & _ & _).
  apply starts_with_length in Ek.
  rewrite <- !str_lower_skipn, !str_lower_length, close_length, !length_skipn in Ek.
  rewrite length_skipn in Ej. simpl in Ej. lia.
Qed.

(** A pattern whose first way at every place is the element located there
    finds, when searched, the first element of the text.  [grp] is what
    the pattern puts in group 1. *)
Lemma search_by_element (r : regex) (grp : text -> option text) :
  (forall s, hd_error (ways ci_dotall r s None) =
             option_map (fun e : text * text => (snd e, grp (fst e))) (element_here name s)) ->
  forall c, search ci_dotall r c =
            option_map (fun e => (Spec.before e,
                                  {| matched := Spec.whole e;
                                     group1 := grp (Spec.inner e);
                                     after := Spec.rest e |}))
                       (Spec.first_element name c).
Proof.
  intros Hr c.
  assert (Hm : forall s, match_here ci_dotall r s =
                 option_map (fun e : text * text =>
                               {| matched := firstn (length s - length (snd e)) s;
                                  group1 := grp (fst e); after := snd e |})
                            (element_here name s)).
  { intros s. rewrite match_here_head, Hr. destruct (element_here name s); reflexivity. }
  unfold Spec.first_element.
  destruct (Spec.index_of_ci (py "<" ++ name) c) as [i|] eqn:Ei.
  - unfold Spec.index_of_ci in Ei. apply index_of_Some in Ei as (Hs & Hi & Hmin).
    rewrite <- str_lower_skipn in Hs. rewrite str_lower_length in Hi.
    fold (Spec.starts_with_ci (py "<" ++ name) (skipn i c)) in Hs.
    assert (Hbefore : forall j, (j < i)%nat -> match_here ci_dotall r (skipn j c) = None).
    { intros j Hj. rewrite Hm, element_here_no_tag; [reflexivity|].
      unfold Spec.starts_with_ci. rewrite str_lower_skipn. apply Hmin, Hj. }
    destruct (element_here name (skipn i c)) as [[inn rst]|] eqn:Ee.
    + pose proof Ee as Ee'. unfold element_here in Ee'. rewrite Hs in Ee'.
      destruct (close_from_lengths _ _ _ Ee') as (j & k & Hj & Hk & -> & -> & Hlen).
      rewrite Hj. cbv zeta. rewrite Hk. cbn [option_map].
      rewrite (search_at ci_dotall r c i
                 {| matched := firstn (length (skipn i c)
                                       - length (skipn (k + (length name + 3))
                                                   (skipn (S j) (skipn (S (length name)) (skipn i c)))))
                                      (skipn i c);
                    group1 := grp (firstn k (skipn (S j) (skipn (S (length name)) (skipn i c))));
                    after := skipn (k + (length name + 3))
                               (skipn (S j) (skipn (S (length name)) (skipn i c))) |});
        [|exact Hbefore|rewrite Hm, Ee; reflexivity|exact Hi].
      cbn [Spec.before Spec.whole Spec.inner Spec.rest]. do 3 f_equal.
      apply starts_with_ci_length in Hs. simpl in Hs.
      rewrite !length_skipn in *. f_equal. lia.
    + assert (Hnone : search ci_dotall r c = None).
      { apply search_None. intros q. rewrite Hm.
        destruct (Nat.lt_ge_cases q i) as [Hq|Hq].
        - rewrite <- Hm. apply Hbefore, Hq.
        - replace q with ((q - i) + i)%nat by lia. rewrite <- skipn_skipn.
          rewrite (element_here_mono _ _ Hs Ee). reflexivity. }
      rewrite Hnone. unfold element_here in Ee. rewrite Hs in Ee.
      unfold close_from in Ee.
      destruct (index_of (py ">") (skipn (S (length name)) (skipn i c))) as [j|]; [|reflexivity].
      cbv zeta in *.
      destruct (Spec.index_of_ci (py "</" ++ name ++ py ">")
                  (skipn (S j) (skipn (S (length name)) (skipn i c)))); [discriminate|reflexivity].
  - cbn [option_map]. apply search_None. intros q. rewrite Hm, element_here_no_tag; [reflexivity|].
    unfold Spec.starts_with_ci. rewrite str_lower_skipn.
    apply index_of_None. exact Ei.
Qed.

Lemma first_element_rest (c : text) (e : Spec.element) :
  Spec.first_element name c = Some e ->
  (length (Spec.rest e) < length c)%nat /\ Spec.whole e <> [].
Proof.
  unfold Spec.first_element. intros H.
  destruct (Spec.index_of_ci (py "<" ++ name) c) as [i|] eqn:Ei; [|discriminate].
  destruct (index_of (py ">") (skipn (S (length name)) (skipn i c))) as [j|] eqn:Ej;
    [|discriminate].
  cbv zeta in H.
  destruct (Spec.index_of_ci (py "</" ++ name ++ py ">")
              (skipn (S j) (skipn (S (length name)) (skipn i c)))) as [k|] eqn:Ek;
    [|discriminate].
  injection H as <-. cbn [Spec.rest Spec.whole].
  unfold Spec.index_of_ci in Ei. apply index_of_Some in Ei as (Hs & Hi & _).
  rewrite <- str_lower_skipn in Hs. apply starts_with_length in Hs.
  rewrite !str_lower_length in *. simpl in Hs. rewrite length_skipn in Hs.
  split.
  - rewrite !length_skipn. lia.
  - intros Hnil. apply (f_equal (@length ascii)) in Hnil.
    rewrite length_firstn, length_skipn in Hnil.
    destruct (length c - i)%nat; [lia|]. simpl in Hnil. discriminate.
Qed.

(** ... and, with [findall], all the elements of the text, whatever the
    fuel from the length of the text on. *)
Lemma findall_by_element_upto (r : regex) (grp : text -> option text) :
  (forall s, hd_error (ways ci_dotall r s None) =
             option_map (fun e : text * text => (snd e, grp (fst e))) (element_here name s)) ->
  forall n c, (length c <= n)%nat ->
    findall ci_dotall r c =
    List.map (fun e => match grp (Spec.inner e) with
                       | Some g => g
                       | None => Spec.whole e
                       end)
             (Spec.elements_upto n name c).
Proof.
  intros Hr.
  assert (Hne : forall t m, match_here ci_dotall r t = Some m -> matched m <> []).
  { intros t m Hm. pose proof (search_by_element r grp Hr t) as Hsrch.
    destruct t as [|x t]; simpl search in Hsrch; rewrite Hm in Hsrch;
      destruct (Spec.first_element name _) as [e|] eqn:Ee; try discriminate;
      injection Hsrch as _ ->; simpl; apply (first_element_rest _ _ Ee). }
  induction n as [|n IH]; intros c Hn.
  - destruct c; simpl in Hn; [|lia].
    rewrite (findall_search _ _ Hne), (search_by_element r grp Hr). reflexivity.
  - rewrite (findall_search _ _ Hne), (search_by_element r grp Hr). cbn [Spec.elements_upto].
    destruct (Spec.first_element name c) as [e|] eqn:Ee; [|reflexivity].
    cbn [option_map List.map after result_of group1 matched]. f_equal.
    apply IH. apply (first_element_rest _ _) in Ee. lia.
Qed.

Lemma findall_by_element (r : regex) (grp : text -> option text) :
  (forall s, hd_error (ways ci_dotall r s None) =
             option_map (fun e : text * text => (snd e, grp (fst e))) (element_here name s)) ->
  forall c, findall ci_dotall r c =
            List.map (fun e => match grp (Spec.inner e) with
                               | Some g => g
                               | None => Spec.whole e
                               end)
                     (Spec.elements name c).
Proof. intros Hr c. apply findall_by_element_upto; [exact Hr|lia]. Qed.
End ElementSearch.

(** ** The script pattern *)

Section Script.

Lemma ways_seq (f : flags) (r1 r2 : regex) (s : text) (g : option text) :
  ways f (r1 ⊙ r2) s g = flat_map (fun w : way => ways f r2 (fst w) (snd w)) (ways f r1 s g).
Proof. reflexivity. Qed.

Lemma ways_star (f : flags) (r : regex) (s : text) (g : option text) :
  ways f (Star r) s g = iter_greedy (ways f r) (length s) s g.
Proof. reflexivity. Qed.

(** What a pattern leaves to the pattern after it. *)
Lemma ways_seq_in (f : flags) (r1 r2 : regex) (s : text) (g : option text) (w : way) :
  In w (ways f (r1 ⊙ r2) s g) ->
  exists a w1, s = a ++ fst w1 /\ In w (ways f r2 (fst w1) (snd w1)).
Proof.
  rewrite ways_seq. intros H. apply in_flat_map in H as (w1 & H1 & H).
  destruct (ways_suffix f r1 _ _ _ H1) as (a & Ha). exists a, w1. split; assumption.
Qed.

(** The first way through a greedy class is the one that takes the longest
    run, when the continuation accepts it. *)
Lemma greedy_head (p : ascii -> bool) (K : way -> list way) :
  forall n s g, (length s <= n)%nat ->
    exists l, flat_map K (iter_greedy (one p) n s g) = K (skip_while p s, g) ++ l.
Proof.
  induction n as [|n IH]; intros s g Hn.
  - destruct s; simpl in Hn; [|lia]. exists []. reflexivity.
  - destruct s as [|x s]; simpl.
    + exists []. reflexivity.
    + destruct (p x) eqn:Ep; simpl.
      * replace (length s <? S (length s))%nat with true
          by (symmetry; apply Nat.ltb_lt; lia).
        rewrite app_nil_r, flat_map_app.
        destruct (IH s g ltac:(simpl in Hn; lia)) as (l & ->).
        eexists. rewrite <- app_assoc. reflexivity.
      * exists []. reflexivity.
Qed.

Variable name : text.

(** Whatever matched [>.*?</NAME>] after some prefix, the element is
    closed. *)
Lemma tail_sound (a u : text) (g : option text) (w : way) :
  In w (ways ci_dotall (Chars (py ">") ⊙ LazyStar Dot ⊙ Chars (py "</" ++ name ++ py ">")) u g) ->
  close_from name (a ++ u) <> None.
Proof.
  rewrite ways_chars_then. destruct u as [|x u]; [simpl; tauto|].
  change (eat ci_dotall (py ">") (x :: u))
    with (if chr_match ci_dotall ">" x then Some u else None).
  rewrite chr_match_gt.
  destruct (Ascii.eqb_spec x ">") as [->|]; [|simpl; tauto].
  intros H. apply ways_seq_in in H as (c & w3 & Hc & H).
  cbn [ways] in H. rewrite (eat_ci ci_dotall _ _ eq_refl) in H.
  destruct (Spec.starts_with_ci _ (fst w3)) eqn:Ed; [|destruct H]. clear H.
  unfold close_from.
  assert (Hgt : starts_with (py ">") (skipn (length a) (a ++ ">"%char :: u)) = true).
  { rewrite drop_app_length. reflexivity. }
  destruct (index_of_found _ _ _ Hgt) as (j & -> & Hj).
  assert (Hcl : starts_with (str_lower (py "</" ++ name ++ py ">"))
                  (skipn (length a - j + length c)
                         (str_lower (skipn (S j) (a ++ ">"%char :: u)))) = true).
  { rewrite <- str_lower_skipn, skipn_skipn.
    replace (length a - j + length c + S j)%nat with (length (a ++ ">"%char :: c)) 
      by (rewrite length_app; simpl; lia).
    rewrite Hc. replace (a ++ ">"%char :: c ++ fst w3) with ((a ++ ">"%char :: c) ++ fst w3)
      by (rewrite <- app_assoc; reflexivity).
    rewrite drop_app_length. exact Ed. }
  destruct (index_of_found _ _ _ Hcl) as (k & Hk & _).
  unfold Spec.index_of_ci. rewrite Hk. discriminate.
Qed.

Lemma hd_error_app_some {A} (l l' : list A) (x : A) :
  hd_error l = Some x -> hd_error (l ++ l') = Some x.
Proof. destruct l; simpl; [discriminate|tauto]. Qed.
End Script.

(** No attribute starts at a [>]: the optional group of the script pattern
    takes nothing there. *)
Lemma no_attribute_at_gt (r : regex) (t : text) (g : option text) :
  ways ci_dotall (Star (Alt (attr_re (py "src")) (attr_re (py "type"))) ⊙ r) (">"%char :: t) g =
  ways ci_dotall r (">"%char :: t) g.
Proof.
  rewrite ways_seq, ways_star. cbn [length iter_greedy].
  change (ways ci_dotall (Alt (attr_re (py "src")) (attr_re (py "type"))) (">"%char :: t) g)
    with (@nil way).
  simpl. apply app_nil_r.
Qed.

(** The first way the script pattern matches at the head of [s]: the
    element located there, whatever its attributes. *)
Lemma script_way (s : text) :
  hd_error (ways ci_dotall script_pattern s None) =
  option_map (fun e : text * text => (snd e, None)) (element_here (py "script") s).
Proof.
  unfold script_pattern, element_here.
  rewrite ways_chars_then, (eat_ci ci_dotall _ _ eq_refl).
  change (py "<" ++ py "script") with (py "<script").
  destruct (Spec.starts_with_ci (py "<script") s); [|reflexivity].
  change (length (py "<script")) with 7%nat. change (S (length (py "script"))) with 7%nat.
  set (u := skipn 7 s).
  destruct (close_from (py "script") u) as [[inn rst]|] eqn:Ec.
  - rewrite ways_seq, ways_star.
    change (ways ci_dotall (NoneOf (py ">")))
      with (one (fun x => negb (in_set ci_dotall (py ">") x))).
    destruct (greedy_head (fun x => negb (in_set ci_dotall (py ">") x))
                (fun w : way => ways ci_dotall
                   (Star (Alt (attr_re (py "src")) (attr_re (py "type")))
                    ⊙ Star (NoneOf (py ">")) ⊙ Chars (py ">")
                    ⊙ LazyStar Dot ⊙ Chars (py "</script>")) (fst w) (snd w))
                (length u) u None (le_n _)) as (l & ->).
    apply hd_error_app_some. cbn [fst snd].
    rewrite (skip_while_ext _ (fun x => negb (Ascii.eqb x ">")))
      by (intros x; rewrite in_set_gt; reflexivity).
    rewrite skip_while_index. change [">"%char] with (py ">").
    destruct (close_from_lengths _ _ _ _ Ec) as (j & k & Hj & Hk & -> & -> & _).
    rewrite Hj, no_attribute_at_gt, to_gt_then.
    change (index_of (py ">") (">"%char :: skipn (S j) u)) with (Some 0%nat).
    cbn [skipn].
    change (py "</script>") with (py "</" ++ py "script" ++ py ">").
    rewrite any_then_close, !skipn_O, Hk. reflexivity.
  - destruct (ways ci_dotall _ u None) as [|w l] eqn:E; [reflexivity|exfalso].
    assert (Hw : In w (ways ci_dotall
                         (Star (NoneOf (py ">"))
                          ⊙ Star (Alt (attr_re (py "src")) (attr_re (py "type")))
                          ⊙ Star (NoneOf (py ">")) ⊙ Chars (py ">")
                          ⊙ LazyStar Dot ⊙ Chars (py "</script>")) u None))
      by (rewrite E; left; reflexivity).
    apply ways_seq_in in Hw as (a1 & w1 & H1 & Hw).
    apply ways_seq_in in Hw as (a2 & w2 & H2 & Hw).
    apply ways_seq_in in Hw as (a3 & w3 & H3 & Hw).
    change (py "</script>") with (py "</" ++ py "script" ++ py ">") in Hw.
    apply (tail_sound (py "script") (a1 ++ a2 ++ a3)) in Hw.
    rewrite <- !app_assoc, <- H3, <- H2, <- H1 in Hw. congruence.
Qed.

(** ** find and slices on indices in range *)

Lemma str_find_index (s w : text) :
  str_find s w = match index_of w s with Some i => Z.of_nat i | None => -1 end.
Proof.
  unfold str_find, str_find_from, clamp_index.
  destruct (Z.ltb_spec (Z.of_nat (length s)) 0) as [H|H]; [lia|].
  change (0 <? 0) with false. cbv iota.
  rewrite Z.min_l by lia. change (Z.to_nat 0) with 0%nat. rewrite skipn_O.
  destruct (index_of w s); [rewrite Z.add_0_l|]; reflexivity.
Qed.

Lemma str_slice_from_nat (s : text) (i : nat) :
  str_slice_from s (Z.of_nat i) = skipn i s.
Proof.
  unfold str_slice_from, clamp_index.
  destruct (Z.ltb_spec (Z.of_nat i) 0) as [H|H]; [lia|].
  destruct (Nat.le_gt_cases i (length s)) as [Hi|Hi].
  - rewrite Z.min_l by lia. rewrite Nat2Z.id. reflexivity.
  - rewrite Z.min_r by lia. rewrite Nat2Z.id.
    rewrite !skipn_all2 by lia. reflexivity.
Qed.

(** ** The tag-removal patterns *)

Section Tags.
Variable f : flags.
Hypothesis Hf : IGNORECASE f = true.

Lemma to_gt (s : text) (g : option text) :
  ways f (Star (NoneOf (py ">")) ⊙ Chars (py ">")) s g =
  match index_of (py ">") s with
  | Some j => [(skipn (S j) s, g)]
  | None => []
  end.
Proof.
  rewrite class_star_then.
  - rewrite (skip_while_ext _ (fun x => negb (Ascii.eqb x ">")))
      by (intros x; rewrite in_set_gt; reflexivity).
    rewrite skip_while_index. change [">"%char] with (py ">").
    destruct (index_of (py ">") s) as [j|]; [|reflexivity].
    simpl. rewrite chr_match_gt. reflexivity.
  - intros x t g' Hx. simpl. rewrite in_set_gt in Hx. rewrite chr_match_gt, Hx. reflexivity.
Qed.

Lemma starts_with_ci_app (a b s : text) :
  Spec.starts_with_ci (a ++ b) s =
  Spec.starts_with_ci a s && Spec.starts_with_ci b (skipn (length a) s).
Proof.
  unfold Spec.starts_with_ci. revert s.
  induction a as [|x a IH]; intros s; [reflexivity|].
  destruct s as [|y s]; [reflexivity|].
  cbn [app str_lower List.map starts_with length skipn].
  fold (str_lower (a ++ b)). fold (str_lower s). fold (str_lower a).
  rewrite IH, andb_assoc. reflexivity.
Qed.

Lemma ways_optchar_then (w : text) (r : regex) (s : text) (g : option text) :
  ways f (Opt (Chars w) ⊙ r) s g =
  match eat f w s with Some s' => ways f r s' g | None => [] end ++ ways f r s g.
Proof.
  rewrite ways_seq.
  change (ways f (Opt (Chars w)) s g)
    with (match eat f w s with Some s' => [(s', g)] | None => [] end ++ [(s, g)]).
  rewrite flat_map_app. cbn [flat_map fst snd]. rewrite app_nil_r.
  destruct (eat f w s); cbn [flat_map fst snd]; [rewrite app_nil_r|]; reflexivity.
Qed.

Variable name : text.
(** The name is not empty and does not begin with a slash. *)
Hypothesis Hname : Spec.starts_with_ci (py "/") name = false.
Hypothesis Hname' : name <> [].

Lemma name_tail (t : text) (g : option text) :
  ways f (Chars name ⊙ Star (NoneOf (py ">")) ⊙ Chars (py ">")) t g =
  if Spec.starts_with_ci name t
  then match index_of (py ">") (skipn (length name) t) with
       | Some j => [(skipn (S j) (skipn (length name) t), g)]
       | None => []
       end
  else [].
Proof.
  rewrite ways_chars_then, (eat_ci f _ _ Hf).
  destruct (Spec.starts_with_ci name t); [apply to_gt|reflexivity].
Qed.

Lemma name_not_after_slash (t : text) :
  Spec.starts_with_ci (py "/") t = true -> Spec.starts_with_ci name t = false.
Proof.
  unfold Spec.starts_with_ci in *. intros H.
  destruct name as [|n0 name']; [congruence|].
  destruct t as [|y t]; [reflexivity|].
  change (starts_with (str_lower (py "/")) (str_lower (n0 :: name')))
    with (Ascii.eqb "/" (chr_lower n0) && true) in Hname.
  change (starts_with (str_lower (py "/")) (str_lower (y :: t)))
    with (Ascii.eqb "/" (chr_lower y) && true) in H.
  rewrite andb_true_r in Hname, H. apply Ascii.eqb_eq in H.
  change (starts_with (str_lower (n0 :: name')) (str_lower (y :: t)))
    with (Ascii.eqb (chr_lower n0) (chr_lower y) && starts_with (str_lower name') (str_lower t)).
  rewrite <- H, ascii_eqb_sym, Hname. reflexivity.
Qed.

(** The first way the tag pattern matches at the head of [s]. *)
Lemma tag_way (s : text) :
  hd_error (ways f (tag_re name) s None) =
  option_map (fun t => (t, None)) (Spec.tag_here name s).
Proof.
  unfold tag_re, Spec.tag_here.
  rewrite ways_chars_then, (eat_ci f _ _ Hf).
  replace (py "</" ++ name) with (py "<" ++ py "/" ++ name) by reflexivity.
  rewrite !starts_with_ci_app.
  change (length (py "<")) with 1%nat. change (length (py "/")) with 1%nat.
  destruct (Spec.starts_with_ci (py "<") s); cbn [andb]; [|reflexivity].
  rewrite ways_optchar_then, (eat_ci f _ _ Hf).
  change (length (py "/")) with 1%nat.
  change (2 + length name)%nat with (S (S (length name))).
  change (1 + length name)%nat with (S (length name)).
  destruct (Spec.starts_with_ci (py "/") (skipn 1 s)) eqn:Eslash; cbv iota; cbn [andb];
    rewrite !name_tail, ?skipn_skipn.
  - rewrite (name_not_after_slash _ Eslash), app_nil_r.
    change (1 + 1)%nat with 2%nat.
    destruct (Spec.starts_with_ci name (skipn 2 s)); [|reflexivity].
    replace (length name + 2)%nat with (S (S (length name))) by lia.
    destruct (index_of (py ">") (skipn (S (S (length name))) s)); reflexivity.
  - cbn [app]. destruct (Spec.starts_with_ci name (skipn 1 s)); [|reflexivity].
    replace (length name + 1)%nat with (S (length name)) by lia.
    destruct (index_of (py ">") (skipn (S (length name)) s)); reflexivity.
Qed.
End Tags.

(** ** Tag removal and anchor rewriting as left-to-right readings *)

Lemma index_of_lt (w s : text) (j : nat) :
  w <> [] -> index_of w s = Some j -> (j < length s)%nat.
Proof.
  intros Hw H. apply index_of_Some in H as (H & _ & _).
  apply starts_with_length in H. rewrite length_skipn in H.
  destruct w; [congruence|]. simpl in H. lia.
Qed.

Lemma tag_here_shorter (name s s' : text) :
  Spec.tag_here name s = Some s' -> (length s' < length s)%nat.
Proof.
  unfold Spec.tag_here. intros H.
  destruct (Spec.starts_with_ci (py "</" ++ name) s);
    [|destruct (Spec.starts_with_ci (py "<" ++ name) s); [|discriminate]].
  - destruct (index_of (py ">") (skipn (2 + length name) s)) as [j|] eqn:E; [|discriminate].
    injection H as <-. apply index_of_lt in E; [|discriminate].
    rewrite !length_skipn in *. lia.
  - destruct (index_of (py ">") (skipn (1 + length name) s)) as [j|] eqn:E; [|discriminate].
    injection H as <-. apply index_of_lt in E; [|discriminate].
    rewrite !length_skipn in *. lia.
Qed.

Lemma consumed_nonempty (s t : text) (g : option text) :
  (length t < length s)%nat -> consumed s (t, g) <> [].
Proof.
  unfold consumed. simpl. intros H E. apply (f_equal (@length ascii)) in E.
  rewrite length_firstn in E. simpl in E. lia.
Qed.

Section RemoveTags.
Variable name : text.
Hypothesis Hname : Spec.starts_with_ci (py "/") name = false.
Hypothesis Hname' : name <> [].

Lemma tag_match (s : text) :
  match_here ci (tag_re name) s =
  option_map (fun t => {| matched := consumed s (t, None); group1 := None; after := t |})
             (Spec.tag_here name s).
Proof.
  rewrite match_here_head, (tag_way ci eq_refl name Hname Hname').
  destruct (Spec.tag_here name s); reflexivity.
Qed.

(** Substituting nothing for the tag pattern removes the tags, whatever the
    fuel beyond the length of the text. *)
Lemma sub_remove_tags_upto (n : nat) :
  forall s, (length s < n)%nat ->
    sub ci (tag_re name) no_repl s = Spec.remove_tags_upto n name s.
Proof.
  induction n as [|n IH]; intros s Hn; [lia|].
  cbn [Spec.remove_tags_upto]. pose proof (tag_match s) as Hm.
  destruct (Spec.tag_here name s) as [s'|] eqn:Et; cbn [option_map] in Hm.
  - pose proof (tag_here_shorter _ _ _ Et) as Hlt.
    rewrite (sub_hit _ _ _ _ _ Hm) by (apply consumed_nonempty, Hlt).
    cbn [after no_repl app]. apply IH. lia.
  - destruct s as [|x s].
    + apply sub_end, Hm.
    + rewrite (sub_gap _ _ _ _ _ Hm). f_equal. apply IH. simpl in Hn. lia.
Qed.

Lemma sub_remove_tags (s : text) :
  sub ci (tag_re name) no_repl s = Spec.remove_tags name s.
Proof. apply sub_remove_tags_upto. lia. Qed.
End RemoveTags.

Section Anchors.

Lemma in_set_dquote (f : flags) (x : ascii) : in_set f (py "`") x = Ascii.eqb x dquote.
Proof. unfold in_set. simpl. rewrite orb_false_r. apply chr_match_dquote. Qed.

Lemma anchor_here_shorter (s frag s' : text) :
  Spec.anchor_here s = Some (frag, s') -> (length s' < length s)%nat.
Proof.
  unfold Spec.anchor_here. destruct (starts_with (py "href=`#") s); [|discriminate].
  destruct (index_of [dquote] (skipn 7 s)) as [[|j]|] eqn:E; try discriminate.
  intros H. injection H as _ <-. apply index_of_lt in E; [|discriminate].
  rewrite !length_skipn in *. lia.
Qed.

(** The first way the anchor pattern matches at the head of [s]. *)
Lemma href_way (s : text) :
  hd_error (ways no_flags href_re s None) =
  option_map (fun a : text * text => (snd a, Some (fst a))) (Spec.anchor_here s).
Proof.
  unfold href_re, Spec.anchor_here.
  rewrite ways_chars_then, (eat_exact no_flags _ _ eq_refl).
  destruct (starts_with (py "href=`#") s); [|reflexivity].
  change (length (py "href=`#")) with 7%nat.
  set (s1 := skipn 7 s).
  rewrite ways_seq. cbn [ways]. rewrite flat_map_map.
  change (ways no_flags (NoneOf (py "`")))
    with (one (fun x => negb (in_set no_flags (py "`") x))).
  destruct s1 as [|x s2]; [reflexivity|].
  cbn [one]. rewrite in_set_dquote, index_of_cons.
  change (starts_with [dquote] (x :: s2)) with (Ascii.eqb dquote x && true).
  rewrite andb_true_r, (ascii_eqb_sym dquote x).
  destruct (Ascii.eqb x dquote) eqn:Ex; cbn [negb]; [reflexivity|].
  cbn [flat_map fst snd]. rewrite app_nil_r.
  rewrite (greedy_then (fun x => negb (in_set no_flags (py "`") x))
             (fun a : way =>
                match eat no_flags (py "`") (fst (fst a, Some (consumed (x :: s2) a))) with
                | Some s' => [(s', snd (fst a, Some (consumed (x :: s2) a)))]
                | None => []
                end)); [| |lia].
  - rewrite (skip_while_ext _ (fun x => negb (Ascii.eqb x dquote)))
      by (intros y; rewrite in_set_dquote; reflexivity).
    rewrite skip_while_index.
    destruct (index_of [dquote] s2) as [j|] eqn:Ej; [|reflexivity].
    cbn [option_map fst snd]. unfold consumed. cbn [fst length].
    change (eat no_flags (py "`") (dquote :: skipn (S j) s2))
      with (if chr_match no_flags dquote dquote then Some (skipn (S j) s2) else None).
    rewrite chr_match_dquote, Ascii.eqb_refl. cbn [hd_error].
    apply index_of_lt in Ej; [|discriminate].
    rewrite length_skipn.
    replace (S (length s2) - S (length s2 - S j))%nat with (S j) by lia. reflexivity.
  - intros y t g Hy. cbn [fst snd].
    change (eat no_flags (py "`") (y :: t))
      with (if chr_match no_flags dquote y then Some t else None).
    rewrite chr_match_dquote. rewrite in_set_dquote in Hy.
    destruct (Ascii.eqb y dquote); [discriminate|reflexivity].
Qed.

Lemma href_match (s : text) :
  match_here no_flags href_re s =
  option_map (fun a : text * text =>
                {| matched := consumed s (snd a, Some (fst a));
                   group1 := Some (fst a); after := snd a |})
             (Spec.anchor_here s).
Proof.
  rewrite match_here_head, href_way. destruct (Spec.anchor_here s); reflexivity.
Qed.

(** The substitution of the sidebar is the left-to-right rewriting,
    whatever the fuel beyond the length of the sidebar. *)
Lemma rewrite_sidebar_scan_upto (n : nat) :
  forall s, (length s < n)%nat ->
    rewrite_sidebar s = Spec.rewrite_anchors_upto n s.
Proof.
  unfold rewrite_sidebar.
  induction n as [|n IH]; intros s Hn; [lia|].
  cbn [Spec.rewrite_anchors_upto]. pose proof (href_match s) as Hm.
  destruct (Spec.anchor_here s) as [[frag s']|] eqn:Ea; cbn [option_map fst snd] in Hm.
  - pose proof (anchor_here_shorter _ _ _ Ea) as Hlt.
    rewrite (sub_hit _ _ _ _ _ Hm) by (apply consumed_nonempty, Hlt).
    unfold href_repl at 1, group. cbn [group1 after].
    rewrite <- !app_assoc. do 3 f_equal. apply IH. lia.
  - destruct s as [|x s].
    + apply sub_end, Hm.
    + rewrite (sub_gap _ _ _ _ _ Hm). f_equal. apply IH. simpl in Hn. lia.
Qed.

Lemma rewrite_sidebar_scan (s : text) :
  rewrite_sidebar s = Spec.rewrite_anchors s.
Proof. apply rewrite_sidebar_scan_upto. lia. Qed.
End Anchors.

(** ** The content extractor *)

Lemma search_element (name c : text) :
  search ci_dotall (element_re name) c =
  option_map (fun e => (Spec.before e,
                        {| matched := Spec.whole e;
                           group1 := Some (Spec.inner e);
                           after := Spec.rest e |}))
             (Spec.first_element name c).
Proof. apply (search_by_element name (element_re name) Some), element_way. Qed.

Lemma findall_elements (name c : text) :
  findall ci_dotall (element_re name) c = List.map Spec.inner (Spec.elements name c).
Proof. apply (findall_by_element name (element_re name) Some), element_way. Qed.

Lemma findall_scripts (c : text) :
  findall ci_dotall script_pattern c = List.map Spec.whole (Spec.elements (py "script") c).
Proof. apply (findall_by_element (py "script") script_pattern (fun _ => None)), script_way. Qed.

Lemma useful_has_keyword (style : text) : useful style = Spec.has_keyword style.
Proof. reflexivity. Qed.

Lemma str_join_nil_or (sep : text) (l : list text) :
  match l with [] => [] | _ => str_join sep l end = str_join sep l.
Proof. destruct l; reflexivity. Qed.

(** C4.  The title the extractor returns is the trimmed inner text of the
    first title element of the file - the first [<title], whatever the case,
    up to the next [>], and the text from there to the first [</title>] -
    and the placeholder "Documentation" when the file has no such element. *)
Theorem title_is_first_title_or_placeholder (c : text) :
  title (extract c) =
  match Spec.first_element (py "title") c with
  | Some e => str_strip (Spec.inner e)
  | None => py "Documentation"
  end.
Proof.
  cbn [extract title]. unfold extract_title, title_re. rewrite search_element.
  destruct (Spec.first_element (py "title") c); reflexivity.
Qed.

(** The three cases of the body. *)
Lemma extract_body_cases (c : text) :
  extract_body c =
  match Spec.first_element (py "body") c with
  | Some e => str_strip (Spec.inner e)
  | None =>
      match index_of (py "</head>") c with
      | Some i =>
          Spec.remove_tags (py "body")
            (Spec.remove_tags (py "html") (str_strip (skipn (i + 7) c)))
      | None => c
      end
  end.
Proof.
  unfold extract_body, body_re. rewrite search_element.
  destruct (Spec.first_element (py "body") c); [reflexivity|].
  cbn [option_map]. rewrite str_find_index.
  destruct (index_of (py "</head>") c) as [i|]; [|reflexivity].
  destruct (Z.eqb_spec (Z.of_nat i) (-1)) as [H|_]; [lia|].
  replace (Z.of_nat i + 7) with (Z.of_nat (i + 7)) by lia.
  rewrite str_slice_from_nat.
  rewrite (sub_remove_tags (py "html")) by (reflexivity || discriminate).
  rewrite (sub_remove_tags (py "body")) by (reflexivity || discriminate).
  reflexivity.
Qed.

(** C5.  The body the extractor returns is the trimmed inner text of the
    first body element of the file - from the first [<body], whatever the
    case, and the next [>], to the first [</body>] after it; when the file
    has no such element and contains [</head>], it is the text after the
    first [</head>], trimmed, then with its html tags and then its body tags
    removed, whatever their case. *)
Theorem body_is_first_body_or_after_head (c : text) :
  match Spec.first_element (py "body") c with
  | Some e => content (extract c) = str_strip (Spec.inner e)
  | None =>
      match index_of (py "</head>") c with
      | Some i =>
          content (extract c) =
          Spec.remove_tags (py "body")
            (Spec.remove_tags (py "html") (str_strip (skipn (i + 7) c)))
      | None => True
      end
  end.
Proof.
  cbn [extract content]. rewrite extract_body_cases.
  destruct (Spec.first_element (py "body") c); [reflexivity|].
  destruct (index_of (py "</head>") c); [reflexivity|exact I].
Qed.

(** C10.  A file with no body element and without [</head>] is returned
    whole as the body, neither trimmed nor stripped of tags. *)
Theorem body_is_whole_file_without_body_and_head (c : text) :
  Spec.first_element (py "body") c = None ->
  str_contains (py "</head>") c = false ->
  content (extract c) = c.
Proof.
  intros Hbody Hhead. cbn [extract content]. rewrite extract_body_cases, Hbody.
  unfold str_contains in Hhead.
  destruct (index_of (py "</head>") c); [discriminate|reflexivity].
Qed.

Lemma body_is_whole_file_witness :
  Spec.first_element (py "body") (py "plain text, no tags ") = None
  /\ str_contains (py "</head>") (py "plain text, no tags ") = false
  /\ content (extract (py "plain text, no tags ")) = py "plain text, no tags ".
Proof.
  split; [vm_compute; reflexivity|]. split; [vm_compute; reflexivity|].
  apply (body_is_whole_file_without_body_and_head (py "plain text, no tags "));
    vm_compute; reflexivity.
Defined.

(** C6.  The styles the extractor returns are the style blocks of the file
    - the inner texts of its style elements, from left to right - that
    contain one of the keywords badge, mermaid, highlight, code, pre, table,
    img, whatever the case; each is trimmed and they are joined, in that
    order, by newlines; when no block has a keyword the result is empty. *)
Theorem styles_keep_keyword_blocks (c : text) :
  styles (extract c) =
  match List.filter Spec.has_keyword (List.map Spec.inner (Spec.elements (py "style") c)) with
  | [] => []
  | kept => str_join [newline] (List.map str_strip kept)
  end.
Proof.
  cbn [extract styles]. unfold extract_styles, style_pattern.
  rewrite findall_elements.
  rewrite (filter_ext useful Spec.has_keyword) by (intros; apply useful_has_keyword).
  destruct (List.filter _ _); reflexivity.
Qed.



(** A module script is collected twice. *)
Example module_script_twice :
  scripts (extract (py "<script type=`module`>import x</script>"))
  = py "<script type=`module`>import x</script>
<script type=`module`>import x</script>".
Proof. vm_compute. reflexivity. Qed.

(** ** Running the driver *)

Lemma bind_ok {A B} (m : M A) (k : A -> M B) (w w' : world) (a : A) :
  m w = (Ok a, w') -> (m ≫= k) w = k a w'.
Proof. intros H. unfold mbind, M_bind. rewrite H. reflexivity. Qed.

Lemma bind_raise {A B} (m : M A) (k : A -> M B) (w w' : world) :
  m w = (Raise, w') -> (m ≫= k) w = (Raise, w').
Proof. intros H. unfold mbind, M_bind. rewrite H. reflexivity. Qed.

Lemma bind_ok_inv {A B} (m : M A) (k : A -> M B) (w w2 : world) (b : B) :
  (m ≫= k) w = (Ok b, w2) -> exists a w1, m w = (Ok a, w1) /\ k a w1 = (Ok b, w2).
Proof.
  unfold mbind, M_bind. destruct (m w) as [[a|] w1]; [|discriminate].
  intros H. exists a, w1. split; [reflexivity|exact H].
Qed.

Lemma read_file_readable (filename : string) (w : world) (d : gmap string file) :
  docs w = Some d ->
  read_file filename w =
  match readable d filename with
  | Some c => (Ok c, w)
  | None => (Raise, w)
  end.
Proof.
  intros H. unfold read_file, readable. rewrite H.
  destruct (d !! filename) as [[[c|] wr]|]; reflexivity.
Qed.

Lemma write_file_writable (filename : string) (c : text) (w : world) (d : gmap string file) :
  docs w = Some d ->
  write_file filename c w =
  match d !! filename with
  | Some {| writable := false |} => (Raise, w)
  | _ => (Ok tt, {| docs := Some (<[filename := written c]> d); out := out w |})
  end.
Proof. intros H. unfold write_file. rewrite H. reflexivity. Qed.

Lemma path_exists_readable (filename : string) (w : world) (d : gmap string file) (c : text) :
  docs w = Some d -> readable d filename = Some c -> path_exists filename w = (Ok true, w).
Proof.
  intros H Hr. unfold path_exists, readable in *. rewrite H.
  destruct (d !! filename); [reflexivity|discriminate].
Qed.

(** The extractor on a file that can be read, and on one that cannot. *)
Lemma extract_html_content_readable (filename : string) (w : world) (d : gmap string file)
    (c : text) :
  docs w = Some d -> readable d filename = Some c ->
  extract_html_content filename w = (Ok (Some (extract c)), w).
Proof.
  intros H Hr. unfold extract_html_content, try_except.
  rewrite (bind_ok _ _ w w c) by (rewrite (read_file_readable _ _ _ H), Hr; reflexivity).
  reflexivity.
Qed.

Lemma extract_html_content_unreadable (filename : string) (w : world) (d : gmap string file) :
  docs w = Some d -> readable d filename = None ->
  extract_html_content filename w =
  (Ok None, {| docs := docs w; out := out w ++ [ErrorReading filename] |}).
Proof.
  intros H Hr. unfold extract_html_content, try_except.
  rewrite (bind_raise _ _ w w) by (rewrite (read_file_readable _ _ _ H), Hr; reflexivity).
  reflexivity.
Qed.

(** The first loop of the driver keeps the standalone files. *)
Lemma find_standalone_filter (files : list string) :
  forall (w : world) (d : gmap string file),
    docs w = Some d ->
    exists log, find_standalone files w =
                (Ok (List.filter (is_standalone d) files),
                 {| docs := Some d; out := out w ++ log |}).
Proof.
  induction files as [|n rest IH]; intros w d H.
  - exists []. simpl. unfold mret, M_ret. rewrite app_nil_r, <- H. destruct w; reflexivity.
  - cbn [find_standalone List.filter]. unfold is_standalone at 1.
    destruct (String.eqb n "index.html") eqn:En; cbn [negb andb].
    + destruct (IH w d H) as (log & Hrest). exists log.
      rewrite (bind_ok _ _ w w false) by reflexivity.
      rewrite (bind_ok _ _ _ _ _ Hrest). reflexivity.
    + destruct (readable d n) as [c|] eqn:Er.
      * destruct (IH w d H) as (log & Hrest). exists log.
        rewrite (bind_ok _ _ w w (negb (str_contains sidebar_tag c))).
        2:{ unfold try_except.
            rewrite (bind_ok _ _ w w c) by (rewrite (read_file_readable _ _ _ H), Er; reflexivity).
            reflexivity. }
        rewrite (bind_ok _ _ _ _ _ Hrest).
        destruct (str_contains sidebar_tag c); reflexivity.
      * destruct (IH {| docs := docs w; out := out w ++ [CouldNotRead n] |} d H)
          as (log & Hrest).
        exists (CouldNotRead n :: log).
        rewrite (bind_ok _ _ w {| docs := docs w; out := out w ++ [CouldNotRead n] |} false).
        2:{ unfold try_except.
            rewrite (bind_raise _ _ w w) by (rewrite (read_file_readable _ _ _ H), Er; reflexivity).
            reflexivity. }
        rewrite (bind_ok _ _ _ _ _ Hrest). cbn [out]. rewrite <- app_assoc. reflexivity.
Qed.

Lemma list_files_run (names : list string) :
  forall w, list_files names w =
            (Ok tt, {| docs := docs w; out := out w ++ List.map Listed names |}).
Proof.
  induction names as [|n rest IH]; intros w.
  - simpl. unfold mret, M_ret. rewrite app_nil_r. destruct w; reflexivity.
  - cbn [list_files]. rewrite (bind_ok _ _ w _ tt) by reflexivity.
    rewrite IH. cbn [docs out List.map]. rewrite <- app_assoc. reflexivity.
Qed.

Lemma readable_insert_ne (d : gmap string file) (n m : string) (f : file) :
  n <> m -> readable (<[n := f]> d) m = readable d m.
Proof. intros H. unfold readable. rewrite lookup_insert_ne by exact H. reflexivity. Qed.

(** The last loop of the driver, when it does not raise: every file of the
    list that can be read is replaced by its integrated page, and no other
    file changes. *)
Lemma integrate_files_returns (t : template_data) (names : list string) :
  forall (w w' : world) (d : gmap string file),
    docs w = Some d ->
    List.NoDup names ->
    (forall n, In n names -> readable d n <> None) ->
    integrate_files t names w = (Ok tt, w') ->
    exists d', docs w' = Some d'
      /\ (forall n c, In n names -> readable d n = Some c ->
            d' !! n = Some (written (integrated_html (extract c) t)))
      /\ (forall m, ~ In m names -> d' !! m = d !! m).
Proof.
  induction names as [|n rest IH]; intros w w' d H Hnd Hread Hrun.
  - simpl in Hrun. injection Hrun as <-. exists d. split; [exact H|].
    split; [intros n c []|reflexivity].
  - apply NoDup_cons_iff in Hnd as [Hn Hnd].
    destruct (readable d n) as [c|] eqn:Er; [|exfalso; apply (Hread n); [left; reflexivity|exact Er]].
    cbn [integrate_files] in Hrun.
    rewrite (bind_ok _ _ _ _ _ (path_exists_readable _ _ _ _ H Er)) in Hrun.
    apply bind_ok_inv in Hrun as ([] & w3 & Hstep & Hrun).
    rewrite (bind_ok _ _ w {| docs := docs w; out := out w ++ [Integrating n] |} tt)
      in Hstep by reflexivity.
    rewrite (bind_ok _ _ _ _ _
               (extract_html_content_readable n
                  {| docs := docs w; out := out w ++ [Integrating n] |} d c H Er)) in Hstep.
    apply bind_ok_inv in Hstep as ([] & w2 & Hwrite & Hprint).
    unfold create_integrated_page in Hwrite.
    rewrite (write_file_writable n _ {| docs := docs w; out := out w ++ [Integrating n] |} d H)
      in Hwrite.
    assert (Hw2 : docs w2 = Some (<[n := written (integrated_html (extract c) t)]> d)).
    { destruct (d !! n) as [[dt [|]]|]; try discriminate; injection Hwrite as <-; reflexivity. }
    assert (Hw3 : docs w3 = docs w2) by (injection Hprint as <-; reflexivity).
    rewrite <- Hw3 in Hw2.
    destruct (IH w3 w' _ Hw2 Hnd) as (d' & Hd' & Hin & Hout); [|exact Hrun|].
    { intros m Hm. rewrite readable_insert_ne by (intros ->; contradiction).
      apply Hread. right. exact Hm. }
    exists d'. split; [exact Hd'|]. split.
    + intros m c' [<-|Hm] Hc'.
      * rewrite (Hout n Hn), lookup_insert_eq. congruence.
      * apply Hin; [exact Hm|].
        rewrite readable_insert_ne by (intros ->; contradiction). exact Hc'.
    + intros m Hm. rewrite Hout by (intros Hm'; apply Hm; right; exact Hm').
      apply lookup_insert_ne. intros ->. apply Hm. left. reflexivity.
Qed.

Lemma generate_pdoc_template_readable (w : world) (d : gmap string file) (index : text) :
  docs w = Some d -> readable d "index.html" = Some index ->
  generate_pdoc_template w = (Ok (template_of index), w).
Proof.
  intros H Hr. unfold generate_pdoc_template.
  rewrite (bind_ok _ _ _ _ _ (path_exists_readable _ _ _ _ H Hr)). cbn [negb].
  rewrite (bind_ok _ _ w w index) by (rewrite (read_file_readable _ _ _ H), Hr; reflexivity).
  reflexivity.
Qed.

(** A run on a directory whose index page gives a template: the standalone
    files are found, and the run goes on with them or ends there. *)
Lemma run_with_template (d : gmap string file) (index : text) (t : template_data) :
  readable d "index.html" = Some index -> template_of index = Some t ->
  exists log,
    run (Some d) =
    match standalone_files d with
    | [] => (Ok tt, {| docs := Some d; out := log ++ [NoStandalone] |})
    | names =>
        (print (FoundStandalone (length names)) ;;
         list_files names ;;
         integrate_files t names ;;
         print (Complete (length names))) {| docs := Some d; out := log |}
    end.
Proof.
  intros Hr Ht. unfold run, main.
  rewrite (bind_ok _ _ _ {| docs := Some d; out := [] |} true) by reflexivity. cbn [negb].
  rewrite (bind_ok _ _ _ _ _
             (generate_pdoc_template_readable {| docs := Some d; out := [] |} d index eq_refl Hr)),
    Ht.
  rewrite (bind_ok _ _ _ {| docs := Some d; out := [] |}
             (List.filter (ends_with ".html") (map_to_list d).*1)) by reflexivity.
  destruct (find_standalone_filter (List.filter (ends_with ".html") (map_to_list d).*1)
              {| docs := Some d; out := [] |} d eq_refl) as (log & Hfind).
  rewrite (bind_ok _ _ _ _ _ Hfind). cbn [out app]. exists log.
  fold (standalone_files d). destruct (standalone_files d); reflexivity.
Qed.

Lemma standalone_files_readable (d : gmap string file) (n : string) :
  In n (standalone_files d) -> readable d n <> None.
Proof.
  unfold standalone_files. intros H. apply filter_In in H as [_ H].
  unfold is_standalone in H. destruct (readable d n); [discriminate|].
  rewrite andb_false_r in H. discriminate.
Qed.

Lemma standalone_files_NoDup (d : gmap string file) : List.NoDup (standalone_files d).
Proof.
  unfold standalone_files. do 2 apply List.NoDup_filter.
  apply NoDup_ListNoDup, NoDup_fst_map_to_list.
Qed.

Lemma standalone_files_In (d : gmap string file) (n : string) :
  In n (standalone_files d) <->
  is_Some (d !! n) /\ ends_with ".html" n = true /\ is_standalone d n = true.
Proof.
  unfold standalone_files. rewrite !filter_In, <- list_elem_of_In, list_elem_of_fmap.
  split.
  - intros [[([k v] & -> & Hkv) He] Hs]. apply elem_of_map_to_list in Hkv.
    simpl. split; [eexists; exact Hkv|]. split; assumption.
  - intros ([v Hv] & He & Hs). split; [split|]; [|exact He|exact Hs].
    exists (n, v). split; [reflexivity|]. apply elem_of_map_to_list. exact Hv.
Qed.

(** A run that returns, on a directory with standalone files: they are
    replaced by their integrated pages, and nothing else changes. *)
Lemma run_integrates (d : gmap string file) (index : text) (t : template_data) :
  readable d "index.html" = Some index -> template_of index = Some t ->
  standalone_files d <> [] ->
  fst (run (Some d)) = Ok tt ->
  exists d', docs (snd (run (Some d))) = Some d'
    /\ (forall n c, In n (standalone_files d) -> readable d n = Some c ->
          d' !! n = Some (written (integrated_html (extract c) t)))
    /\ (forall m, ~ In m (standalone_files d) -> d' !! m = d !! m).
Proof.
  intros Hr Ht Hne Hrun.
  destruct (run_with_template d index t Hr Ht) as (log & Hmain).
  rewrite Hmain in *. clear Hmain.
  destruct (standalone_files d) as [|n0 rest] eqn:Es; [congruence|]. rewrite <- Es in *.
  clear Hne. set (names := standalone_files d) in *.
  destruct ((print (FoundStandalone (length names)) ;;
             list_files names ;; integrate_files t names ;;
             print (Complete (length names))) {| docs := Some d; out := log |})
    as [r w4] eqn:E.
  simpl in Hrun. subst r.
  apply bind_ok_inv in E as ([] & w1 & H1 & E). injection H1 as <-.
  apply bind_ok_inv in E as ([] & w2 & H2 & E). rewrite list_files_run in H2.
  injection H2 as <-.
  apply bind_ok_inv in E as ([] & w3 & H3 & E). injection E as <-.
  eapply (integrate_files_returns t names _ w3 d) in H3 as (d' & Hd' & Hin & Hout);
    [|reflexivity|apply standalone_files_NoDup|apply standalone_files_readable].
  exists d'. split; [exact Hd'|]. split; assumption.
Qed.

(** ** The template extractor *)

Lemma str_find_from_nat (s w : text) (i : nat) :
  (i <= length s)%nat ->
  str_find_from s w (Z.of_nat i) =
  match index_of w (skipn i s) with
  | Some k => Z.of_nat (i + k)
  | None => -1
  end.
Proof.
  intros Hi. unfold str_find_from, clamp_index.
  destruct (Z.ltb_spec (Z.of_nat (length s)) (Z.of_nat i)) as [H|_]; [lia|].
  destruct (Z.ltb_spec (Z.of_nat i) 0) as [H|_]; [lia|].
  rewrite Z.min_l by lia. rewrite Nat2Z.id.
  destruct (index_of w (skipn i s)); [|reflexivity]. lia.
Qed.

Lemma str_slice_to_nat (s : text) (a : nat) : str_slice_to s (Z.of_nat a) = firstn a s.
Proof.
  unfold str_slice_to, clamp_index.
  destruct (Z.ltb_spec (Z.of_nat a) 0) as [H|_]; [lia|].
  destruct (Nat.le_gt_cases a (length s)) as [Ha|Ha].
  - rewrite Z.min_l by lia. rewrite Nat2Z.id. reflexivity.
  - rewrite Z.min_r by lia. rewrite Nat2Z.id. rewrite !firstn_all2 by lia. reflexivity.
Qed.

Lemma str_slice_nat (s : text) (a b : nat) :
  (a <= length s)%nat ->
  str_slice s (Z.of_nat a) (Z.of_nat b) = firstn (b - a) (skipn a s).
Proof.
  intros Ha. unfold str_slice, clamp_index.
  destruct (Z.ltb_spec (Z.of_nat a) 0) as [H|_]; [lia|].
  destruct (Z.ltb_spec (Z.of_nat b) 0) as [H|_]; [lia|].
  rewrite (Z.min_l (Z.of_nat a)) by lia. rewrite Nat2Z.id.
  destruct (Nat.le_gt_cases b (length s)) as [Hb|Hb].
  - rewrite Z.min_l by lia. f_equal. lia.
  - rewrite Z.min_r by lia.
    replace (Z.to_nat (Z.of_nat (length s) - Z.of_nat a)) with (length s - a)%nat by lia.
    rewrite !firstn_all2 by (rewrite length_skipn; lia). reflexivity.
Qed.

(** The regions of an index page that has all its anchors. *)
Lemma template_of_regions (c : text) (ia si k fi hi : nat) :
  index_of article_tag c = Some ia ->
  index_of sidebar_tag c = Some si ->
  index_of (py "</nav>") (skipn si c) = Some k ->
  index_of footer_tag c = Some fi ->
  index_of (py "</html>") c = Some hi ->
  template_of c = Some {| before_content := firstn ia c;
                          sidebar := firstn (k + 6) (skipn si c);
                          footer := firstn (hi - fi) (skipn fi c) |}.
Proof.
  intros Ha Hs Hk Hf Hh. unfold template_of.
  rewrite !str_find_index, Ha, Hs, Hf, Hh.
  pose proof (index_of_Some _ _ _ Hs) as (_ & Hsi & _).
  pose proof (index_of_Some _ _ _ Hf) as (_ & Hfi & _).
  rewrite (str_find_from_nat _ _ _ Hsi), Hk.
  destruct (Z.eqb_spec (Z.of_nat ia) (-1)); [lia|].
  destruct (Z.eqb_spec (Z.of_nat si) (-1)); [lia|].
  destruct (Z.eqb_spec (Z.of_nat (si + k) + 6) (-1)); [lia|].
  destruct (Z.eqb_spec (Z.of_nat fi) (-1)); [lia|].
  destruct (Z.eqb_spec (Z.of_nat hi) (-1)); [lia|].
  cbn [orb]. rewrite str_slice_to_nat.
  replace (Z.of_nat (si + k) + 6) with (Z.of_nat (si + k + 6)) by lia.
  rewrite !str_slice_nat by assumption.
  do 3 f_equal. lia.
Qed.

(** No template when the article tag, the sidebar tag, the footer tag or
    [</html>] is missing. *)
Lemma template_of_absent (c : text) :
  index_of article_tag c = None \/ index_of sidebar_tag c = None
  \/ index_of footer_tag c = None \/ index_of (py "</html>") c = None ->
  template_of c = None.
Proof.
  unfold template_of. rewrite !str_find_index.
  intros [H|[H|[H|H]]]; rewrite H.
  - reflexivity.
  - destruct (_ =? -1); [reflexivity|]. reflexivity.
  - destruct (_ =? -1); [reflexivity|]. destruct (_ || _); reflexivity.
  - destruct (_ =? -1); [reflexivity|]. destruct (_ || _); [reflexivity|].
    rewrite orb_true_r. reflexivity.
Qed.

(** A missing [</nav>] does not stop the extractor: six is added to the
    -1 of [find] before the test, and the sidebar is the slice that ends at
    index 5. *)
Lemma template_of_open_sidebar (c : text) (ia si fi hi : nat) :
  index_of article_tag c = Some ia ->
  index_of sidebar_tag c = Some si ->
  index_of (py "</nav>") (skipn si c) = None ->
  index_of footer_tag c = Some fi ->
  index_of (py "</html>") c = Some hi ->
  template_of c = Some {| before_content := firstn ia c;
                          sidebar := firstn (5 - si) (skipn si c);
                          footer := firstn (hi - fi) (skipn fi c) |}.
Proof.
  intros Ha Hs Hk Hf Hh. unfold template_of.
  rewrite !str_find_index, Ha, Hs, Hf, Hh.
  pose proof (index_of_Some _ _ _ Hs) as (_ & Hsi & _).
  pose proof (index_of_Some _ _ _ Hf) as (_ & Hfi & _).
  rewrite (str_find_from_nat _ _ _ Hsi), Hk.
  destruct (Z.eqb_spec (Z.of_nat ia) (-1)); [lia|].
  destruct (Z.eqb_spec (Z.of_nat si) (-1)); [lia|].
  destruct (Z.eqb_spec (Z.of_nat fi) (-1)); [lia|].
  destruct (Z.eqb_spec (Z.of_nat hi) (-1)); [lia|].
  change (-1 + 6 =? -1) with false. cbn [orb]. rewrite str_slice_to_nat.
  change (-1 + 6) with (Z.of_nat 5).
  rewrite !str_slice_nat by assumption. reflexivity.
Qed.

Lemma generate_pdoc_template_missing (w : world) (d : gmap string file) :
  docs w = Some d -> d !! "index.html" = None ->
  generate_pdoc_template w = (Ok None, w).
Proof.
  intros H Hd. unfold generate_pdoc_template.
  rewrite (bind_ok _ _ w w false); [reflexivity|].
  unfold path_exists. rewrite H, Hd. reflexivity.
Qed.

(** C8, the code at the failing input.  The index page [index_without_nav_end]
    has no [</nav>], yet the extractor returns a template, its sidebar
    empty. *)
Theorem template_despite_open_sidebar :
  str_contains (py "</nav>") index_without_nav_end = false
  /\ template_of index_without_nav_end
     = Some {| before_content := py "<html><body>";
               sidebar := [];
               footer := py "<footer id=`footer`>pdoc</footer></body>" |}
  /\ generate_pdoc_template {| docs := Some open_sidebar_docs; out := [] |}
     = (Ok (template_of index_without_nav_end),
        {| docs := Some open_sidebar_docs; out := [] |}).
Proof.
  split; [vm_compute; reflexivity|]. split; [vm_compute; reflexivity|].
  apply generate_pdoc_template_readable with (d := open_sidebar_docs); reflexivity.
Qed.

(** ** Extraction failures in the driver *)

(** C9.  The extractor never raises: a file that cannot be read makes it
    print the error and return nothing.  The driver then prints the failure
    marker for that file, leaves the directory as it is, and goes on with the
    remaining files. *)
Theorem extraction_failure_is_skipped (t : template_data) (filename : string)
    (rest : list string) (w : world) (d : gmap string file) (f : file) :
  docs w = Some d -> d !! filename = Some f -> data f = None ->
  (forall name w0, fst (extract_html_content name w0) <> Raise)
  /\ extract_html_content filename w
     = (Ok None, {| docs := docs w; out := out w ++ [ErrorReading filename] |})
  /\ integrate_files t (filename :: rest) w
     = integrate_files t rest
         {| docs := docs w;
            out := out w ++ [Integrating filename; ErrorReading filename;
                             FailedToExtract filename] |}.
Proof.
  intros H Hf Hdata.
  assert (Hr : readable d filename = None) by (unfold readable; rewrite Hf; exact Hdata).
  split; [|split].
  - intros name w0. unfold extract_html_content, try_except, mbind, M_bind.
    destruct (read_file name w0) as [[c|] w1]; discriminate.
  - apply (extract_html_content_unreadable _ _ _ H Hr).
  - cbn [integrate_files].
    rewrite (bind_ok _ _ w w true) by (unfold path_exists; rewrite H, Hf; reflexivity).
    rewrite (bind_ok _ _ w
               {| docs := docs w;
                  out := out w ++ [Integrating filename; ErrorReading filename;
                                   FailedToExtract filename] |} tt); [reflexivity|].
    rewrite (bind_ok _ _ w {| docs := docs w; out := out w ++ [Integrating filename] |} tt)
      by reflexivity.
    rewrite (bind_ok _ _ _ _ _
               (extract_html_content_unreadable filename
                  {| docs := docs w; out := out w ++ [Integrating filename] |} d H Hr)).
    unfold print. cbn [docs out]. rewrite <- !app_assoc. reflexivity.
Qed.

Lemma extraction_failure_witness :
  let w := {| docs := Some sample_docs; out := [] |} in
  integrate_files {| before_content := []; sidebar := []; footer := [] |}
    ["assets.html"; "guide.html"] w
  = integrate_files {| before_content := []; sidebar := []; footer := [] |}
      ["guide.html"]
      {| docs := Some sample_docs;
         out := [Integrating "assets.html"; ErrorReading "assets.html";
                 FailedToExtract "assets.html"] |}.
Proof.
  intros w.
  apply (extraction_failure_is_skipped _ "assets.html" ["guide.html"] w sample_docs
           {| data := None; writable := false |}); reflexivity.
Defined.

(** ** Whole runs *)

Lemma can_write_insert_ne (d : gmap string file) (n m : string) (f : file) :
  n <> m -> can_write (<[n := f]> d) m = can_write d m.
Proof. intros H. unfold can_write. rewrite lookup_insert_ne by exact H. reflexivity. Qed.

(** The last loop of the driver returns when its files can be read and
    written. *)
Lemma integrate_files_total (t : template_data) (names : list string) :
  forall (w : world) (d : gmap string file),
    docs w = Some d ->
    List.NoDup names ->
    (forall n, In n names -> readable d n <> None) ->
    forallb (can_write d) names = true ->
    exists w', integrate_files t names w = (Ok tt, w').
Proof.
  induction names as [|n rest IH]; intros w d H Hnd Hread Hwr.
  - exists w. reflexivity.
  - apply NoDup_cons_iff in Hnd as [Hn Hnd].
    cbn [forallb] in Hwr. apply andb_true_iff in Hwr as [Hwn Hwr].
    destruct (readable d n) as [c|] eqn:Er; [|exfalso; apply (Hread n); [left; reflexivity|exact Er]].
    cbn [integrate_files].
    rewrite (bind_ok _ _ _ _ _ (path_exists_readable _ _ _ _ H Er)).
    set (w1 := {| docs := docs w; out := out w ++ [Integrating n] |}).
    set (w2 := {| docs := Some (<[n := written (integrated_html (extract c) t)]> d);
                  out := out w1 |}).
    set (w3 := {| docs := docs w2; out := out w2 ++ [Integrated n] |}).
    destruct (IH w3 _ eq_refl Hnd) as (w' & Hrest).
    { intros m Hm. rewrite readable_insert_ne by (intros ->; contradiction).
      apply Hread. right. exact Hm. }
    { apply forallb_forall. intros m Hm.
      rewrite can_write_insert_ne by (intros ->; contradiction).
      apply (proj1 (forallb_forall _ _) Hwr m Hm). }
    exists w'. rewrite (bind_ok _ _ w w3 tt); [exact Hrest|].
    rewrite (bind_ok _ _ w w1 tt) by reflexivity.
    rewrite (bind_ok _ _ _ _ _ (extract_html_content_readable n w1 d c H Er)).
    rewrite (bind_ok _ _ w1 w2 tt); [reflexivity|].
    unfold create_integrated_page. rewrite (write_file_writable n _ w1 d H).
    unfold can_write in Hwn. destruct (d !! n) as [[dt wr]|]; [|reflexivity].
    simpl in Hwn. subst wr. reflexivity.
Qed.

(** A run returns when the index page gives a template and the standalone
    files can be written. *)
Lemma run_returns (d : gmap string file) (index : text) (t : template_data) :
  readable d "index.html" = Some index -> template_of index = Some t ->
  forallb (can_write d) (standalone_files d) = true ->
  fst (run (Some d)) = Ok tt.
Proof.
  intros Hr Ht Hwr. destruct (run_with_template d index t Hr Ht) as (log & ->).
  destruct (standalone_files d) as [|n0 rest] eqn:Es; [reflexivity|]. rewrite <- Es in *.
  set (names := standalone_files d) in *.
  rewrite (bind_ok _ _ _ {| docs := Some d; out := log ++ [FoundStandalone (length names)] |} tt)
    by reflexivity.
  rewrite (bind_ok _ _ _ _ _ (list_files_run names _)).
  destruct (integrate_files_total t names
              {| docs := Some d;
                 out := (log ++ [FoundStandalone (length names)]) ++ List.map Listed names |}
              d eq_refl (standalone_files_NoDup d) (standalone_files_readable d) Hwr)
    as (w' & Hw').
  rewrite (bind_ok _ _ _ _ _ Hw'). reflexivity.
Qed.

Lemma str_contains_middle (w a b : text) : str_contains w (a ++ w ++ b) = true.
Proof.
  unfold str_contains.
  destruct (index_of_found w (a ++ w ++ b) (length a)) as (i & -> & _); [|reflexivity].
  rewrite drop_app_length. apply starts_with_app.
Qed.

Lemma str_contains_false (w s : text) :
  str_contains w s = false -> forall q, starts_with w (skipn q s) = false.
Proof.
  unfold str_contains. destruct (index_of w s) eqn:E; [discriminate|].
  intros _. apply index_of_None, E.
Qed.

(** A text without [href=`#] is left as it is by the rewriting. *)
Lemma rewrite_sidebar_without_anchor (s : text) :
  str_contains (py "href=`#") s = false -> rewrite_sidebar s = s.
Proof.
  intros H. rewrite rewrite_sidebar_scan. unfold Spec.rewrite_anchors.
  pose proof (str_contains_false _ _ H) as Hno. clear H.
  assert (Hgen : forall n s, (length s < n)%nat ->
            (forall q, starts_with (py "href=`#") (skipn q s) = false) ->
            Spec.rewrite_anchors_upto n s = s); [|apply Hgen; [lia|exact Hno]].
  clear s Hno. induction n as [|n IH]; intros s Hn Hno; [lia|].
  cbn [Spec.rewrite_anchors_upto]. unfold Spec.anchor_here.
  pose proof (Hno 0%nat) as H0. rewrite skipn_O in H0. rewrite H0.
  destruct s as [|c s]; [reflexivity|]. f_equal. apply IH; [simpl in Hn; lia|].
  intros q. apply (Hno (S q)).
Qed.

(** ** The composed page *)

Lemma integrated_html_section (h : html_data) (t : template_data) :
  str_contains (py "<section id=`section-intro`>
" ++ content h ++ py "
</section>") (integrated_html h t) = true.
Proof.
  assert (H3 : page_3 = firstn 409 page_3 ++ py "<section id=`section-intro`>
") by (vm_compute; reflexivity).
  assert (H4 : page_4 = py "
</section>" ++ skipn 11 page_4) by (vm_compute; reflexivity).
  unfold integrated_html. rewrite H3, H4.
  replace (page_0 ++ title h ++ page_1 ++ title h ++ page_2 ++ styles h
           ++ (firstn 409 page_3 ++ py "<section id=`section-intro`>
") ++ content h ++ (py "
</section>" ++ skipn 11 page_4) ++ rewrite_sidebar (sidebar t) ++ page_5
           ++ footer t ++ page_6 ++ scripts h ++ page_7)
    with ((page_0 ++ title h ++ page_1 ++ title h ++ page_2 ++ styles h ++ firstn 409 page_3)
          ++ (py "<section id=`section-intro`>
" ++ content h ++ py "
</section>")
          ++ (skipn 11 page_4 ++ rewrite_sidebar (sidebar t) ++ page_5
              ++ footer t ++ page_6 ++ scripts h ++ page_7))
    by (rewrite <- !app_assoc; reflexivity).
  apply str_contains_middle.
Qed.

Lemma integrated_html_sidebar (h : html_data) (t : template_data) :
  str_contains (rewrite_sidebar (sidebar t)) (integrated_html h t) = true.
Proof.
  unfold integrated_html.
  replace (page_0 ++ title h ++ page_1 ++ title h ++ page_2 ++ styles h ++ page_3
           ++ content h ++ page_4 ++ rewrite_sidebar (sidebar t) ++ page_5
           ++ footer t ++ page_6 ++ scripts h ++ page_7)
    with ((page_0 ++ title h ++ page_1 ++ title h ++ page_2 ++ styles h ++ page_3
           ++ content h ++ page_4)
          ++ rewrite_sidebar (sidebar t)
          ++ (page_5 ++ footer t ++ page_6 ++ scripts h ++ page_7))
    by (rewrite <- !app_assoc; reflexivity).
  apply str_contains_middle.
Qed.

Lemma standalone_guide (d : gmap string file) (guide : text) :
  readable d "guide.html" = Some guide ->
  str_contains sidebar_tag guide = false ->
  In "guide.html" (standalone_files d).
Proof.
  intros Hr Hs. apply standalone_files_In. split; [|split].
  - unfold readable in Hr. destruct (d !! "guide.html"); [eexists; reflexivity|discriminate].
  - reflexivity.
  - unfold is_standalone. rewrite Hr, Hs. reflexivity.
Qed.

(** C2, the claim refuted.  On [sample_docs] the run returns and rewrites
    guide.html, but the page does not contain the sidebar block
    [<nav id=`sidebar`><a href=`#methods`>Methods</a></nav>] as it stands in
    the index page: its anchor has been rewritten. *)
Lemma guide_lacks_the_literal_sidebar :
  fst (run (Some sample_docs)) = Ok tt
  /\ option_map sidebar (template_of index_page)
     = Some (py "<nav id=`sidebar`><a href=`#methods`>Methods</a></nav>")
  /\ option_map (str_contains (py "<nav id=`sidebar`><a href=`#methods`>Methods</a></nav>"))
       (page_after sample_docs "guide.html") = Some false
  /\ option_map (str_contains (py "<nav id=`sidebar`><a href=`index.html#methods`>Methods</a></nav>"))
       (page_after sample_docs "guide.html") = Some true.
Proof. repeat split; vm_compute; reflexivity. Qed.

(** A page with an earlier body element: [Hello] is not in the page. *)
Example second_body_is_dropped :
  option_map (str_contains (py "Hello"))
    (page_after (<["guide.html" := plain (py "<title>Guide</title><body></body><body>Hello</body>")]>
                   sample_docs) "guide.html") = Some false.
Proof. vm_compute. reflexivity. Qed.

(** ** Running the driver twice *)

Lemma str_contains_iff (w s : text) :
  str_contains w s = true <-> exists a b, s = a ++ w ++ b.
Proof.
  split.
  - unfold str_contains. destruct (index_of w s) as [i|] eqn:E; [|discriminate].
    intros _. apply index_of_Some in E as (E & _ & _).
    apply starts_with_split in E.
    exists (firstn i s), (skipn (length w) (skipn i s)).
    rewrite <- E. symmetry. apply firstn_skipn.
  - intros (a & b & ->). apply str_contains_middle.
Qed.

Lemma str_contains_trans (w u s : text) :
  str_contains w u = true -> str_contains u s = true -> str_contains w s = true.
Proof.
  rewrite !str_contains_iff. intros (a & b & ->) (a' & b' & ->).
  exists (a' ++ a), (b ++ b'). rewrite <- !app_assoc. reflexivity.
Qed.

(** A character other than [h] is copied by the rewriting. *)
Lemma rewrite_sidebar_copy (c : ascii) (s : text) :
  Ascii.eqb "h" c = false -> rewrite_sidebar (c :: s) = c :: rewrite_sidebar s.
Proof.
  intros Hc. unfold rewrite_sidebar. apply sub_gap.
  rewrite href_match. unfold Spec.anchor_here.
  change (starts_with (py "href=`#") (c :: s))
    with (Ascii.eqb "h" c && starts_with (py "ref=`#") s).
  rewrite Hc. reflexivity.
Qed.

(** The rewriting keeps the sidebar tag at the head of the sidebar. *)
Lemma rewrite_sidebar_keeps_tag (s : text) :
  starts_with sidebar_tag s = true -> starts_with sidebar_tag (rewrite_sidebar s) = true.
Proof.
  intros H. apply starts_with_split in H. rewrite H.
  set (r := skipn (length sidebar_tag) s). clearbody r. clear H s.
  assert (E : sidebar_tag ++ r = "<"%char :: "n"%char :: "a"%char :: "v"%char :: " "%char
              :: "i"%char :: "d"%char :: "="%char :: dquote :: "s"%char :: "i"%char
              :: "d"%char :: "e"%char :: "b"%char :: "a"%char :: "r"%char :: dquote
              :: ">"%char :: r) by reflexivity.
  rewrite E. rewrite !rewrite_sidebar_copy by reflexivity.
  rewrite <- (app_nil_r sidebar_tag) at 1.
  change (starts_with (sidebar_tag ++ []) (sidebar_tag ++ rewrite_sidebar r) = true).
  rewrite app_nil_r. apply starts_with_app.
Qed.

Lemma starts_with_contains (w s : text) : starts_with w s = true -> str_contains w s = true.
Proof.
  intros H. unfold str_contains.
  destruct (index_of_found w s 0%nat) as (i & -> & _); [exact H|reflexivity].
Qed.

(** A page composed with a sidebar that begins with the sidebar tag contains
    the tag. *)
Lemma integrated_html_has_tag (h : html_data) (t : template_data) :
  starts_with sidebar_tag (sidebar t) = true ->
  str_contains sidebar_tag (integrated_html h t) = true.
Proof.
  intros H. apply (str_contains_trans _ (rewrite_sidebar (sidebar t))).
  - apply starts_with_contains, rewrite_sidebar_keeps_tag, H.
  - apply integrated_html_sidebar.
Qed.

(** With all its anchors in the index page, the sidebar of the template
    begins with the sidebar tag. *)
Lemma template_sidebar_has_tag (c : text) (ia si k fi hi : nat) :
  index_of article_tag c = Some ia ->
  index_of sidebar_tag c = Some si ->
  index_of (py "</nav>") (skipn si c) = Some k ->
  index_of footer_tag c = Some fi ->
  index_of (py "</html>") c = Some hi ->
  exists t, template_of c = Some t /\ starts_with sidebar_tag (sidebar t) = true.
Proof.
  intros Ha Hs Hk Hf Hh. eexists. split; [apply (template_of_regions _ _ _ _ _ _ Ha Hs Hk Hf Hh)|].
  cbn [sidebar]. apply index_of_Some in Hs as (Hs & _ & _).
  pose proof (index_of_Some _ _ _ Hk) as (Hk1 & _ & Hk3).
  apply starts_with_split in Hs. set (u := skipn si c) in *.
  assert (Hlen : (18 <= k)%nat).
  { destruct (Nat.le_gt_cases 18 k) as [|Hlt]; [assumption|exfalso].
    rewrite Hs in Hk1. change (length sidebar_tag) with 18%nat in *.
    set (r := skipn 18 u) in *. clearbody r.
    do 18 (destruct k as [|k]; [vm_compute in Hk1; discriminate|]). lia. }
  rewrite Hs. change (length sidebar_tag) with 18%nat.
  replace (k + 6)%nat with (18 + (k - 12))%nat by lia.
  rewrite firstn_app. change (length sidebar_tag) with 18%nat.
  replace (18 + (k - 12) - 18)%nat with (k - 12)%nat by lia.
  rewrite firstn_all2 by (change (length sidebar_tag) with 18%nat; lia).
  apply starts_with_app.
Qed.

(** When the sidebar of the template begins with the sidebar tag, a run that
    returns leaves a directory on which a second run finds no standalone
    file and changes nothing. *)
Lemma second_run_changes_nothing (d : gmap string file) (index : text) (t : template_data) :
  readable d "index.html" = Some index -> template_of index = Some t ->
  starts_with sidebar_tag (sidebar t) = true ->
  fst (run (Some d)) = Ok tt ->
  exists d' log,
    docs_after d = Some d'
    /\ run (Some d') = (Ok tt, {| docs := Some d'; out := log ++ [NoStandalone] |}).
Proof.
  intros Hr Ht Htag Hok.
  destruct (standalone_files d) as [|n0 rest] eqn:Es.
  - destruct (run_with_template d index t Hr Ht) as (log & Hrun). rewrite Es in Hrun.
    exists d, log. unfold docs_after. rewrite Hrun. split; reflexivity.
  - destruct (run_integrates d index t Hr Ht) as (d' & Hd' & Hin & Hout);
      [rewrite Es; discriminate|exact Hok|].
    assert (Hindex : readable d' "index.html" = Some index).
    { unfold readable. rewrite Hout; [exact Hr|].
      intros H. apply standalone_files_In in H as (_ & _ & H). discriminate. }
    assert (Hnone : standalone_files d' = []).
    { destruct (standalone_files d') as [|m l] eqn:Es'; [reflexivity|exfalso].
      assert (Hm : In m (standalone_files d')) by (rewrite Es'; left; reflexivity).
      apply standalone_files_In in Hm as (Hsome & Hhtml & Hst).
      destruct (in_dec string_dec m (standalone_files d)) as [Hold|Hnew].
      - pose proof (standalone_files_readable d m Hold) as Hrd.
        destruct (readable d m) as [c|] eqn:Ec; [|congruence].
        unfold is_standalone, readable in Hst. rewrite (Hin m c Hold Ec) in Hst.
        cbn [written data] in Hst.
        rewrite (integrated_html_has_tag _ _ Htag), andb_false_r in Hst. discriminate.
      - apply Hnew. apply standalone_files_In. rewrite <- (Hout m Hnew).
        split; [exact Hsome|]. split; [exact Hhtml|].
        unfold is_standalone, readable in *. rewrite <- (Hout m Hnew). exact Hst. }
    destruct (run_with_template d' index t Hindex Ht) as (log & Hrun). rewrite Hnone in Hrun.
    exists d', log. split; [exact Hd'|exact Hrun].
Qed.

(** C1, the code at the failing input.  On [open_sidebar_docs], whose index
    page has no [</nav>], the first run returns and integrates guide.html
    with an empty sidebar; the page, of 6023 characters, lacks the sidebar
    tag, and the second run finds guide.html again and wraps it once more,
    into a page of 10889 characters. *)
Theorem second_run_rewrites_again :
  report (run (Some open_sidebar_docs)) "guide.html"
  = (Ok tt,
     [FoundStandalone 1; Listed "guide.html"; Integrating "guide.html";
      Integrated "guide.html"; Complete 1],
     Some false, Some 6023)
  /\ report (run (docs_after open_sidebar_docs)) "guide.html"
     = (Ok tt,
        [FoundStandalone 1; Listed "guide.html"; Integrating "guide.html";
         Integrated "guide.html"; Complete 1],
        Some false, Some 10889).
Proof. split; vm_compute; reflexivity. Qed.

(** ** The sidebar rewrite *)

Lemma anchor_here_single (frag rest : text) :
  frag <> [] -> str_contains [dquote] frag = false ->
  Spec.anchor_here (py "href=`#" ++ frag ++ dquote :: rest) = Some (frag, rest).
Proof.
  intros Hne Hq. unfold Spec.anchor_here.
  rewrite starts_with_app. change (length (py "href=`#")) with 7%nat.
  change (skipn 7 (py "href=`#" ++ frag ++ dquote :: rest)) with (frag ++ dquote :: rest).
  assert (Hi : index_of [dquote] (frag ++ dquote :: rest) = Some (length frag)).
  { apply index_of_first.
    - rewrite drop_app_length. reflexivity.
    - intros j Hj. pose proof (str_contains_false _ _ Hq j) as Hno.
      rewrite skipn_app. replace (j - length frag)%nat with 0%nat by lia. rewrite skipn_O.
      destruct (skipn j frag) as [|x u] eqn:E.
      + apply (f_equal (@length ascii)) in E. rewrite length_skipn in E. simpl in E. lia.
      + exact Hno. }
  rewrite Hi. destruct (length frag) as [|j] eqn:El; [destruct frag; [congruence|discriminate]|].
  rewrite <- El. rewrite firstn_app, Nat.sub_diag, firstn_all, firstn_O, app_nil_r.
  change (S (length frag)) with (1 + length frag)%nat.
  rewrite <- skipn_skipn, drop_app_length. reflexivity.
Qed.

Lemma rewrite_sidebar_anchor (frag rest : text) :
  frag <> [] -> str_contains [dquote] frag = false ->
  rewrite_sidebar (py "href=`#" ++ frag ++ dquote :: rest)
  = py "href=`index.html#" ++ frag ++ dquote :: rewrite_sidebar rest.
Proof.
  intros Hne Hq. unfold rewrite_sidebar.
  pose proof (href_match (py "href=`#" ++ frag ++ dquote :: rest)) as Hm.
  rewrite (anchor_here_single _ _ Hne Hq) in Hm. cbn [option_map fst snd] in Hm.
  rewrite (sub_hit _ _ _ _ _ Hm).
  - unfold href_repl at 1, group. cbn [group1 after]. rewrite <- !app_assoc. reflexivity.
  - apply consumed_nonempty. rewrite !length_app. simpl. lia.
Qed.

Lemma quote_free_not_in (frag : text) :
  str_contains [dquote] frag = false -> ~ In dquote frag.
Proof.
  intros H Hin. apply in_split in Hin as (a & b & ->).
  change (a ++ dquote :: b) with (a ++ [dquote] ++ b) in H.
  rewrite str_contains_middle in H. discriminate.
Qed.

Lemma quote_last (frag x y : text) :
  ~ In dquote frag -> frag ++ [dquote] = x ++ dquote :: y -> y = [].
Proof.
  revert x. induction frag as [|c frag IH]; intros x Hq E.
  - destruct x as [|a x]; simpl in E.
    + injection E as <-. reflexivity.
    + injection E as _ E. destruct x; discriminate.
  - destruct x as [|a x]; simpl in E.
    + injection E as -> _. exfalso. apply Hq. left. reflexivity.
    + injection E as _ E. apply (IH x); [|exact E].
      intros Hin. apply Hq. right. exact Hin.
Qed.

(** A rewritten anchor holds no [href=`#]. *)
Lemma rewritten_anchor_has_no_anchor (frag : text) :
  str_contains [dquote] frag = false ->
  str_contains (py "href=`#") (py "href=`index.html#" ++ frag ++ [dquote]) = false.
Proof.
  intros Hq. apply quote_free_not_in in Hq.
  destruct (str_contains _ _) eqn:E; [exfalso|reflexivity].
  unfold str_contains in E.
  destruct (index_of (py "href=`#") (py "href=`index.html#" ++ frag ++ [dquote]))
    as [q|] eqn:Ei; [clear E|discriminate].
  apply index_of_Some in Ei as (Hs & _ & _).
  do 17 (destruct q as [|q]; [discriminate Hs|]).
  change (skipn (S (S (S (S (S (S (S (S (S (S (S (S (S (S (S (S (S q)))))))))))))))))
                (py "href=`index.html#" ++ frag ++ [dquote]))
    with (skipn q (frag ++ [dquote])) in Hs.
  apply starts_with_split in Hs. change (length (py "href=`#")) with 7%nat in Hs.
  pose proof (firstn_skipn q (frag ++ [dquote])) as Hsplit. rewrite Hs in Hsplit.
  change (py "href=`#" ++ skipn 7 (skipn q (frag ++ [dquote])))
    with (py "href=" ++ dquote :: "#"%char :: skipn 7 (skipn q (frag ++ [dquote]))) in Hsplit.
  rewrite app_assoc in Hsplit. symmetry in Hsplit.
  apply (quote_last _ _ _ Hq) in Hsplit. discriminate.
Qed.

(** ** Rewriting a rewritten sidebar *)

Lemma index_of_char_not_in (c : ascii) (s : text) (n : nat) :
  index_of [c] s = Some n -> ~ In c (firstn n s).
Proof.
  revert n. induction s as [|x s IH]; intros n H.
  - discriminate.
  - rewrite index_of_cons in H.
    change (starts_with [c] (x :: s)) with (Ascii.eqb c x && true) in H.
    rewrite andb_true_r in H. destruct (Ascii.eqb_spec c x) as [->|Hne].
    + injection H as <-. simpl. tauto.
    + destruct (index_of [c] s) as [n'|] eqn:E; [|discriminate]. injection H as <-.
      simpl. intros [Hx|Hin]; [congruence|]. apply (IH n' eq_refl Hin).
Qed.

Lemma not_in_quote_free (g : text) : ~ In dquote g -> str_contains [dquote] g = false.
Proof.
  intros H. destruct (str_contains [dquote] g) eqn:E; [exfalso|reflexivity].
  apply str_contains_iff in E as (a & b & ->). apply H, in_app_iff. right. left. reflexivity.
Qed.

(** An anchor at the head of a text, spelled out. *)
Lemma anchor_here_split (s g r : text) :
  Spec.anchor_here s = Some (g, r) ->
  s = py "href=`#" ++ g ++ dquote :: r /\ g <> [] /\ ~ In dquote g.
Proof.
  unfold Spec.anchor_here. destruct (starts_with (py "href=`#") s) eqn:Es; cbv iota;
    [|intros H; discriminate H].
  apply starts_with_split in Es. change (length (py "href=`#")) with 7%nat in Es.
  set (s1 := skipn 7 s) in *.
  destruct (index_of [dquote] s1) as [[|j]|] eqn:Ei; try discriminate.
  intros H. injection H as <- <-.
  pose proof (index_of_char_not_in _ _ _ Ei) as Hq.
  assert (Hlt : (S j < length s1)%nat) by (apply (index_of_lt [dquote]); [discriminate|exact Ei]).
  apply index_of_Some in Ei as (Hs & _ & _). apply starts_with_split in Hs.
  change (length [dquote]) with 1%nat in Hs. rewrite skipn_skipn in Hs.
  change (1 + S j)%nat with (S (S j)) in Hs. change ([dquote] ++ skipn (S (S j)) s1)
    with (dquote :: skipn (S (S j)) s1) in Hs.
  split; [|split; [|exact Hq]].
  - rewrite Es at 1. rewrite <- Hs, firstn_skipn. reflexivity.
  - intros E. apply (f_equal (@length ascii)) in E. rewrite length_firstn in E.
    cbn [length] in E. lia.
Qed.

Lemma anchor_here_no_prefix (s : text) :
  starts_with (py "href=`#") s = false -> Spec.anchor_here s = None.
Proof. intros H. unfold Spec.anchor_here. rewrite H. reflexivity. Qed.

Lemma app_prefix {A} (a b c d : list A) :
  a ++ b = c ++ d -> (length a <= length c)%nat -> exists e, c = a ++ e.
Proof.
  intros E Hl. exists (firstn (length c - length a) b).
  apply (f_equal (firstn (length c))) in E.
  rewrite firstn_app, (firstn_all2 a) in E by lia.
  rewrite firstn_app, firstn_all, Nat.sub_diag, firstn_O, app_nil_r in E. symmetry. exact E.
Qed.

Lemma app_quote_inj (a b x y : text) :
  ~ In dquote a -> ~ In dquote b -> a ++ dquote :: x = b ++ dquote :: y -> a = b /\ x = y.
Proof.
  revert b. induction a as [|c a IH]; intros b Ha Hb E.
  - destruct b as [|c' b]; simpl in E.
    + injection E as ->. split; reflexivity.
    + injection E as <- _. exfalso. apply Hb. left. reflexivity.
  - destruct b as [|c' b]; simpl in E.
    + injection E as -> _. exfalso. apply Ha. left. reflexivity.
    + injection E as <- E. destruct (IH b) as [-> ->]; [| |exact E|split; reflexivity].
      * intros H. apply Ha. right. exact H.
      * intros H. apply Hb. right. exact H.
Qed.

Lemma href_eq_quote_free : ~ In dquote (py "href=").
Proof. vm_compute. intuition discriminate. Qed.

(** In [ref=`#], a fragment and a quote, [href=`] occurs at the end only. *)
Lemma anchor_tail_shape (g : text) (p : nat) :
  ~ In dquote g ->
  starts_with (py "href=`") (skipn p (py "ref=`#" ++ g ++ [dquote])) = true ->
  (p + 6 = length (py "ref=`#" ++ g ++ [dquote]))%nat.
Proof.
  intros Hq H. do 6 (destruct p as [|p]; [discriminate H|]).
  change (skipn (S (S (S (S (S (S p)))))) (py "ref=`#" ++ g ++ [dquote]))
    with (skipn p (g ++ [dquote])) in H.
  apply starts_with_split in H. change (length (py "href=`")) with 6%nat in H.
  pose proof (firstn_skipn p (g ++ [dquote])) as Hsplit. rewrite H in Hsplit.
  change (py "href=`" ++ skipn 6 (skipn p (g ++ [dquote])))
    with (py "href=" ++ dquote :: skipn 6 (skipn p (g ++ [dquote]))) in Hsplit.
  rewrite app_assoc in Hsplit. symmetry in Hsplit.
  pose proof (quote_last _ _ _ Hq Hsplit) as Hnil. rewrite Hnil in H.
  apply (f_equal (@length ascii)) in H. rewrite length_skipn in H.
  rewrite !length_app in *. simpl in *. lia.
Qed.

(** A prefix of the rewritten text in which [href=`] occurs at the end only
    is a prefix of the text. *)
Lemma rewritten_prefix (n : nat) :
  forall s w r,
    (length s < n)%nat ->
    Spec.rewrite_anchors_upto n s = w ++ r ->
    (forall p, starts_with (py "href=`") (skipn p w) = true -> (p + 6 = length w)%nat) ->
    exists r0, s = w ++ r0.
Proof.
  induction n as [|n IH]; intros s w r Hn E HW; [lia|].
  cbn [Spec.rewrite_anchors_upto] in E.
  destruct (Spec.anchor_here s) as [[g s']|] eqn:Ea.
  - apply anchor_here_split in Ea as (-> & _ & _).
    change (py "href=`index.html#" ++ g ++ py "`" ++ Spec.rewrite_anchors_upto n s')
      with (py "href=`" ++ py "index.html#" ++ g ++ py "`" ++ Spec.rewrite_anchors_upto n s') in E.
    destruct (Nat.le_gt_cases (length w) 6) as [Hle|Hgt].
    + symmetry in E. destruct (app_prefix _ _ _ _ E Hle) as (e & He).
      exists (e ++ "#"%char :: g ++ dquote :: s').
      change (py "href=`#" ++ g ++ dquote :: s')
        with (py "href=`" ++ "#"%char :: g ++ dquote :: s').
      rewrite He, <- app_assoc. reflexivity.
    + destruct (app_prefix _ _ _ _ E ltac:(simpl; lia)) as (e & He).
      assert (H6 : (0 + 6 = length w)%nat).
      { apply HW. rewrite skipn_O, He. apply starts_with_app. }
      lia.
  - destruct s as [|c s'].
    + destruct w; [exists []; reflexivity|discriminate].
    + destruct w as [|x w].
      * eexists. reflexivity.
      * simpl in E. injection E as <- E.
        destruct (IH s' w r ltac:(simpl in Hn; lia) E) as (r0 & ->).
        { intros p Hp. pose proof (HW (S p) Hp) as H. simpl in H. lia. }
        exists r0. reflexivity.
Qed.

(** Where the text has no anchor, the rewritten text has none. *)
Lemma no_anchor_before_rewritten (n : nat) (c : ascii) (s : text) :
  (length s < n)%nat ->
  Spec.anchor_here (c :: s) = None ->
  Spec.anchor_here (c :: Spec.rewrite_anchors_upto n s) = None.
Proof.
  intros Hn Hnone.
  destruct (Spec.anchor_here (c :: Spec.rewrite_anchors_upto n s)) as [[g r]|] eqn:Ea;
    [exfalso|reflexivity].
  apply anchor_here_split in Ea as (E & Hne & Hq).
  change (py "href=`#" ++ g ++ dquote :: r)
    with ("h"%char :: py "ref=`#" ++ g ++ dquote :: r) in E.
  injection E as -> E.
  assert (E' : Spec.rewrite_anchors_upto n s = (py "ref=`#" ++ g ++ [dquote]) ++ r)
    by (rewrite <- !app_assoc; exact E).
  destruct (rewritten_prefix n s _ _ Hn E') as (r0 & ->).
  { intros p. apply anchor_tail_shape, Hq. }
  replace ("h"%char :: (py "ref=`#" ++ g ++ [dquote]) ++ r0)
    with (py "href=`#" ++ g ++ dquote :: r0) in Hnone
    by (rewrite <- !app_assoc; reflexivity).
  rewrite (anchor_here_single g r0 Hne (not_in_quote_free _ Hq)) in Hnone. discriminate.
Qed.

Lemma str_ends_with_app (w a : text) : str_ends_with w (a ++ w) = true.
Proof. unfold str_ends_with. rewrite rev_app_distr. apply starts_with_app. Qed.

(** After a rewritten anchor whose fragment does not end with [href=], no
    anchor begins inside it. *)
Lemma no_anchor_in_rewritten_anchor (g u : text) (p : nat) :
  ~ In dquote g -> str_ends_with (py "href=") g = false ->
  (forall q, Spec.anchor_here (skipn q u) = None) ->
  Spec.anchor_here (skipn p (py "href=`index.html#" ++ g ++ dquote :: u)) = None.
Proof.
  intros Hq Hend Hu.
  do 17 (destruct p as [|p]; [apply anchor_here_no_prefix; reflexivity|]).
  change (skipn (S (S (S (S (S (S (S (S (S (S (S (S (S (S (S (S (S p)))))))))))))))))
                (py "href=`index.html#" ++ g ++ dquote :: u))
    with (skipn p (g ++ dquote :: u)).
  destruct (Nat.le_gt_cases p (length g)) as [Hle|Hgt].
  - rewrite skipn_app. replace (p - length g)%nat with 0%nat by lia. rewrite skipn_O.
    apply anchor_here_no_prefix.
    destruct (starts_with (py "href=`#") (skipn p g ++ dquote :: u)) eqn:Es;
      [exfalso|reflexivity].
    apply starts_with_split in Es.
    change (py "href=`#" ++ skipn (length (py "href=`#")) (skipn p g ++ dquote :: u))
      with (py "href=" ++ dquote :: "#"%char
              :: skipn (length (py "href=`#")) (skipn p g ++ dquote :: u)) in Es.
    apply app_quote_inj in Es as [Eg _]; [| |apply href_eq_quote_free].
    + rewrite <- (firstn_skipn p g), Eg, str_ends_with_app in Hend. discriminate.
    + intros Hin. apply Hq. rewrite <- (firstn_skipn p g). apply in_app_iff. right. exact Hin.
  - replace p with ((p - S (length g)) + S (length g))%nat by lia.
    rewrite <- skipn_skipn.
    replace (S (length g)) with (length (g ++ [dquote])) by (rewrite length_app; simpl; lia).
    change (g ++ dquote :: u) with (g ++ [dquote] ++ u). rewrite app_assoc, drop_app_length.
    apply Hu.
Qed.

(** When no replaced fragment ends with [href=], the rewritten sidebar has
    no anchor left. *)
Lemma rewritten_has_no_anchor (n : nat) :
  forall s,
    (length s < n)%nat ->
    forallb (fun g => negb (str_ends_with (py "href=") g)) (fragments_upto n s) = true ->
    forall p, Spec.anchor_here (skipn p (Spec.rewrite_anchors_upto n s)) = None.
Proof.
  induction n as [|n IH]; intros s Hn Hfr p; [lia|].
  cbn [Spec.rewrite_anchors_upto fragments_upto] in *.
  destruct (Spec.anchor_here s) as [[g s']|] eqn:Ea.
  - pose proof (anchor_here_shorter _ _ _ Ea) as Hlt.
    apply anchor_here_split in Ea as (_ & _ & Hq).
    cbn [forallb] in Hfr. apply andb_true_iff in Hfr as [Hg Hfr].
    apply negb_true_iff in Hg.
    apply (no_anchor_in_rewritten_anchor g _ p Hq Hg).
    apply IH; [lia|exact Hfr].
  - destruct s as [|c s']; [destruct p; reflexivity|].
    destruct p as [|p].
    + rewrite skipn_O. apply no_anchor_before_rewritten; [simpl in Hn; lia|exact Ea].
    + apply IH; [simpl in Hn; lia|exact Hfr].
Qed.

Lemma rewrite_anchors_fixed (n : nat) :
  forall u, (length u < n)%nat ->
    (forall p, Spec.anchor_here (skipn p u) = None) ->
    Spec.rewrite_anchors_upto n u = u.
Proof.
  induction n as [|n IH]; intros u Hn Hu; [lia|].
  cbn [Spec.rewrite_anchors_upto]. pose proof (Hu 0%nat) as H0. rewrite skipn_O in H0.
  rewrite H0. destruct u as [|c u]; [reflexivity|]. f_equal.
  apply IH; [simpl in Hn; lia|]. intros p. apply (Hu (S p)).
Qed.

(** The rewrite applied twice is the rewrite applied once, when no replaced
    fragment ends with [href=]. *)
Lemma rewrite_sidebar_twice (s : text) :
  plain_fragments s = true ->
  rewrite_sidebar (rewrite_sidebar s) = rewrite_sidebar s.
Proof.
  intros H. rewrite (rewrite_sidebar_scan (rewrite_sidebar s)).
  unfold Spec.rewrite_anchors. apply rewrite_anchors_fixed; [lia|].
  rewrite rewrite_sidebar_scan. unfold Spec.rewrite_anchors.
  apply rewritten_has_no_anchor; [lia|exact H].
Qed.

(** C3, the claim refuted.  In [href=`#href=`#x`] the anchor [href=`#x`]
    lies inside the match that starts first and is not replaced; it is when
    the rewrite is applied again, so the rewrite of a rewritten sidebar is
    not always the sidebar itself. *)
Lemma overlapping_anchor_is_left :
  rewrite_sidebar (py "href=`#href=`#x`") = py "href=`index.html#href=`#x`"
  /\ str_contains (py "href=`#x`") (rewrite_sidebar (py "href=`#href=`#x`")) = true
  /\ rewrite_sidebar (rewrite_sidebar (py "href=`#href=`#x`"))
     = py "href=`index.html#href=`index.html#x`".
Proof. repeat split; vm_compute; reflexivity. Qed.

(** C3, as amended.  The rewrite reads the sidebar from left to right: where
    [href=`#] is followed by a non-empty fragment up to the next double
    quote it writes [href=`index.html#], the fragment and the quote, and
    goes on after the quote; every other character is copied.  So an anchor
    [href=`#fragment`] met by the reading is replaced; a sidebar with no
    [href=`#] is unchanged, and so is an already rewritten anchor
    [href=`index.html#fragment`]; and the rewrite of a rewritten sidebar
    changes nothing when no replaced fragment ends with [href=]. *)
Theorem sidebar_rewrite_left_to_right (s : text) :
  rewrite_sidebar s = Spec.rewrite_anchors s
  /\ (forall fragment rest,
        fragment <> [] -> str_contains [dquote] fragment = false ->
        rewrite_sidebar (py "href=`#" ++ fragment ++ dquote :: rest)
        = py "href=`index.html#" ++ fragment ++ dquote :: rewrite_sidebar rest)
  /\ (str_contains (py "href=`#") s = false -> rewrite_sidebar s = s)
  /\ (forall fragment,
        str_contains [dquote] fragment = false ->
        rewrite_sidebar (py "href=`index.html#" ++ fragment ++ [dquote])
        = py "href=`index.html#" ++ fragment ++ [dquote])
  /\ (plain_fragments s = true ->
      rewrite_sidebar (rewrite_sidebar s) = rewrite_sidebar s).
Proof.
  split; [apply rewrite_sidebar_scan|].
  split; [intros fragment rest Hne Hq; apply rewrite_sidebar_anchor; assumption|].
  split; [apply rewrite_sidebar_without_anchor|].
  split; [|apply rewrite_sidebar_twice].
  intros fragment Hq.
  apply rewrite_sidebar_without_anchor, rewritten_anchor_has_no_anchor, Hq.
Qed.

Lemma sidebar_rewrite_witness :
  plain_fragments (py "<a href=`#methods`>Methods</a>") = true
  /\ rewrite_sidebar (py "<a href=`#methods`>Methods</a>")
     = py "<a href=`index.html#methods`>Methods</a>"
  /\ rewrite_sidebar (rewrite_sidebar (py "<a href=`#methods`>Methods</a>"))
     = rewrite_sidebar (py "<a href=`#methods`>Methods</a>")
  /\ str_contains (py "href=`#") (py "<a href=`index.html#methods`>Methods</a>") = false
  /\ rewrite_sidebar (py "<a href=`index.html#methods`>Methods</a>")
     = py "<a href=`index.html#methods`>Methods</a>".
Proof.
  destruct (sidebar_rewrite_left_to_right (py "<a href=`#methods`>Methods</a>"))
    as (_ & _ & _ & _ & Htwice).
  destruct (sidebar_rewrite_left_to_right (py "<a href=`index.html#methods`>Methods</a>"))
    as (_ & _ & Hsame & _ & _).
  split; [vm_compute; reflexivity|]. split; [vm_compute; reflexivity|].
  split; [apply Htwice; vm_compute; reflexivity|].
  split; [vm_compute; reflexivity|].
  apply Hsame. vm_compute. reflexivity.
Defined.

(** ** The wrapped page and its sidebar *)

(** C2, as amended.  Given an index page with its anchors - the article tag,
    the sidebar tag and a [</nav>] after it, the footer tag and [</html>] -
    and a file guide.html without the sidebar tag whose first body element
    has [Hello] as its trimmed inner text, a run on a directory whose
    standalone files can be written returns and leaves in guide.html a page
    that contains [Hello] inside a [<section id=`section-intro`>] element and
    contains the sidebar block of the index page as the composer rewrites
    it: read from left to right, each match of [href=`#fragment`] that does
    not overlap an earlier one replaced by [href=`index.html#fragment`], any
    other character copied.  When no replaced fragment ends with [href=], no
    [href=`#fragment`] is left in the rewritten block; and the page contains
    the block itself when the block has no [href=`#]. *)
Theorem guide_is_wrapped (d : gmap string file) (index guide : text) (e : Spec.element)
    (ia si k fi hi : nat) :
  readable d "index.html" = Some index ->
  index_of article_tag index = Some ia ->
  index_of sidebar_tag index = Some si ->
  index_of (py "</nav>") (skipn si index) = Some k ->
  index_of footer_tag index = Some fi ->
  index_of (py "</html>") index = Some hi ->
  readable d "guide.html" = Some guide ->
  str_contains sidebar_tag guide = false ->
  Spec.first_element (py "body") guide = Some e ->
  str_strip (Spec.inner e) = py "Hello" ->
  forallb (can_write d) (standalone_files d) = true ->
  let block := firstn (k + 6) (skipn si index) in
  fst (run (Some d)) = Ok tt
  /\ exists page,
       page_after d "guide.html" = Some page
       /\ str_contains (py "<section id=`section-intro`>
Hello
</section>") page = true
       /\ str_contains (Spec.rewrite_anchors block) page = true
       /\ (str_contains (py "href=`#") block = false -> str_contains block page = true)
       /\ (plain_fragments block = true ->
           forall p, Spec.anchor_here (skipn p (Spec.rewrite_anchors block)) = None).
Proof.
  intros Hr Ha Hs Hk Hf Hh Hg Hmark He Hello Hwr block.
  pose proof (template_of_regions _ _ _ _ _ _ Ha Hs Hk Hf Hh) as Ht.
  set (t := {| before_content := firstn ia index; sidebar := block;
               footer := firstn (hi - fi) (skipn fi index) |}) in Ht.
  pose proof (run_returns d index t Hr Ht Hwr) as Hok.
  split; [exact Hok|].
  pose proof (standalone_guide d guide Hg Hmark) as Hin.
  destruct (run_integrates d index t Hr Ht) as (d' & Hd' & Hpages & _);
    [intros E; rewrite E in Hin; destruct Hin|exact Hok|].
  exists (integrated_html (extract guide) t).
  split; [|split; [|split; [|split]]].
  - unfold page_after, page_in. rewrite Hd'. unfold readable.
    rewrite (Hpages _ _ Hin Hg). reflexivity.
  - pose proof (integrated_html_section (extract guide) t) as Hsec.
    cbn [extract content] in Hsec. rewrite extract_body_cases, He, Hello in Hsec. exact Hsec.
  - rewrite <- rewrite_sidebar_scan. apply (integrated_html_sidebar (extract guide) t).
  - intros Hno. rewrite <- (rewrite_sidebar_without_anchor block Hno) at 1.
    apply (integrated_html_sidebar (extract guide) t).
  - intros Hplain p. unfold Spec.rewrite_anchors.
    apply rewritten_has_no_anchor; [lia|exact Hplain].
Qed.

Lemma guide_is_wrapped_witness :
  exists page,
    page_after sample_docs "guide.html" = Some page
    /\ str_contains (py "<section id=`section-intro`>
Hello
</section>") page = true
    /\ str_contains (py "<nav id=`sidebar`><a href=`index.html#methods`>Methods</a></nav>") page
       = true
    /\ forall p, Spec.anchor_here
                   (skipn p (py "<nav id=`sidebar`><a href=`index.html#methods`>Methods</a></nav>"))
                 = None.
Proof.
  destruct (guide_is_wrapped sample_docs index_page guide_page
              {| Spec.before := py "<title>Guide</title>";
                 Spec.whole := py "<body>Hello</body>";
                 Spec.inner := py "Hello";
                 Spec.rest := [] |}
              12 47 48 101 141) as (_ & page & Hp & Hs & Hb & _ & Hleft);
    try (vm_compute; reflexivity).
  exists page. split; [exact Hp|]. split; [exact Hs|]. split; [exact Hb|].
  apply Hleft. vm_compute. reflexivity.
Defined.

(** With a sidebar whose anchors overlap, the page of the run holds an
    anchor that was not rewritten: the block [href=`#href=`#x`] is rewritten
    from the left, and [href=`#x`] stays. *)
Example overlapping_sidebar_in_the_page :
  let index := py "<article id=`content`>API</article><nav id=`sidebar`><a href=`#href=`#x`>M</a></nav><footer id=`footer`>pdoc</footer></html>" in
  let d := <["index.html" := plain index]> sample_docs in
  plain_fragments (py "<nav id=`sidebar`><a href=`#href=`#x`>M</a></nav>") = false
  /\ option_map (str_contains (py "<a href=`index.html#href=`#x`>M</a>"))
       (page_after d "guide.html") = Some true
  /\ option_map (str_contains (py "href=`index.html#x`"))
       (page_after d "guide.html") = Some false.
Proof. repeat split; vm_compute; reflexivity. Qed.

(** * Further properties of the code *)

(** ** The regions of the template *)

(** The text between two indices holds no occurrence of a word whose first
    occurrence starts at the second index or later. *)
Lemma no_occurrence_before_first (w c : text) (lo hi : nat) :
  index_of w c = Some hi -> w <> [] ->
  str_contains w (firstn (hi - lo) (skipn lo c)) = false.
Proof.
  intros Hi Hw. destruct (str_contains w (firstn (hi - lo) (skipn lo c))) eqn:E; [|reflexivity].
  exfalso. apply str_contains_iff in E as (a & b & E).
  apply index_of_Some in Hi as (_ & _ & Hmin).
  assert (Hlen : (length a + length w + length b <= hi - lo)%nat).
  { pose proof (firstn_le_length (hi - lo) (skipn lo c)) as Hle.
    rewrite E in Hle. rewrite !length_app in Hle. lia. }
  assert (Hpos : (0 < length w)%nat) by (destruct w; [congruence|simpl; lia]).
  assert (Hs : starts_with w (skipn (length a + lo) c) = true).
  { rewrite <- skipn_skipn, <- (firstn_skipn (hi - lo) (skipn lo c)), E.
    rewrite <- app_assoc, drop_app_length, <- app_assoc. apply starts_with_app. }
  rewrite Hmin in Hs by lia. discriminate.
Qed.

Lemma template_of_Some_inv (c : text) (t : template_data) :
  template_of c = Some t ->
  exists ia si fi hi,
    index_of article_tag c = Some ia /\ index_of sidebar_tag c = Some si
    /\ index_of footer_tag c = Some fi /\ index_of (py "</html>") c = Some hi.
Proof.
  intros H.
  destruct (index_of article_tag c) as [ia|] eqn:Ea.
  2:{ rewrite template_of_absent in H by (left; exact Ea). discriminate. }
  destruct (index_of sidebar_tag c) as [si|] eqn:Es.
  2:{ rewrite template_of_absent in H by (right; left; exact Es). discriminate. }
  destruct (index_of footer_tag c) as [fi|] eqn:Ef.
  2:{ rewrite template_of_absent in H by (right; right; left; exact Ef). discriminate. }
  destruct (index_of (py "</html>") c) as [hi|] eqn:Eh.
  2:{ rewrite template_of_absent in H by (right; right; right; exact Eh). discriminate. }
  exists ia, si, fi, hi. repeat split.
Qed.

Lemma str_contains_absent (w s : text) :
  str_contains w s = false -> index_of w s = None.
Proof. unfold str_contains. destruct (index_of w s); [discriminate|reflexivity]. Qed.

Lemma str_contains_none (w s : text) :
  index_of w s = None -> str_contains w s = false.
Proof. unfold str_contains. intros ->. reflexivity. Qed.

Lemma template_footer (c : text) (t : template_data) :
  template_of c = Some t ->
  exists fi hi, index_of (py "</html>") c = Some hi
                /\ footer t = firstn (hi - fi) (skipn fi c).
Proof.
  intros Ht.
  destruct (template_of_Some_inv c t Ht) as (ia & si & fi & hi & Ha & Hs & Hf & Hh).
  exists fi, hi. split; [exact Hh|].
  destruct (index_of (py "</nav>") (skipn si c)) as [k|] eqn:Ek.
  - rewrite (template_of_regions c ia si k fi hi Ha Hs Ek Hf Hh) in Ht.
    injection Ht as <-. reflexivity.
  - rewrite (template_of_open_sidebar c ia si fi hi Ha Hs Ek Hf Hh) in Ht.
    injection Ht as <-. reflexivity.
Qed.

(** X1.  The template extractor returns nothing, prints nothing and
    changes nothing when there is no index page, and when the index page
    lacks the article tag, the sidebar tag, the footer tag or [</html>]. *)
Theorem no_template_without_anchor (w : world) (d : gmap string file) :
  docs w = Some d ->
  d !! "index.html" = None
  \/ (exists c, readable d "index.html" = Some c
                /\ (str_contains article_tag c = false \/ str_contains sidebar_tag c = false
                    \/ str_contains footer_tag c = false
                    \/ str_contains (py "</html>") c = false)) ->
  generate_pdoc_template w = (Ok None, w).
Proof.
  intros H [Hno|(c & Hc & Habs)].
  - apply (generate_pdoc_template_missing w d H Hno).
  - rewrite (generate_pdoc_template_readable w d c H Hc).
    rewrite template_of_absent; [reflexivity|].
    destruct Habs as [Ha|[Ha|[Ha|Ha]]]; apply str_contains_absent in Ha; auto.
Qed.

Lemma no_template_without_anchor_witness :
  generate_pdoc_template {| docs := Some (<["index.html" := plain guide_page]> ∅); out := [] |}
  = (Ok None, {| docs := Some (<["index.html" := plain guide_page]> ∅); out := [] |}).
Proof.
  apply (no_template_without_anchor
           {| docs := Some (<["index.html" := plain guide_page]> ∅); out := [] |}
           (<["index.html" := plain guide_page]> ∅) eq_refl).
  right. exists guide_page. split; [reflexivity|]. left. reflexivity.
Defined.

(** X2.  The regions of a template whose sidebar is closed.  The text
    before the content is the index page up to its first article tag and
    holds no article tag; the sidebar begins with the sidebar tag and ends
    with the first [</nav>] after it, its only one; the footer holds no
    [</html>]. *)
Theorem template_regions (c : text) (t : template_data) (si k : nat) :
  template_of c = Some t ->
  index_of sidebar_tag c = Some si ->
  index_of (py "</nav>") (skipn si c) = Some k ->
  starts_with (before_content t ++ article_tag) c = true
  /\ str_contains article_tag (before_content t) = false
  /\ starts_with sidebar_tag (sidebar t) = true
  /\ index_of (py "</nav>") (sidebar t) = Some k
  /\ length (sidebar t) = (k + 6)%nat
  /\ str_contains (sidebar t) c = true
  /\ str_contains (py "</html>") (footer t) = false.
Proof.
  intros Ht Hs Hk.
  destruct (template_of_Some_inv c t Ht) as (ia & si' & fi & hi & Ha & Hs' & Hf & Hh).
  rewrite Hs in Hs'. injection Hs' as <-.
  pose proof (template_of_regions c ia si k fi hi Ha Hs Hk Hf Hh) as Hreg.
  rewrite Ht in Hreg. injection Hreg as ->. cbn [before_content sidebar footer].
  destruct (template_sidebar_has_tag c ia si k fi hi Ha Hs Hk Hf Hh) as (t' & Ht' & Htag).
  rewrite Ht in Ht'. injection Ht' as <-. cbn [sidebar] in Htag.
  pose proof (index_of_Some _ _ _ Hk) as (Hk1 & Hk2 & Hk3).
  pose proof (starts_with_split _ _ Hk1) as Hsplit.
  change (length (py "</nav>")) with 6%nat in Hsplit.
  assert (Hlen : (k + 6 <= length (skipn si c))%nat).
  { rewrite <- (firstn_skipn k (skipn si c)), Hsplit, !length_app.
    rewrite length_firstn. change (length (py "</nav>")) with 6%nat. lia. }
  split; [|split; [|split; [|split; [|split; [|split]]]]].
  - apply index_of_Some in Ha as (Ha & _ & _). apply starts_with_split in Ha.
    rewrite <- (firstn_skipn ia c) at 2. rewrite Ha, app_assoc. apply starts_with_app.
  - replace ia with (ia - 0)%nat by lia. rewrite <- (skipn_O c) at 1.
    apply no_occurrence_before_first; [exact Ha|discriminate].
  - exact Htag.
  - apply index_of_first.
    + rewrite skipn_firstn_comm. replace (k + 6 - k)%nat with 6%nat by lia.
      rewrite Hsplit. reflexivity.
    + intros j Hj. pose proof (Hk3 j Hj) as Hno.
      destruct (starts_with (py "</nav>") (skipn j (firstn (k + 6) (skipn si c)))) eqn:E;
        [|reflexivity].
      apply starts_with_split in E. rewrite <- Hno.
      rewrite <- (firstn_skipn (k + 6) (skipn si c)), skipn_app, E.
      rewrite <- !app_assoc. symmetry. apply starts_with_app.
  - rewrite length_firstn. lia.
  - apply str_contains_iff. exists (firstn si c), (skipn (k + 6) (skipn si c)).
    rewrite firstn_skipn, firstn_skipn. reflexivity.
  - apply no_occurrence_before_first; [exact Hh|discriminate].
Qed.

Lemma template_regions_witness :
  index_of (py "</nav>") (sidebar index_template) = Some 48%nat
  /\ str_contains (py "</html>") (footer index_template) = false.
Proof.
  destruct (template_regions index_page index_template 47 48 eq_refl eq_refl eq_refl)
    as (_ & _ & _ & H1 & _ & _ & H2).
  split; assumption.
Defined.

(** X3.  A sidebar tag that no [</nav>] follows is not noticed.  Six is
    added to the -1 of [find] before the result is compared with -1, so the
    extractor returns a template all the same; its sidebar is the slice of
    the index page from the sidebar tag to index 5, at most five characters
    that cannot hold the sidebar tag, and empty when the tag is at index 5
    or later. *)
Theorem open_sidebar_gives_a_template (c : text) (si : nat) :
  index_of sidebar_tag c = Some si ->
  index_of (py "</nav>") (skipn si c) = None ->
  str_contains article_tag c = true ->
  str_contains footer_tag c = true ->
  str_contains (py "</html>") c = true ->
  exists t,
    template_of c = Some t
    /\ sidebar t = firstn (5 - si) (skipn si c)
    /\ (length (sidebar t) <= 5)%nat
    /\ str_contains sidebar_tag (sidebar t) = false
    /\ ((5 <= si)%nat -> sidebar t = []).
Proof.
  intros Hs Hk Ha Hf Hh. unfold str_contains in Ha, Hf, Hh.
  destruct (index_of article_tag c) as [ia|] eqn:Ea; [|discriminate].
  destruct (index_of footer_tag c) as [fi|] eqn:Ef; [|discriminate].
  destruct (index_of (py "</html>") c) as [hi|] eqn:Eh; [|discriminate].
  eexists. split; [apply (template_of_open_sidebar c ia si fi hi Ea Hs Hk Ef Eh)|].
  cbn [sidebar]. split; [reflexivity|].
  assert (Hlen : (length (firstn (5 - si) (skipn si c)) <= 5)%nat)
    by (rewrite length_firstn; lia).
  split; [exact Hlen|]. split.
  - destruct (str_contains sidebar_tag (firstn (5 - si) (skipn si c))) eqn:E; [|reflexivity].
    apply str_contains_iff in E as (a & b & E). rewrite E, !length_app in Hlen.
    change (length sidebar_tag) with 18%nat in Hlen. lia.
  - intros H5. replace (5 - si)%nat with 0%nat by lia. reflexivity.
Qed.

Lemma open_sidebar_gives_a_template_witness :
  exists t, template_of index_without_nav_end = Some t /\ sidebar t = [].
Proof.
  destruct (open_sidebar_gives_a_template index_without_nav_end 47
              eq_refl eq_refl eq_refl eq_refl eq_refl) as (t & Ht & _ & _ & _ & He).
  exists t. split; [exact Ht|]. apply He. lia.
Defined.

(** X4.  The extractor does not check the order of its anchors: when the
    footer tag comes after the first [</html>] the footer is the empty
    slice, and the template is returned with it. *)
Theorem footer_after_html_is_empty (c : text) (t : template_data) (fi hi : nat) :
  template_of c = Some t ->
  index_of footer_tag c = Some fi ->
  index_of (py "</html>") c = Some hi ->
  (hi <= fi)%nat ->
  footer t = [].
Proof.
  intros Ht Hf Hh Hle. unfold template_of in Ht.
  destruct (str_find c article_tag =? -1); [discriminate|].
  destruct ((str_find c sidebar_tag =? -1)
            || (str_find_from c (py "</nav>") (str_find c sidebar_tag) + 6 =? -1));
    [discriminate|].
  destruct ((str_find c footer_tag =? -1) || (str_find c (py "</html>") =? -1));
    [discriminate|].
  injection Ht as <-. cbn [footer].
  rewrite !str_find_index, Hf, Hh.
  pose proof (index_of_Some _ _ _ Hf) as (_ & Hfi & _).
  rewrite str_slice_nat by exact Hfi.
  replace (hi - fi)%nat with 0%nat by lia. reflexivity.
Qed.

Lemma footer_after_html_is_empty_witness :
  exists t, template_of index_footer_last = Some t /\ footer t = [].
Proof.
  exists {| before_content := [];
            sidebar := py "<nav id=`sidebar`></nav>";
            footer := [] |}.
  split; [reflexivity|].
  apply (footer_after_html_is_empty index_footer_last _ 66 59); try reflexivity. lia.
Defined.

(** ** Trimming *)

Lemma lstrip_suffix (s : text) : exists a, s = a ++ lstrip s.
Proof.
  induction s as [|c s (a & IH)]; [exists []; reflexivity|].
  simpl. destruct (is_space c); [|exists []; reflexivity].
  exists (c :: a). simpl. f_equal. exact IH.
Qed.

Lemma lstrip_head (s : text) :
  match lstrip s with c :: _ => is_space c = false | [] => True end.
Proof.
  induction s as [|c s IH]; [exact I|]. simpl.
  destruct (is_space c) eqn:E; [exact IH|exact E].
Qed.

Lemma lstrip_fixed (s : text) :
  match s with c :: _ => is_space c = false | [] => True end -> lstrip s = s.
Proof. destruct s as [|c s]; [reflexivity|]. simpl. intros ->. reflexivity. Qed.

(** A trimmed text is a part of the text. *)
Lemma str_strip_part (s : text) : exists a b, s = a ++ str_strip s ++ b.
Proof.
  unfold str_strip. destruct (lstrip_suffix s) as (a & Ha).
  destruct (lstrip_suffix (rev (lstrip s))) as (b & Hb).
  exists a, (rev b). rewrite <- rev_app_distr, <- Hb, rev_involutive. exact Ha.
Qed.

(** Trimming twice is trimming once. *)
Lemma str_strip_twice (s : text) : str_strip (str_strip s) = str_strip s.
Proof.
  unfold str_strip. set (u := lstrip s).
  pose proof (lstrip_head s) as Hu. fold u in Hu.
  set (v := lstrip (rev u)).
  pose proof (lstrip_head (rev u)) as Hv. fold v in Hv.
  destruct (lstrip_suffix (rev u)) as (b & Hb). fold v in Hb.
  assert (Hrv : lstrip (rev v) = rev v).
  { apply lstrip_fixed.
    assert (Hpre : u = rev v ++ rev b).
    { rewrite <- rev_app_distr, <- Hb, rev_involutive. reflexivity. }
    destruct (rev v) as [|c r] eqn:E; [exact I|].
    rewrite Hpre in Hu. exact Hu. }
  rewrite Hrv, rev_involutive. rewrite (lstrip_fixed v Hv). reflexivity.
Qed.

(** ** Occurrences of a word in a text *)

Lemma index_of_app_prefix (w a b : text) (i : nat) :
  index_of w a = Some i -> index_of w (a ++ b) = Some i.
Proof.
  intros H. pose proof (index_of_Some _ _ _ H) as (H1 & H2 & H3).
  pose proof (starts_with_split _ _ H1) as Hs.
  assert (Hla : (i + length w <= length a)%nat).
  { apply (f_equal (@length _)) in Hs. rewrite length_app, !length_skipn in Hs. lia. }
  apply index_of_first.
  - rewrite skipn_app. replace (i - length a)%nat with 0%nat by lia.
    rewrite skipn_O, Hs, <- app_assoc. apply starts_with_app.
  - intros j Hj. pose proof (H3 j Hj) as Hno.
    destruct (starts_with w (skipn j (a ++ b))) eqn:E; [|reflexivity].
    rewrite <- Hno. apply starts_with_split in E.
    rewrite skipn_app in E. replace (j - length a)%nat with 0%nat in E by lia.
    rewrite skipn_O in E.
    apply (f_equal (firstn (length w))) in E.
    rewrite take_app_length in E.
    rewrite take_app_le in E by (rewrite length_skipn; lia).
    rewrite <- (firstn_skipn (length w) (skipn j a)), E. symmetry. apply starts_with_app.
Qed.

(** A word whose first character occurs nowhere else in it is found right
    after a text that does not hold it. *)
Lemma index_of_after (x : ascii) (w' a b : text) :
  ~ In x w' -> index_of (x :: w') a = None ->
  index_of (x :: w') (a ++ (x :: w') ++ b) = Some (length a).
Proof.
  intros Hx. induction a as [|y a IH]; intros Ha.
  - apply index_of_first; [exact (starts_with_app (x :: w') b)|intros j Hj; simpl in Hj; lia].
  - rewrite index_of_cons in Ha.
    destruct (starts_with (x :: w') (y :: a)) eqn:E; [discriminate|].
    destruct (index_of (x :: w') a) eqn:E'; [discriminate|].
    change ((y :: a) ++ (x :: w') ++ b) with (y :: a ++ (x :: w') ++ b).
    rewrite index_of_cons, (IH eq_refl).
    destruct (starts_with (x :: w') (y :: a ++ (x :: w') ++ b)) eqn:E2; [exfalso|reflexivity].
    apply starts_with_iff in E2 as (r & E2).
    change (y :: a ++ (x :: w') ++ b) with ((y :: a) ++ (x :: w') ++ b) in E2.
    apply app_eq_app in E2 as (l & [[H1 H2]|[H1 H2]]).
    + rewrite H1, starts_with_app in E. discriminate.
    + destruct l as [|z l].
      * rewrite app_nil_r in H1. rewrite <- H1 in E.
        pose proof (starts_with_app (x :: w') []) as Hw. rewrite app_nil_r in Hw. congruence.
      * simpl in H1, H2. injection H1 as _ ->. injection H2 as <- _.
        apply Hx, in_or_app. right. left. reflexivity.
Qed.

Lemma str_lower_firstn (k : nat) (s : text) :
  str_lower (firstn k s) = firstn k (str_lower s).
Proof. unfold str_lower. symmetry. apply firstn_map. Qed.

(** A part of a text that does not hold a word does not hold it. *)
Lemma index_of_part (w a s b : text) :
  index_of w (a ++ s ++ b) = None -> index_of w s = None.
Proof.
  intros H. destruct (index_of w s) eqn:E; [|reflexivity].
  assert (Hc : str_contains w s = true) by (unfold str_contains; rewrite E; reflexivity).
  assert (Hp : str_contains s (a ++ s ++ b) = true) by apply str_contains_middle.
  pose proof (str_contains_trans _ _ _ Hc Hp) as Ht. unfold str_contains in Ht.
  rewrite H in Ht. discriminate.
Qed.

Lemma index_of_ci_strip (w s : text) :
  Spec.index_of_ci w s = None -> Spec.index_of_ci w (str_strip s) = None.
Proof.
  unfold Spec.index_of_ci. destruct (str_strip_part s) as (a & b & Hs).
  rewrite Hs at 1. rewrite !str_lower_app. apply index_of_part.
Qed.

(** A word without the character [c] that occurs neither in [a] nor in
    [b] does not occur in the two joined by [c]. *)
Lemma index_of_app_sep (w a b : text) (c : ascii) :
  ~ In c w -> index_of w a = None -> index_of w b = None ->
  index_of w (a ++ c :: b) = None.
Proof.
  intros Hc Ha Hb.
  assert (Hin : forall x y s, s = x ++ w ++ y -> index_of w s <> None).
  { intros x y s ->. pose proof (str_contains_middle w x y) as H. unfold str_contains in H.
    destruct (index_of w (x ++ w ++ y)); [discriminate|discriminate]. }
  destruct (index_of w (a ++ c :: b)) as [i|] eqn:E; [exfalso|reflexivity].
  assert (Ht : str_contains w (a ++ c :: b) = true) by (unfold str_contains; rewrite E; reflexivity).
  apply str_contains_iff in Ht as (x & y & Ht).
  apply app_eq_app in Ht as (l & [[H1 H2]|[H1 H2]]).
  - apply app_eq_app in H2 as (l2 & [[H3 H4]|[H3 H4]]).
    + destruct l2 as [|z l2].
      * rewrite app_nil_r in H3. subst l. apply (Hin x [] a); [|exact Ha].
        rewrite app_nil_r. exact H1.
      * simpl in H4. injection H4 as <- _. apply Hc. rewrite H3. apply in_or_app.
        right. left. reflexivity.
    + apply (Hin x l2 a); [|exact Ha]. rewrite H1, H3. reflexivity.
  - destruct l as [|z l].
    + simpl in H2. destruct w as [|z w].
      * simpl in Ha. destruct a; discriminate.
      * simpl in H2. injection H2 as <- _. apply Hc. left. reflexivity.
    + simpl in H2. injection H2 as _ H2. apply (Hin l y b H2 Hb).
Qed.

Lemma index_of_ci_join (w : text) (parts : list text) :
  ~ In newline (str_lower w) -> w <> [] ->
  (forall p, In p parts -> Spec.index_of_ci w p = None) ->
  Spec.index_of_ci w (str_join [newline] parts) = None.
Proof.
  intros Hnl Hw. unfold Spec.index_of_ci.
  induction parts as [|p [|q rest] IH]; intros H.
  - destruct w; [congruence|reflexivity].
  - apply H. left. reflexivity.
  - change (str_join [newline] (p :: q :: rest))
      with (p ++ newline :: str_join [newline] (q :: rest)).
    rewrite str_lower_app.
    change (str_lower (newline :: str_join [newline] (q :: rest)))
      with (newline :: str_lower (str_join [newline] (q :: rest))).
    apply index_of_app_sep; [exact Hnl|apply H; left; reflexivity|].
    apply IH. intros p' Hp'. apply H. right. exact Hp'.
Qed.

(** An occurrence of a word in two texts put together that lies in
    neither: the first text ends with a part of the word and the second
    begins with the rest. *)
Lemma index_of_straddle (w a b : text) :
  index_of w a = None -> index_of w b = None -> index_of w (a ++ b) <> None ->
  exists l l2 a' b',
    l <> [] /\ l2 <> [] /\ w = l ++ l2 /\ a = a' ++ l /\ b = l2 ++ b'.
Proof.
  intros Ha Hb Hab.
  assert (Hin : forall x y s, s = x ++ w ++ y -> index_of w s <> None).
  { intros x y s ->. pose proof (str_contains_middle w x y) as H. unfold str_contains in H.
    destruct (index_of w (x ++ w ++ y)); discriminate. }
  assert (Ht : str_contains w (a ++ b) = true).
  { unfold str_contains. destruct (index_of w (a ++ b)); [reflexivity|congruence]. }
  apply str_contains_iff in Ht as (x & y & Ht).
  apply app_eq_app in Ht as (l & [[H1 H2]|[H1 H2]]).
  - apply app_eq_app in H2 as (l2 & [[H3 H4]|[H3 H4]]).
    + destruct l as [|z l].
      * exfalso. apply (Hin [] y b); [|exact Hb]. simpl in *. subst. reflexivity.
      * destruct l2 as [|z2 l2].
        -- exfalso. rewrite app_nil_r in H3. apply (Hin x [] a); [|exact Ha].
           rewrite app_nil_r, H3. exact H1.
        -- exists (z :: l), (z2 :: l2), x, y. repeat split; try discriminate; assumption.
    + exfalso. apply (Hin x l2 a); [|exact Ha]. rewrite H1, H3. reflexivity.
  - exfalso. apply (Hin l y b H2 Hb).
Qed.

Lemma starts_with_comparable (l F r b : text) :
  F ++ r = l ++ b -> starts_with l F = true \/ starts_with F l = true.
Proof.
  intros H. apply app_eq_app in H as (x & [[H1 _]|[H1 _]]); rewrite H1.
  - left. apply starts_with_app.
  - right. apply starts_with_app.
Qed.

(** No occurrence lies across the end of a text that ends with no part of
    the word ... *)
Lemma index_of_app_out (w F r : text) :
  index_of w F = None -> index_of w r = None -> no_part_at_end w F = true ->
  index_of w (F ++ r) = None.
Proof.
  intros HF Hr Hw. destruct (index_of w (F ++ r)) eqn:E; [exfalso|reflexivity].
  destruct (index_of_straddle w F r HF Hr) as (l & l2 & a' & b' & Hl & Hl2 & -> & -> & ->);
    [congruence|].
  unfold no_part_at_end in Hw.
  assert (Hk : In (length l) (seq 1 (length (l ++ l2) - 1))).
  { apply in_seq. rewrite length_app. destruct l; [congruence|]. destruct l2; [congruence|].
    simpl. lia. }
  pose proof (proj1 (forallb_forall _ _) Hw _ Hk) as H. cbv beta in H.
  rewrite take_app_length, length_app, Nat.add_sub, drop_app_length in H.
  rewrite <- (app_nil_r l) in H at 2. rewrite starts_with_app in H. discriminate.
Qed.

(** ... nor across the start of a text that begins with no part of it. *)
Lemma index_of_app_into (w a F r : text) :
  index_of w a = None -> index_of w (F ++ r) = None -> no_part_at_start w F = true ->
  index_of w (a ++ F ++ r) = None.
Proof.
  intros Ha HF Hw. destruct (index_of w (a ++ F ++ r)) eqn:E; [exfalso|reflexivity].
  destruct (index_of_straddle w a (F ++ r) Ha HF) as (l & l2 & a' & b' & Hl & Hl2 & -> & -> & Hb);
    [congruence|].
  unfold no_part_at_start in Hw.
  assert (Hk : In (length l) (seq 1 (length (l ++ l2) - 1))).
  { apply in_seq. rewrite length_app. destruct l; [congruence|]. destruct l2; [congruence|].
    simpl. lia. }
  pose proof (proj1 (forallb_forall _ _) Hw _ Hk) as H. cbv beta in H.
  rewrite drop_app_length in H.
  destruct (starts_with_comparable _ _ _ _ Hb) as [H1|H1]; rewrite H1 in H;
    [|rewrite andb_false_r in H]; discriminate.
Qed.

(** ** What the extractor takes out of a file *)

(** The inner text of an element does not hold its closing tag. *)
Lemma first_element_inner_closed (name c : text) (e : Spec.element) :
  Spec.first_element name c = Some e ->
  Spec.index_of_ci (py "</" ++ name ++ py ">") (Spec.inner e) = None.
Proof.
  unfold Spec.first_element. destruct (Spec.index_of_ci (py "<" ++ name) c) as [i|]; [|discriminate].
  destruct (index_of (py ">") _) as [j|]; [|discriminate].
  destruct (Spec.index_of_ci (py "</" ++ name ++ py ">") _) as [k|] eqn:Ek; [|discriminate].
  intros H. injection H as <-. cbn [Spec.inner].
  unfold Spec.index_of_ci in *. rewrite str_lower_firstn.
  apply str_contains_absent.
  pose proof (no_occurrence_before_first _ _ 0 k Ek) as Hno.
  rewrite Nat.sub_0_r, skipn_O in Hno. apply Hno. discriminate.
Qed.

(** The elements of a text: each is the first element of some text. *)
Lemma elements_upto_first (name : text) (n : nat) :
  forall c e, In e (Spec.elements_upto n name c) ->
              exists c', Spec.first_element name c' = Some e.
Proof.
  induction n as [|n IH]; intros c e H; [destruct H|].
  cbn [Spec.elements_upto] in H.
  destruct (Spec.first_element name c) as [e0|] eqn:E; [|destruct H].
  destruct H as [<-|H]; [exists c; exact E|apply (IH _ _ H)].
Qed.

(** The title the extractor returns is trimmed and holds no closing title
    tag. *)
Lemma extract_title_closed (c : text) :
  str_strip (extract_title c) = extract_title c
  /\ Spec.index_of_ci (py "</title>") (extract_title c) = None.
Proof.
  unfold extract_title, title_re. rewrite search_element.
  destruct (Spec.first_element (py "title") c) as [e|] eqn:E; cbn [option_map group group1].
  - split; [apply str_strip_twice|].
    apply index_of_ci_strip, (first_element_inner_closed (py "title") c e E).
  - split; vm_compute; reflexivity.
Qed.

(** X5.  What the extractor takes out of an element holds no closing tag
    of that element: the title is trimmed and holds no [</title>], and a
    body taken from a body element is trimmed and holds no [</body>],
    whatever the case of the tags. *)
Theorem title_and_body_hold_no_closing_tag (c : text) :
  str_strip (title (extract c)) = title (extract c)
  /\ Spec.index_of_ci (py "</title>") (title (extract c)) = None
  /\ (Spec.first_element (py "body") c <> None ->
      str_strip (content (extract c)) = content (extract c)
      /\ Spec.index_of_ci (py "</body>") (content (extract c)) = None).
Proof.
  cbn [extract title content]. destruct (extract_title_closed c) as [Hs Hc].
  split; [exact Hs|]. split; [exact Hc|].
  rewrite extract_body_cases.
  destruct (Spec.first_element (py "body") c) as [e|] eqn:E; [|congruence].
  intros _. split; [apply str_strip_twice|].
  apply index_of_ci_strip, (first_element_inner_closed (py "body") c e E).
Qed.

(** X6.  The styles the extractor returns hold no [</style>], whatever
    the case of its letters. *)
Theorem styles_hold_no_closing_tag (c : text) :
  Spec.index_of_ci (py "</style>") (styles (extract c)) = None.
Proof.
  cbn [extract styles]. unfold extract_styles, style_pattern. rewrite findall_elements.
  rewrite str_join_nil_or.
  apply index_of_ci_join; [vm_compute; intuition discriminate|discriminate|].
  intros p Hp. apply in_map_iff in Hp as (s & <- & Hs).
  apply filter_In in Hs as [Hs _]. apply in_map_iff in Hs as (e & <- & He).
  apply elements_upto_first in He as (c' & He).
  apply index_of_ci_strip, (first_element_inner_closed (py "style") c' e He).
Qed.

(** Only the tag as the pattern writes it is excluded: a closing tag with
    a space before its [>] does not end the match, and stays in the styles. *)
Example styles_with_a_spaced_closing_tag :
  styles (extract (py "<style>.code{} </style ><script>x</script></style>"))
  = py ".code{} </style ><script>x</script>".
Proof. vm_compute. reflexivity. Qed.

Lemma chr_lower_lt (y : ascii) : chr_lower y = "<"%char -> y = "<"%char.
Proof.
  destruct y as [[] [] [] [] [] [] [] []]; vm_compute; intros H;
    first [reflexivity|discriminate H].
Qed.

Lemma not_in_str_lower (s : text) : ~ In "<"%char s -> ~ In "<"%char (str_lower s).
Proof.
  intros H Hin. apply in_map_iff in Hin as (y & Hy & Hin).
  apply chr_lower_lt in Hy. subst y. contradiction.
Qed.

Lemma index_of_head_absent (x : ascii) (w' s : text) :
  ~ In x s -> index_of (x :: w') s = None.
Proof.
  induction s as [|y s IH]; intros H; [reflexivity|].
  rewrite index_of_cons. cbn [starts_with].
  destruct (Ascii.eqb_spec x y) as [->|_]; [exfalso; apply H; left; reflexivity|].
  cbn [andb]. rewrite IH; [reflexivity|]. intros Hin. apply H. right. exact Hin.
Qed.

Lemma first_element_without_lt (name c : text) :
  ~ In "<"%char c -> Spec.first_element name c = None.
Proof.
  intros H. unfold Spec.first_element, Spec.index_of_ci.
  change (str_lower (py "<" ++ name)) with ("<"%char :: str_lower name).
  rewrite index_of_head_absent; [reflexivity|]. apply not_in_str_lower, H.
Qed.

Lemma findall_without_lt (w : text) (r : regex) (c : text) :
  ~ In "<"%char c ->
  findall ci_dotall (Chars ("<"%char :: w) ⊙ r) c = [].
Proof.
  assert (Hno : forall s, match s with x :: _ => x <> "<"%char | [] => True end ->
                  match_here ci_dotall (Chars ("<"%char :: w) ⊙ r) s = None).
  { intros s Hs. unfold match_here. rewrite ways_chars_then.
    rewrite eat_ci by reflexivity. unfold Spec.starts_with_ci.
    destruct s as [|x s]; [reflexivity|].
    change (starts_with (str_lower ("<"%char :: w)) (str_lower (x :: s)))
      with (Ascii.eqb "<" (chr_lower x) && starts_with (str_lower w) (str_lower s)).
    destruct (Ascii.eqb_spec "<"%char (chr_lower x)) as [E|_]; [|reflexivity].
    symmetry in E. apply chr_lower_lt in E. contradiction. }
  induction c as [|x c IH]; intros H.
  - apply findall_end, Hno. exact I.
  - rewrite findall_gap.
    + apply IH. intros Hin. apply H. right. exact Hin.
    + apply Hno. intros ->. apply H. left. reflexivity.
Qed.

(** X7.  A text without markup.  From a file that holds no [<] the
    extractor returns the placeholder title, the whole text as the body,
    neither trimmed nor changed, and neither styles nor scripts. *)
Theorem text_without_markup (c : text) :
  ~ In "<"%char c ->
  extract c = {| title := py "Documentation"; content := c; styles := []; scripts := [] |}.
Proof.
  intros H. unfold extract. f_equal.
  - unfold extract_title, title_re. rewrite search_element, first_element_without_lt by exact H.
    reflexivity.
  - rewrite extract_body_cases, first_element_without_lt by exact H.
    change (py "</head>") with ("<"%char :: py "/head>").
    rewrite index_of_head_absent by exact H. reflexivity.
  - unfold extract_styles, style_pattern, element_re.
    change (py "<" ++ py "style") with ("<"%char :: py "style").
    rewrite findall_without_lt by exact H. reflexivity.
  - unfold extract_scripts, script_pattern, module_pattern.
    change (py "<script") with ("<"%char :: py "script").
    rewrite !findall_without_lt by exact H. reflexivity.
Qed.

Lemma text_without_markup_witness :
  extract (py "plain text, no tags ")
  = {| title := py "Documentation"; content := py "plain text, no tags ";
       styles := []; scripts := [] |}.
Proof.
  apply (text_without_markup (py "plain text, no tags ")).
  vm_compute. intuition discriminate.
Defined.

(** ** The module-script pattern *)

Lemma in_set_quotes (x : ascii) : in_set ci_dotall quotes x = is_quote x.
Proof. destruct x as [[] [] [] [] [] [] [] []]; reflexivity. Qed.

Lemma ways_oneof_then (f : flags) (cs : text) (r : regex) (s : text) (g : option text) :
  ways f (OneOf cs ⊙ r) s g =
  match s with
  | x :: s' => if in_set f cs x then ways f r s' g else []
  | [] => []
  end.
Proof.
  rewrite ways_seq. cbn [ways]. destruct s as [|x s]; [reflexivity|]. cbn [one].
  destruct (in_set f cs x); [|reflexivity]. cbn [flat_map fst snd]. apply app_nil_r.
Qed.

(** The attribute part of the pattern matches in one way at most. *)
Lemma attribute_ways (r : regex) (v : text) (g : option text) :
  ways ci_dotall (Chars (py "type=") ⊙ OneOf quotes ⊙ Chars (py "module") ⊙ OneOf quotes ⊙ r) v g
  = match module_attribute v with
    | Some v' => ways ci_dotall r v' g
    | None => []
    end.
Proof.
  unfold module_attribute.
  rewrite ways_chars_then, (eat_ci ci_dotall _ _ eq_refl).
  destruct (Spec.starts_with_ci (py "type=") v); [|reflexivity].
  change (length (py "type=")) with 5%nat. rewrite ways_oneof_then.
  destruct (skipn 5 v) as [|q s1]; [reflexivity|].
  rewrite in_set_quotes. destruct (is_quote q); [|reflexivity]. cbn [andb].
  rewrite ways_chars_then, (eat_ci ci_dotall _ _ eq_refl).
  destruct (Spec.starts_with_ci (py "module") s1); [|reflexivity].
  change (length (py "module")) with 6%nat. rewrite ways_oneof_then.
  destruct (skipn 6 s1) as [|q' s2]; [reflexivity|].
  rewrite in_set_quotes. destruct (is_quote q'); reflexivity.
Qed.

(** Skipping up to the first [>] goes over a word without [>] ... *)
Lemma word_keeps_gt (w s : text) :
  forallb (fun c => negb (Ascii.eqb (chr_lower c) ">")) w = true ->
  Spec.starts_with_ci w s = true ->
  skip_while (fun x => negb (Ascii.eqb x ">")) s
  = skip_while (fun x => negb (Ascii.eqb x ">")) (skipn (length w) s).
Proof.
  unfold Spec.starts_with_ci. revert s.
  induction w as [|c w IH]; intros s Hw Hs; [reflexivity|].
  destruct s as [|x s]; [discriminate|].
  cbn [forallb] in Hw. apply andb_true_iff in Hw as [Hc Hw].
  cbn [str_lower List.map starts_with] in Hs. apply andb_true_iff in Hs as [Hx Hs].
  apply Ascii.eqb_eq in Hx.
  cbn [skip_while length skipn].
  destruct (Ascii.eqb_spec x ">") as [->|_].
  - rewrite Hx in Hc. discriminate.
  - cbn [negb]. apply IH; assumption.
Qed.

(** ... and over a quote. *)
Lemma quote_keeps_gt (q : ascii) (s : text) :
  is_quote q = true ->
  skip_while (fun x => negb (Ascii.eqb x ">")) (q :: s)
  = skip_while (fun x => negb (Ascii.eqb x ">")) s.
Proof.
  unfold is_quote. intros H. cbn [skip_while].
  destruct (Ascii.eqb_spec q ">") as [->|_]; [discriminate|reflexivity].
Qed.

Lemma attribute_keeps_gt (v v' : text) :
  module_attribute v = Some v' ->
  skip_while (fun x => negb (Ascii.eqb x ">")) v
  = skip_while (fun x => negb (Ascii.eqb x ">")) v'.
Proof.
  unfold module_attribute.
  destruct (Spec.starts_with_ci (py "type=") v) eqn:E1; [|discriminate].
  rewrite (word_keeps_gt (py "type=") v eq_refl E1). change (length (py "type=")) with 5%nat.
  destruct (skipn 5 v) as [|q s1]; [discriminate|].
  destruct (is_quote q) eqn:Eq; [|discriminate]. cbn [andb].
  destruct (Spec.starts_with_ci (py "module") s1) eqn:E2; [|discriminate].
  rewrite (quote_keeps_gt q s1 Eq), (word_keeps_gt (py "module") s1 eq_refl E2).
  change (length (py "module")) with 6%nat.
  destruct (skipn 6 s1) as [|q' s2]; [discriminate|].
  destruct (is_quote q') eqn:Eq'; [|discriminate].
  intros H. injection H as <-. apply (quote_keeps_gt q' s2 Eq').
Qed.

(** The end of the tag and the rest of the element, from anywhere in the
    tag. *)
Lemma tag_end_ways (r : regex) (v : text) (g : option text) :
  ways ci_dotall (Star (NoneOf (py ">")) ⊙ Chars (py ">") ⊙ r) v g
  = ways ci_dotall (Chars (py ">") ⊙ r) (skip_while (fun x => negb (Ascii.eqb x ">")) v) g.
Proof.
  rewrite class_star_then.
  - rewrite (skip_while_ext _ (fun x => negb (Ascii.eqb x ">")))
      by (intros x; rewrite in_set_gt; reflexivity).
    reflexivity.
  - intros x t g' Hx. rewrite ways_chars_then.
    change (eat ci_dotall (py ">") (x :: t))
      with (if chr_match ci_dotall ">" x then Some t else None).
    rewrite in_set_gt in Hx. rewrite chr_match_gt, Hx. reflexivity.
Qed.

Lemma hd_error_app {A} (l l' : list A) :
  hd_error (l ++ l') = match hd_error l with Some x => Some x | None => hd_error l' end.
Proof. destruct l; reflexivity. Qed.

(** The greedy [[^>]*] before the attribute: the pattern matches when the
    attribute starts somewhere in the tag, and then as the script pattern
    does. *)
Lemma attribute_in_tag (r : regex) (n : nat) :
  forall u g, (length u <= n)%nat ->
    hd_error (flat_map (fun w : way =>
                          ways ci_dotall
                            (Chars (py "type=") ⊙ OneOf quotes ⊙ Chars (py "module")
                             ⊙ OneOf quotes ⊙ Star (NoneOf (py ">")) ⊙ Chars (py ">") ⊙ r)
                            (fst w) (snd w))
                       (iter_greedy (one (fun x => negb (in_set ci_dotall (py ">") x))) n u g))
    = if module_in_tag u
      then hd_error (ways ci_dotall (Star (NoneOf (py ">")) ⊙ Chars (py ">") ⊙ r) u g)
      else None.
Proof.
  induction n as [|n IH]; intros u g Hn.
  - destruct u; simpl in Hn; [|lia]. reflexivity.
  - destruct u as [|x u]; [reflexivity|].
    cbn [iter_greedy one module_in_tag]. rewrite in_set_gt.
    destruct (Ascii.eqb_spec x ">") as [->|Hx]; cbn [negb].
    + cbn [flat_map app fst snd]. rewrite app_nil_r, attribute_ways. reflexivity.
    + cbn [flat_map fst snd length].
      replace (length u <? S (length u))%nat with true by (symmetry; apply Nat.ltb_lt; lia).
      rewrite app_nil_r, flat_map_app, hd_error_app, IH by (simpl in Hn; lia).
      cbn [flat_map fst snd]. rewrite app_nil_r, attribute_ways.
      assert (Htail : ways ci_dotall (Star (NoneOf (py ">")) ⊙ Chars (py ">") ⊙ r) (x :: u) g
                      = ways ci_dotall (Star (NoneOf (py ">")) ⊙ Chars (py ">") ⊙ r) u g).
      { rewrite !tag_end_ways. cbn [skip_while].
        destruct (Ascii.eqb_spec x ">"); [contradiction|reflexivity]. }
      destruct (module_attribute (x :: u)) as [v|] eqn:Ea.
      * assert (Hv : ways ci_dotall (Star (NoneOf (py ">")) ⊙ Chars (py ">") ⊙ r) v g
                     = ways ci_dotall (Star (NoneOf (py ">")) ⊙ Chars (py ">") ⊙ r) (x :: u) g).
        { rewrite !tag_end_ways, (attribute_keeps_gt _ _ Ea). reflexivity. }
        rewrite Hv, Htail. destruct (module_in_tag u); [|reflexivity].
        destruct (hd_error _); reflexivity.
      * rewrite Htail. destruct (module_in_tag u); [|reflexivity].
        destruct (hd_error _); reflexivity.
Qed.

(** The first way the module-script pattern matches at the head of [s]. *)
Lemma module_way (s : text) :
  hd_error (ways ci_dotall module_pattern s None) =
  option_map (fun e : text * text => (snd e, None)) (module_here s).
Proof.
  unfold module_pattern, module_here.
  rewrite ways_chars_then, (eat_ci ci_dotall _ _ eq_refl).
  destruct (Spec.starts_with_ci (py "<script") s); [|reflexivity]. cbn [andb].
  change (length (py "<script")) with 7%nat. set (u := skipn 7 s).
  rewrite ways_seq, ways_star.
  change (ways ci_dotall (NoneOf (py ">")))
    with (one (fun x => negb (in_set ci_dotall (py ">") x))).
  rewrite (attribute_in_tag _ (length u) u None (le_n _)).
  destruct (module_in_tag u); [|reflexivity].
  rewrite to_gt_then. unfold close_from.
  destruct (index_of (py ">") u) as [j|]; [|reflexivity].
  change (py "</script>") with (py "</" ++ py "script" ++ py ">").
  rewrite any_then_close.
  destruct (Spec.index_of_ci _ _); reflexivity.
Qed.

Lemma module_match (s : text) :
  match_here ci_dotall module_pattern s =
  option_map (fun e : text * text =>
                {| matched := consumed s (snd e, None); group1 := None; after := snd e |})
             (module_here s).
Proof. rewrite match_here_head, module_way. destruct (module_here s); reflexivity. Qed.

Lemma module_here_shorter (s inn rst : text) :
  module_here s = Some (inn, rst) -> (length rst < length s)%nat.
Proof.
  unfold module_here. destruct (_ && _); [|discriminate]. intros H.
  destruct (close_from_lengths _ _ _ _ H) as (j & k & _ & _ & _ & -> & Hlen).
  rewrite !length_skipn in *. simpl in Hlen. lia.
Qed.

(** [findall] with the module-script pattern reads the module scripts from
    left to right, whatever the fuel beyond the length of the text. *)
Lemma findall_modules_upto (n : nat) :
  forall s, (length s < n)%nat ->
    findall ci_dotall module_pattern s = module_scripts_upto n s.
Proof.
  induction n as [|n IH]; intros s Hn; [lia|].
  cbn [module_scripts_upto]. pose proof (module_match s) as Hm.
  destruct (module_here s) as [[inn rst]|] eqn:Eh; cbn [option_map snd] in Hm.
  - pose proof (module_here_shorter _ _ _ Eh) as Hlt.
    rewrite (findall_hit _ _ _ _ Hm) by (apply consumed_nonempty, Hlt).
    cbn [result_of group1 matched after]. unfold consumed. cbn [fst]. f_equal.
    apply IH. lia.
  - destruct s as [|x s].
    + apply findall_end, Hm.
    + rewrite (findall_gap _ _ _ _ Hm). apply IH. simpl in Hn. lia.
Qed.

Lemma findall_modules (s : text) :
  findall ci_dotall module_pattern s = module_scripts s.
Proof. apply findall_modules_upto. lia. Qed.

(** X8.  The scripts, with the module scripts named.  The matches of the
    module-script pattern are the script elements whose tag - the text up to
    the first [>] - holds [type=], a quote, [module] and a quote, whatever
    the case and whichever the two quotes, read from left to right; they
    are put, joined by newlines and followed by one, before the collection
    of all the script elements. *)
Theorem scripts_with_module_scripts_first (c : text) :
  scripts (extract c) =
  let general := str_join [newline] (List.map Spec.whole (Spec.elements (py "script") c)) in
  match module_scripts c with
  | [] => general
  | modules => str_join [newline] modules ++ [newline] ++ general
  end.
Proof.
  cbn [extract scripts]. unfold extract_scripts.
  rewrite findall_scripts, str_join_nil_or, findall_modules.
  destruct (module_scripts c); reflexivity.
Qed.

(** ** The composed page, read again *)

(** The title element of a text in which it is the first, its inner text
    free of the closing tag. *)
Lemma first_title_located (pre inner_text post : text) :
  Spec.index_of_ci (py "<title") (pre ++ py "<title>") = Some (length pre) ->
  Spec.index_of_ci (py "</title>") inner_text = None ->
  Spec.first_element (py "title") (pre ++ py "<title>" ++ inner_text ++ py "</title>" ++ post)
  = Some {| Spec.before := pre;
            Spec.whole := py "<title>" ++ inner_text ++ py "</title>";
            Spec.inner := inner_text;
            Spec.rest := post |}.
Proof.
  intros Hopen Hclosed. unfold Spec.first_element.
  set (Y := inner_text ++ py "</title>" ++ post).
  assert (Hi : Spec.index_of_ci (py "<" ++ py "title") (pre ++ py "<title>" ++ Y)
               = Some (length pre)).
  { change (py "<" ++ py "title") with (py "<title").
    unfold Spec.index_of_ci in *. rewrite app_assoc, (str_lower_app (pre ++ py "<title>") Y).
    apply index_of_app_prefix. exact Hopen. }
  rewrite Hi. rewrite drop_app_length, take_app_length.
  change (skipn (S (length (py "title"))) (py "<title>" ++ Y)) with (">"%char :: Y).
  change (index_of (py ">") (">"%char :: Y)) with (Some 0%nat).
  cbv iota beta. change (skipn 1 (">"%char :: Y)) with Y.
  assert (Hk : Spec.index_of_ci (py "</" ++ py "title" ++ py ">") Y = Some (length inner_text)).
  { change (py "</" ++ py "title" ++ py ">") with (py "</title>").
    unfold Spec.index_of_ci in *. unfold Y.
    rewrite (str_lower_app inner_text), (str_lower_app (py "</title>")).
    rewrite <- (str_lower_length inner_text).
    apply (index_of_after "<"%char (py "/title>")); [|exact Hclosed].
    vm_compute. intuition discriminate. }
  rewrite Hk. unfold Y. f_equal. f_equal.
  - transitivity (firstn (length (py "<title>" ++ inner_text ++ py "</title>"))
                    ((py "<title>" ++ inner_text ++ py "</title>") ++ post)).
    + f_equal; [|rewrite <- !app_assoc; reflexivity].
      rewrite !length_app. simpl. lia.
    + apply take_app_length.
  - apply take_app_length.
  - replace (length inner_text + (length (py "title") + 3))%nat
      with (length (inner_text ++ py "</title>")) by (rewrite length_app; reflexivity).
    rewrite app_assoc. apply drop_app_length.
Qed.

(** The title of a composed page, when the title it was composed with does
    not hold a closing title tag. *)
Lemma title_of_page (h : html_data) (t : template_data) :
  Spec.index_of_ci (py "</title>") (title h) = None ->
  extract_title (integrated_html h t) = str_strip (title h).
Proof.
  intros Hclosed. unfold extract_title, title_re. rewrite search_element.
  unfold integrated_html.
  assert (H0 : page_0 = firstn 207 page_0 ++ py "<title>") by (vm_compute; reflexivity).
  assert (H1 : page_1 = py "</title>" ++ skipn 8 page_1) by (vm_compute; reflexivity).
  rewrite H0 at 1. rewrite H1 at 1. rewrite <- !app_assoc.
  rewrite first_title_located; [reflexivity| |exact Hclosed].
  vm_compute. reflexivity.
Qed.

(** X9.  Wrapping keeps the title: the title the extractor finds in a
    page composed from the content of a file is the title it found in the
    file. *)
Theorem title_survives_wrapping (c : text) (t : template_data) :
  title (extract (integrated_html (extract c) t)) = title (extract c).
Proof.
  cbn [extract title]. destruct (extract_title_closed c) as [Hs Hc].
  rewrite (title_of_page _ t); [exact Hs|exact Hc].
Qed.

(** A word that the fixed text of the page neither holds nor can complete
    occurs in a composed page only inside one of the texts put in it. *)
Lemma integrated_html_free (w : text) (h : html_data) (t : template_data) :
  fixed_text_free w = true ->
  index_of w (title h) = None -> index_of w (styles h) = None ->
  index_of w (content h) = None -> index_of w (rewrite_sidebar (sidebar t)) = None ->
  index_of w (footer t) = None -> index_of w (scripts h) = None ->
  index_of w (integrated_html h t) = None.
Proof.
  intros Hw Ht Hs Hc Hn Hf Hj. unfold integrated_html.
  unfold fixed_text_free in Hw. cbn [forallb] in Hw.
  apply andb_true_iff in Hw as [H0 Hw]. apply andb_true_iff in H0 as [H0 Hs0].
  apply andb_true_iff in H0 as [E0 He0].
  destruct (index_of w page_0) eqn:Ei0; [discriminate E0|clear E0].
  apply andb_true_iff in Hw as [H1 Hw]. apply andb_true_iff in H1 as [H1 Hs1].
  apply andb_true_iff in H1 as [E1 He1].
  destruct (index_of w page_1) eqn:Ei1; [discriminate E1|clear E1].
  apply andb_true_iff in Hw as [H2 Hw]. apply andb_true_iff in H2 as [H2 Hs2].
  apply andb_true_iff in H2 as [E2 He2].
  destruct (index_of w page_2) eqn:Ei2; [discriminate E2|clear E2].
  apply andb_true_iff in Hw as [H3 Hw]. apply andb_true_iff in H3 as [H3 Hs3].
  apply andb_true_iff in H3 as [E3 He3].
  destruct (index_of w page_3) eqn:Ei3; [discriminate E3|clear E3].
  apply andb_true_iff in Hw as [H4 Hw]. apply andb_true_iff in H4 as [H4 Hs4].
  apply andb_true_iff in H4 as [E4 He4].
  destruct (index_of w page_4) eqn:Ei4; [discriminate E4|clear E4].
  apply andb_true_iff in Hw as [H5 Hw]. apply andb_true_iff in H5 as [H5 Hs5].
  apply andb_true_iff in H5 as [E5 He5].
  destruct (index_of w page_5) eqn:Ei5; [discriminate E5|clear E5].
  apply andb_true_iff in Hw as [H6 Hw]. apply andb_true_iff in H6 as [H6 Hs6].
  apply andb_true_iff in H6 as [E6 He6].
  destruct (index_of w page_6) eqn:Ei6; [discriminate E6|clear E6].
  apply andb_true_iff in Hw as [H7 Hw]. apply andb_true_iff in H7 as [H7 Hs7].
  apply andb_true_iff in H7 as [E7 He7].
  destruct (index_of w page_7) eqn:Ei7; [discriminate E7|clear E7].
  apply index_of_app_out; [exact Ei0| |exact He0].
  apply index_of_app_into; [exact Ht| |exact Hs1].
  apply index_of_app_out; [exact Ei1| |exact He1].
  apply index_of_app_into; [exact Ht| |exact Hs2].
  apply index_of_app_out; [exact Ei2| |exact He2].
  apply index_of_app_into; [exact Hs| |exact Hs3].
  apply index_of_app_out; [exact Ei3| |exact He3].
  apply index_of_app_into; [exact Hc| |exact Hs4].
  apply index_of_app_out; [exact Ei4| |exact He4].
  apply index_of_app_into; [exact Hn| |exact Hs5].
  apply index_of_app_out; [exact Ei5| |exact He5].
  apply index_of_app_into; [exact Hf| |exact Hs6].
  apply index_of_app_out; [exact Ei6| |exact He6].
  rewrite <- (app_nil_r page_7).
  apply index_of_app_into; [exact Hj| |exact Hs7].
  rewrite app_nil_r. exact Ei7.
Qed.

(** X10.  The composed page is not closed by its template.  The fixed text
    of the page holds no [</html>], and the footer of a template is cut
    before the first [</html>] of the index page: a page composed with a
    template holds [</html>] only when the title, the styles, the body or
    the scripts of the file, or the sidebar, hold it. *)
Theorem composed_page_has_no_closing_html (index : text) (h : html_data)
    (t : template_data) :
  template_of index = Some t ->
  str_contains (py "</html>") (title h) = false ->
  str_contains (py "</html>") (styles h) = false ->
  str_contains (py "</html>") (content h) = false ->
  str_contains (py "</html>") (scripts h) = false ->
  str_contains (py "</html>") (rewrite_sidebar (sidebar t)) = false ->
  str_contains (py "</html>") (footer t) = false
  /\ str_contains (py "</html>") (integrated_html h t) = false.
Proof.
  intros Htpl Ht Hs Hc Hj Hn.
  assert (Hf : str_contains (py "</html>") (footer t) = false).
  { destruct (template_footer index t Htpl) as (fi & hi & Hh & ->).
    apply no_occurrence_before_first; [exact Hh|discriminate]. }
  split; [exact Hf|].
  apply str_contains_none, integrated_html_free; [vm_compute; reflexivity|..];
    apply str_contains_absent; assumption.
Qed.

Lemma composed_page_has_no_closing_html_witness :
  str_contains (py "</html>") (integrated_html (extract guide_page) index_template) = false.
Proof.
  apply (composed_page_has_no_closing_html index_page (extract guide_page) index_template);
    vm_compute; reflexivity.
Defined.

(** X11.  The sidebar tag of a composed page comes from the texts put in
    it, never from the fixed text of the page: a page composed of a title,
    styles, a body, scripts, a sidebar and a footer without the tag does not
    hold it, and the driver will take it for a standalone file. *)
Theorem composed_page_without_sidebar_tag (h : html_data) (t : template_data) :
  str_contains sidebar_tag (title h) = false ->
  str_contains sidebar_tag (styles h) = false ->
  str_contains sidebar_tag (content h) = false ->
  str_contains sidebar_tag (scripts h) = false ->
  str_contains sidebar_tag (rewrite_sidebar (sidebar t)) = false ->
  str_contains sidebar_tag (footer t) = false ->
  str_contains sidebar_tag (integrated_html h t) = false.
Proof.
  intros Ht Hs Hc Hj Hn Hf.
  apply str_contains_none, integrated_html_free; [vm_compute; reflexivity|..];
    apply str_contains_absent; assumption.
Qed.

Lemma composed_page_without_sidebar_tag_witness :
  str_contains sidebar_tag
    (integrated_html (extract guide_page)
       {| before_content := py "<html><body>"; sidebar := [];
          footer := py "<footer id=`footer`>pdoc</footer></body>" |}) = false.
Proof.
  apply (composed_page_without_sidebar_tag (extract guide_page)
           {| before_content := py "<html><body>"; sidebar := [];
              footer := py "<footer id=`footer`>pdoc</footer></body>" |});
    vm_compute; reflexivity.
Defined.

(** ** The loops of the driver and whole runs *)

Lemma find_standalone_log (files : list string) :
  forall (w : world) (d : gmap string file),
    docs w = Some d ->
    find_standalone files w =
    (Ok (List.filter (is_standalone d) files),
     {| docs := Some d;
        out := out w ++ List.map CouldNotRead
                 (List.filter (fun n => negb (String.eqb n "index.html")
                                        && match readable d n with Some _ => false | None => true end)
                              files) |}).
Proof.
  induction files as [|n rest IH]; intros w d H.
  - simpl. unfold mret, M_ret. rewrite app_nil_r, <- H. destruct w; reflexivity.
  - cbn [find_standalone List.filter]. unfold is_standalone at 1.
    destruct (String.eqb n "index.html") eqn:En; cbn [negb andb].
    + rewrite (bind_ok _ _ w w false) by reflexivity.
      rewrite (bind_ok _ _ _ _ _ (IH w d H)). reflexivity.
    + destruct (readable d n) as [c|] eqn:Er.
      * rewrite (bind_ok _ _ w w (negb (str_contains sidebar_tag c))).
        2:{ unfold try_except.
            rewrite (bind_ok _ _ w w c) by (rewrite (read_file_readable _ _ _ H), Er; reflexivity).
            reflexivity. }
        rewrite (bind_ok _ _ _ _ _ (IH w d H)).
        destruct (str_contains sidebar_tag c); reflexivity.
      * rewrite (bind_ok _ _ w {| docs := docs w; out := out w ++ [CouldNotRead n] |} false).
        2:{ unfold try_except.
            rewrite (bind_raise _ _ w w) by (rewrite (read_file_readable _ _ _ H), Er; reflexivity).
            reflexivity. }
        rewrite (bind_ok _ _ _ _ _ (IH {| docs := docs w; out := out w ++ [CouldNotRead n] |} d H)).
        cbn [out List.map]. rewrite <- app_assoc. reflexivity.
Qed.

(** X12.  The loop that finds the standalone files never raises and
    changes no file: it returns, in the order of the listing, the names
    other than index.html whose file can be read and does not hold the
    sidebar tag, and prints one warning for each of the other files that
    cannot be read. *)
Theorem find_standalone_keeps_the_candidates (files : list string) (w : world)
    (d : gmap string file) :
  docs w = Some d ->
  find_standalone files w =
  (Ok (List.filter (fun n => negb (String.eqb n "index.html")
                             && match readable d n with
                                | Some c => negb (str_contains sidebar_tag c)
                                | None => false
                                end) files),
   {| docs := Some d;
      out := out w ++ List.map CouldNotRead
               (List.filter (fun n => negb (String.eqb n "index.html")
                                      && match readable d n with
                                         | Some _ => false
                                         | None => true
                                         end) files) |}).
Proof. intros H. apply (find_standalone_log files w d H). Qed.

Lemma find_standalone_keeps_the_candidates_witness :
  find_standalone ["assets.html"; "index.html"; "guide.html"]
    {| docs := Some sample_docs; out := [] |}
  = (Ok ["guide.html"], {| docs := Some sample_docs; out := [CouldNotRead "assets.html"] |}).
Proof.
  exact (find_standalone_keeps_the_candidates ["assets.html"; "index.html"; "guide.html"]
           {| docs := Some sample_docs; out := [] |} sample_docs eq_refl).
Defined.

Lemma writable_prefix_ext (d d' : gmap string file) (names : list string) :
  (forall n, In n names -> can_write d' n = can_write d n) ->
  writable_prefix d' names = writable_prefix d names.
Proof.
  induction names as [|n rest IH]; intros H; [reflexivity|].
  cbn [writable_prefix]. rewrite (H n) by (left; reflexivity).
  rewrite IH by (intros m Hm; apply H; right; exact Hm). reflexivity.
Qed.

Lemma first_unwritable_ext (d d' : gmap string file) (names : list string) :
  (forall n, In n names -> can_write d' n = can_write d n) ->
  first_unwritable d' names = first_unwritable d names.
Proof.
  unfold first_unwritable.
  induction names as [|n rest IH]; intros H; [reflexivity|].
  cbn [List.find]. rewrite (H n) by (left; reflexivity).
  rewrite IH by (intros m Hm; apply H; right; exact Hm). reflexivity.
Qed.

(** The last loop of the driver on files that can be read: it integrates
    them one after the other up to the first that cannot be written, where
    the exception of the write ends the loop. *)
Lemma integrate_files_run (t : template_data) (names : list string) :
  forall (w : world) (d : gmap string file),
    docs w = Some d ->
    List.NoDup names ->
    (forall n, In n names -> readable d n <> None) ->
    exists d',
      integrate_files t names w =
      (match first_unwritable d names with None => Ok tt | Some _ => Raise end,
       {| docs := Some d';
          out := out w ++ integrated_lines (writable_prefix d names)
                 ++ match first_unwritable d names with
                    | Some n => [Integrating n]
                    | None => []
                    end |})
      /\ (forall n c, In n (writable_prefix d names) -> readable d n = Some c ->
            d' !! n = Some (written (integrated_html (extract c) t)))
      /\ (forall m, ~ In m (writable_prefix d names) -> d' !! m = d !! m).
Proof.
  induction names as [|n rest IH]; intros w d H Hnd Hread.
  - exists d. split; [|split; [intros n c []|reflexivity]].
    simpl. unfold mret, M_ret. rewrite app_nil_r, <- H. destruct w; reflexivity.
  - apply NoDup_cons_iff in Hnd as [Hn Hnd].
    destruct (readable d n) as [c|] eqn:Er; [|exfalso; apply (Hread n); [left; reflexivity|exact Er]].
    cbn [integrate_files].
    rewrite (bind_ok _ _ _ _ _ (path_exists_readable _ _ _ _ H Er)).
    set (w1 := {| docs := docs w; out := out w ++ [Integrating n] |}).
    unfold first_unwritable. cbn [writable_prefix List.find].
    destruct (can_write d n) eqn:Ew; cbn [negb].
    + set (d1 := <[n := written (integrated_html (extract c) t)]> d).
      set (w3 := {| docs := Some d1; out := (out w ++ [Integrating n]) ++ [Integrated n] |}).
      destruct (IH w3 d1 eq_refl Hnd) as (d' & Hrun & Hin & Hout).
      { intros m Hm. unfold d1. rewrite readable_insert_ne by (intros ->; contradiction).
        apply Hread. right. exact Hm. }
      assert (Hcw : forall m, In m rest -> can_write d1 m = can_write d m).
      { intros m Hm. apply can_write_insert_ne. intros ->. contradiction. }
      rewrite (writable_prefix_ext _ _ _ Hcw) in Hrun, Hin, Hout.
      rewrite (first_unwritable_ext _ _ _ Hcw) in Hrun. unfold first_unwritable in Hrun.
      exists d'. split; [|split].
      * rewrite (bind_ok _ _ w w3 tt).
        { rewrite Hrun. unfold w3, integrated_lines. cbn [out flat_map app]. rewrite <- !app_assoc. reflexivity. }
        rewrite (bind_ok _ _ w w1 tt) by reflexivity.
        rewrite (bind_ok _ _ _ _ _ (extract_html_content_readable n w1 d c H Er)).
        rewrite (bind_ok _ _ w1 {| docs := Some d1; out := out w1 |} tt); [reflexivity|].
        unfold create_integrated_page. rewrite (write_file_writable n _ w1 d H).
        unfold can_write in Ew. destruct (d !! n) as [[dt wr]|]; [|reflexivity].
        simpl in Ew. subst wr. reflexivity.
      * intros m c' [<-|Hm] Hc'.
        -- rewrite Hout.
           ++ unfold d1. rewrite lookup_insert_eq. congruence.
           ++ intros Hm. apply Hn. clear -Hm. induction rest as [|x l IHl]; [destruct Hm|].
              cbn [writable_prefix] in Hm. destruct (can_write d x); [|destruct Hm].
              destruct Hm as [->|Hm]; [left; reflexivity|right; apply IHl, Hm].
        -- apply Hin; [exact Hm|]. unfold d1.
           rewrite readable_insert_ne; [exact Hc'|]. intros ->. apply Hn.
           clear -Hm. induction rest as [|x l IHl]; [destruct Hm|].
           cbn [writable_prefix] in Hm. destruct (can_write d x); [|destruct Hm].
           destruct Hm as [->|Hm]; [left; reflexivity|right; apply IHl, Hm].
      * intros m Hm. rewrite Hout by (intros Hm'; apply Hm; right; exact Hm').
        unfold d1. apply lookup_insert_ne. intros ->. apply Hm. left. reflexivity.
    + exists d. split; [|split; [intros m c' []|reflexivity]].
      rewrite (bind_raise _ _ w w1); [unfold w1; rewrite H; reflexivity|].
      rewrite (bind_ok _ _ w w1 tt) by reflexivity.
      rewrite (bind_ok _ _ _ _ _ (extract_html_content_readable n w1 d c H Er)).
      rewrite (bind_raise _ _ w1 w1); [reflexivity|].
      unfold create_integrated_page. rewrite (write_file_writable n _ w1 d H).
      unfold can_write, readable in Ew, Er. destruct (d !! n) as [[dt wr]|]; [|discriminate].
      simpl in Ew. subst wr. reflexivity.
Qed.

(** X13.  A file of the list that is no longer in the directory is skipped
    by the last loop of the driver: it prints that the file was not found,
    changes nothing, and goes on with the next file. *)
Theorem missing_file_is_skipped (t : template_data) (filename : string)
    (rest : list string) (w : world) (d : gmap string file) :
  docs w = Some d -> d !! filename = None ->
  integrate_files t (filename :: rest) w
  = integrate_files t rest
      {| docs := docs w; out := out w ++ [NotFoundSkipping filename] |}.
Proof.
  intros H Hf. cbn [integrate_files].
  rewrite (bind_ok _ _ w w false) by (unfold path_exists; rewrite H, Hf; reflexivity).
  rewrite (bind_ok _ _ w {| docs := docs w; out := out w ++ [NotFoundSkipping filename] |} tt)
    by reflexivity.
  reflexivity.
Qed.

Lemma missing_file_is_skipped_witness :
  integrate_files index_template ["gone.html"] {| docs := Some sample_docs; out := [] |}
  = (Ok tt, {| docs := Some sample_docs; out := [NotFoundSkipping "gone.html"] |}).
Proof.
  exact (missing_file_is_skipped index_template "gone.html" []
           {| docs := Some sample_docs; out := [] |} sample_docs eq_refl eq_refl).
Defined.

(** A run, case by case: no index page, an index page that cannot be read,
    one that gives no template, no standalone file, and the loops. *)
Lemma run_cases (d : gmap string file) :
  run (Some d) =
  match d !! "index.html" with
  | None => (Ok tt, {| docs := Some d; out := [NoTemplate] |})
  | Some f =>
      match data f with
      | None => (Raise, {| docs := Some d; out := [] |})
      | Some index =>
          match template_of index with
          | None => (Ok tt, {| docs := Some d; out := [NoTemplate] |})
          | Some t =>
              match standalone_files d with
              | [] => (Ok tt, {| docs := Some d;
                                 out := List.map CouldNotRead (unreadable_files d)
                                        ++ [NoStandalone] |})
              | names =>
                  (print (FoundStandalone (length names)) ;;
                   list_files names ;;
                   integrate_files t names ;;
                   print (Complete (length names)))
                    {| docs := Some d; out := List.map CouldNotRead (unreadable_files d) |}
              end
          end
      end
  end.
Proof.
  unfold run, main.
  rewrite (bind_ok _ _ _ {| docs := Some d; out := [] |} true) by reflexivity. cbn [negb].
  destruct (d !! "index.html") as [[[index|] wr]|] eqn:Ei; cbn [data].
  - assert (Hr : readable d "index.html" = Some index) by (unfold readable; rewrite Ei; reflexivity).
    rewrite (bind_ok _ _ _ _ _
               (generate_pdoc_template_readable {| docs := Some d; out := [] |} d index eq_refl Hr)).
    destruct (template_of index) as [t|]; [|reflexivity].
    rewrite (bind_ok _ _ _ {| docs := Some d; out := [] |}
               (List.filter (ends_with ".html") (map_to_list d).*1)) by reflexivity.
    rewrite (bind_ok _ _ _ _ _
               (find_standalone_log (List.filter (ends_with ".html") (map_to_list d).*1)
                  {| docs := Some d; out := [] |} d eq_refl)).
    cbn [out app]. fold (standalone_files d). fold (unreadable_files d).
    destruct (standalone_files d); reflexivity.
  - rewrite (bind_raise _ _ _ {| docs := Some d; out := [] |}); [reflexivity|].
    unfold generate_pdoc_template.
    rewrite (bind_ok _ _ _ {| docs := Some d; out := [] |} true)
      by (unfold path_exists; cbn [docs]; rewrite Ei; reflexivity).
    cbn [negb]. rewrite (bind_raise _ _ _ {| docs := Some d; out := [] |}); [reflexivity|].
    unfold read_file. cbn [docs]. rewrite Ei. reflexivity.
  - rewrite (bind_ok _ _ _ _ _
               (generate_pdoc_template_missing {| docs := Some d; out := [] |} d eq_refl Ei)).
    reflexivity.
Qed.

(** X14.  A run that cannot start returns all the same, with one line of
    output and the directory as it was: when there is no docs directory,
    when it has no index page, and when the index page gives no template. *)
Theorem run_without_template (d : gmap string file) :
  run None = (Ok tt, {| docs := None; out := [DocsNotFound] |})
  /\ (d !! "index.html" = None ->
      run (Some d) = (Ok tt, {| docs := Some d; out := [NoTemplate] |}))
  /\ (forall index, readable d "index.html" = Some index -> template_of index = None ->
      run (Some d) = (Ok tt, {| docs := Some d; out := [NoTemplate] |})).
Proof.
  split; [reflexivity|]. split.
  - intros H. rewrite run_cases, H. reflexivity.
  - intros index Hr Ht. rewrite run_cases. unfold readable in Hr.
    destruct (d !! "index.html"); [|discriminate]. rewrite Hr, Ht. reflexivity.
Qed.

Lemma run_without_template_witness :
  run (Some (<["guide.html" := plain guide_page]> ∅))
  = (Ok tt, {| docs := Some (<["guide.html" := plain guide_page]> ∅); out := [NoTemplate] |}).
Proof.
  apply (run_without_template (<["guide.html" := plain guide_page]> ∅)). reflexivity.
Defined.

(** X15.  The template extractor has no handler for a failing read: an
    index page that exists and cannot be read makes it raise, and the run
    with it, before anything is printed or written. *)
Theorem unreadable_index_raises (d : gmap string file) (f : file) :
  d !! "index.html" = Some f -> data f = None ->
  generate_pdoc_template {| docs := Some d; out := [] |}
  = (Raise, {| docs := Some d; out := [] |})
  /\ run (Some d) = (Raise, {| docs := Some d; out := [] |}).
Proof.
  intros Hf Hd. split.
  - unfold generate_pdoc_template.
    rewrite (bind_ok _ _ _ {| docs := Some d; out := [] |} true)
      by (unfold path_exists; cbn [docs]; rewrite Hf; reflexivity).
    cbn [negb]. rewrite (bind_raise _ _ _ {| docs := Some d; out := [] |}); [reflexivity|].
    unfold read_file. cbn [docs]. rewrite Hf. destruct f as [dt wr]. simpl in Hd. subst dt.
    reflexivity.
  - rewrite run_cases, Hf, Hd. reflexivity.
Qed.

Lemma unreadable_index_raises_witness :
  run (Some unreadable_index_docs) = (Raise, {| docs := Some unreadable_index_docs; out := [] |}).
Proof.
  apply (unreadable_index_raises unreadable_index_docs {| data := None; writable := true |});
    reflexivity.
Defined.

Lemma first_unwritable_forallb (d : gmap string file) (names : list string) :
  forallb (can_write d) names = match first_unwritable d names with Some _ => false | None => true end.
Proof.
  unfold first_unwritable. induction names as [|n rest IH]; [reflexivity|].
  cbn [forallb List.find]. destruct (can_write d n); [exact IH|reflexivity].
Qed.

Lemma writable_prefix_all (d : gmap string file) (names : list string) :
  first_unwritable d names = None -> writable_prefix d names = names.
Proof.
  unfold first_unwritable. induction names as [|n rest IH]; [reflexivity|].
  cbn [List.find writable_prefix]. destruct (can_write d n); [|discriminate].
  intros H. rewrite (IH H). reflexivity.
Qed.

Lemma writable_prefix_In (d : gmap string file) (names : list string) (n : string) :
  In n (writable_prefix d names) -> In n names /\ can_write d n = true.
Proof.
  induction names as [|x rest IH]; [intros []|].
  cbn [writable_prefix]. destruct (can_write d x) eqn:E; [|intros []].
  intros [<-|H]; [split; [left; reflexivity|exact E]|].
  destruct (IH H) as [H1 H2]. split; [right; exact H1|exact H2].
Qed.

Lemma first_unwritable_Some (d : gmap string file) (names : list string) (n : string) :
  first_unwritable d names = Some n -> In n names /\ can_write d n = false.
Proof.
  unfold first_unwritable. intros H. apply find_some in H as [H1 H2].
  split; [exact H1|]. destruct (can_write d n); [discriminate|reflexivity].
Qed.

(** A run on a directory with a template and standalone files: the result,
    the output, and the directory it leaves. *)
Lemma run_outcome (d : gmap string file) (index : text) (t : template_data) :
  readable d "index.html" = Some index -> template_of index = Some t ->
  standalone_files d <> [] ->
  exists d',
    run (Some d) =
    (match first_unwritable d (standalone_files d) with None => Ok tt | Some _ => Raise end,
     {| docs := Some d';
        out := List.map CouldNotRead (unreadable_files d)
               ++ [FoundStandalone (length (standalone_files d))]
               ++ List.map Listed (standalone_files d)
               ++ integrated_lines (writable_prefix d (standalone_files d))
               ++ match first_unwritable d (standalone_files d) with
                  | Some n => [Integrating n]
                  | None => [Complete (length (standalone_files d))]
                  end |})
    /\ (forall n c, In n (writable_prefix d (standalone_files d)) -> readable d n = Some c ->
          d' !! n = Some (written (integrated_html (extract c) t)))
    /\ (forall m, ~ In m (writable_prefix d (standalone_files d)) -> d' !! m = d !! m).
Proof.
  intros Hr Ht Hne. rewrite run_cases.
  unfold readable in Hr. destruct (d !! "index.html") as [f|]; [|discriminate].
  rewrite Hr, Ht.
  destruct (standalone_files d) as [|n0 rest] eqn:Es; [congruence|]. rewrite <- Es in *.
  clear Hne. set (names := standalone_files d) in *.
  set (w0 := {| docs := Some d; out := List.map CouldNotRead (unreadable_files d) |}).
  set (w2 := {| docs := Some d;
                out := (out w0 ++ [FoundStandalone (length names)]) ++ List.map Listed names |}).
  destruct (integrate_files_run t names w2 d eq_refl (standalone_files_NoDup d)
              (standalone_files_readable d)) as (d' & Hrun & Hin & Hout).
  exists d'. split; [|split; assumption].
  rewrite (bind_ok _ _ w0 {| docs := Some d; out := out w0 ++ [FoundStandalone (length names)] |} tt)
    by reflexivity.
  rewrite (bind_ok _ _ _ _ _ (list_files_run names _)). fold w2.
  destruct (first_unwritable d names) as [n|].
  - rewrite (bind_raise _ _ _ _ Hrun). unfold w2, w0. cbn [out].
    rewrite <- !app_assoc. reflexivity.
  - rewrite (bind_ok _ _ _ _ _ Hrun). unfold print, w2, w0. cbn [out docs].
    rewrite <- !app_assoc. reflexivity.
Qed.

Lemma not_standalone_cases (d : gmap string file) (m : string) :
  m = "index.html" \/ ends_with ".html" m = false
  \/ (exists c, readable d m = Some c /\ str_contains sidebar_tag c = true)
  \/ readable d m = None ->
  ~ In m (standalone_files d).
Proof.
  intros H Hin. apply standalone_files_In in Hin as (_ & He & Hs).
  unfold is_standalone in Hs.
  destruct H as [->|[H|[(c & Hc & Ht)|H]]].
  - discriminate.
  - congruence.
  - rewrite Hc, Ht, andb_false_r in Hs. discriminate.
  - rewrite H, andb_false_r in Hs. discriminate.
Qed.

(** What a run leaves of the directory, whatever its result: the files
    that are not standalone are as they were, and the directory has the
    same entries. *)
Lemma run_frame (d : gmap string file) :
  exists d',
    docs (snd (run (Some d))) = Some d'
    /\ (forall m, ~ In m (standalone_files d) -> d' !! m = d !! m)
    /\ (forall m, d' !! m = None <-> d !! m = None).
Proof.
  destruct (d !! "index.html") as [[[index|] wr]|] eqn:Ei.
  2,3: exists d; rewrite run_cases, Ei; cbn [data]; repeat split; auto.
  destruct (template_of index) as [t|] eqn:Et.
  2: exists d; rewrite run_cases, Ei; cbn [data]; rewrite Et; repeat split; auto.
  destruct (standalone_files d) as [|n0 rest] eqn:Es.
  - exists d. rewrite run_cases, Ei. cbn [data]. rewrite Et, Es. repeat split; auto.
  - assert (Hr : readable d "index.html" = Some index) by (unfold readable; rewrite Ei; reflexivity).
    destruct (run_outcome d index t Hr Et) as (d' & Hrun & Hin & Hout); [rewrite Es; discriminate|].
    exists d'. rewrite Hrun. split; [reflexivity|]. split.
    + intros m Hm. apply Hout. intros Hp. apply Hm.
      rewrite <- Es. apply (writable_prefix_In _ _ _ Hp).
    + intros m.
      destruct (in_dec string_dec m (writable_prefix d (standalone_files d))) as [Hp|Hp].
      * pose proof (writable_prefix_In _ _ _ Hp) as [Hs _].
        pose proof (standalone_files_readable d m Hs) as Hrd.
        destruct (readable d m) as [c|] eqn:Ec; [|congruence].
        rewrite (Hin m c Hp Ec). unfold readable in Ec.
        destruct (d !! m); [split; discriminate|discriminate].
      * rewrite (Hout m Hp). reflexivity.
Qed.

(** X16.  Whatever its result, a run changes no file but the standalone
    ones: the index page, the entries whose name does not end in [.html],
    the pages that hold the sidebar tag and the files that cannot be read
    are left as they were. *)
Theorem run_changes_only_standalone_files (d : gmap string file) :
  exists d',
    docs (snd (run (Some d))) = Some d'
    /\ d' !! "index.html" = d !! "index.html"
    /\ (forall m, ends_with ".html" m = false -> d' !! m = d !! m)
    /\ (forall m c, readable d m = Some c -> str_contains sidebar_tag c = true ->
          d' !! m = d !! m)
    /\ (forall m, readable d m = None -> d' !! m = d !! m).
Proof.
  destruct (run_frame d) as (d' & Hd' & Hout & _). exists d'.
  split; [exact Hd'|]. split; [|split; [|split]].
  - apply Hout, not_standalone_cases. left. reflexivity.
  - intros m H. apply Hout, not_standalone_cases. right. left. exact H.
  - intros m c Hc Ht. apply Hout, not_standalone_cases. right. right. left.
    exists c. split; assumption.
  - intros m H. apply Hout, not_standalone_cases. right. right. right. exact H.
Qed.

(** X17.  A run neither creates nor deletes a file: the directory it leaves
    has the entries it had, and a missing directory is still missing. *)
Theorem run_keeps_the_entries (d : gmap string file) :
  docs (snd (run None)) = None
  /\ exists d', docs (snd (run (Some d))) = Some d'
                /\ forall m, d' !! m = None <-> d !! m = None.
Proof.
  split; [reflexivity|].
  destruct (run_frame d) as (d' & Hd' & _ & Hdom). exists d'. split; assumption.
Qed.

(** X18.  With a template, a run returns exactly when every standalone file
    can be written; otherwise the exception of the write leaves the driver,
    which has no handler for it. *)
Theorem run_returns_iff_pages_writable (d : gmap string file) (index : text)
    (t : template_data) :
  readable d "index.html" = Some index -> template_of index = Some t ->
  fst (run (Some d)) = if forallb (can_write d) (standalone_files d) then Ok tt else Raise.
Proof.
  intros Hr Ht. destruct (standalone_files d) as [|n0 rest] eqn:Es.
  - rewrite run_cases. unfold readable in Hr. destruct (d !! "index.html"); [|discriminate].
    rewrite Hr, Ht, Es. reflexivity.
  - rewrite <- Es.
    destruct (run_outcome d index t Hr Ht) as (d' & -> & _); [rewrite Es; discriminate|].
    rewrite first_unwritable_forallb. cbn [fst].
    destruct (first_unwritable d (standalone_files d)); reflexivity.
Qed.

Lemma run_returns_iff_pages_writable_witness :
  fst (run (Some locked_docs)) = Raise.
Proof.
  exact (run_returns_iff_pages_writable locked_docs index_page index_template eq_refl eq_refl).
Defined.

(** X19.  When a standalone file cannot be written the run stops there with
    the exception: the files listed before it have been replaced by their
    pages, the file itself and those after it are untouched, and the output
    ends with the line that announces the file, with no summary line. *)
Theorem write_failure_stops_the_run (d : gmap string file) (index : text)
    (t : template_data) (n : string) :
  readable d "index.html" = Some index -> template_of index = Some t ->
  first_unwritable d (standalone_files d) = Some n ->
  exists d',
    run (Some d) =
    (Raise,
     {| docs := Some d';
        out := List.map CouldNotRead (unreadable_files d)
               ++ [FoundStandalone (length (standalone_files d))]
               ++ List.map Listed (standalone_files d)
               ++ integrated_lines (writable_prefix d (standalone_files d))
               ++ [Integrating n] |})
    /\ (forall m c, In m (writable_prefix d (standalone_files d)) -> readable d m = Some c ->
          d' !! m = Some (written (integrated_html (extract c) t)))
    /\ (forall m, ~ In m (writable_prefix d (standalone_files d)) -> d' !! m = d !! m)
    /\ d' !! n = d !! n.
Proof.
  intros Hr Ht Hn.
  destruct (run_outcome d index t Hr Ht) as (d' & Hrun & Hin & Hout).
  { intros E. rewrite E in Hn. discriminate. }
  rewrite Hn in Hrun. exists d'. split; [exact Hrun|]. split; [exact Hin|]. split; [exact Hout|].
  apply Hout. intros Hp. apply writable_prefix_In in Hp as [_ Hp].
  apply first_unwritable_Some in Hn as [_ Hn]. congruence.
Qed.

Lemma write_failure_stops_the_run_witness :
  exists d',
    run (Some locked_docs) =
    (Raise,
     {| docs := Some d';
        out := [CouldNotRead "assets.html"; FoundStandalone 1; Listed "guide.html";
                Integrating "guide.html"] |})
    /\ d' !! "guide.html" = locked_docs !! "guide.html".
Proof.
  destruct (write_failure_stops_the_run locked_docs index_page index_template "guide.html"
              eq_refl eq_refl eq_refl) as (d' & Hrun & _ & _ & Hn).
  exists d'. split; [exact Hrun|exact Hn].
Defined.

(** X20.  What a run that integrates its files prints: a warning for each
    file that could not be read, the number of standalone files and their
    names, then for each of them, in the order of the listing, the line that
    announces it and the line that reports its integration, and the summary
    with the same number.  No file is listed twice. *)
Theorem run_output (d : gmap string file) (index : text) (t : template_data) :
  readable d "index.html" = Some index -> template_of index = Some t ->
  forallb (can_write d) (standalone_files d) = true ->
  List.NoDup (standalone_files d)
  /\ out (snd (run (Some d))) =
     List.map CouldNotRead (unreadable_files d)
     ++ match standalone_files d with
        | [] => [NoStandalone]
        | names =>
            [FoundStandalone (length names)] ++ List.map Listed names
            ++ integrated_lines names ++ [Complete (length names)]
        end.
Proof.
  intros Hr Ht Hw. split; [apply standalone_files_NoDup|].
  destruct (standalone_files d) as [|n0 rest] eqn:Es.
  - rewrite run_cases. unfold readable in Hr. destruct (d !! "index.html"); [|discriminate].
    rewrite Hr, Ht, Es. reflexivity.
  - rewrite <- Es in *.
    destruct (run_outcome d index t Hr Ht) as (d' & -> & _); [rewrite Es; discriminate|].
    rewrite first_unwritable_forallb in Hw.
    destruct (first_unwritable d (standalone_files d)) eqn:Ef; [discriminate|].
    rewrite (writable_prefix_all _ _ Ef). reflexivity.
Qed.

Lemma run_output_witness :
  out (snd (run (Some sample_docs)))
  = [CouldNotRead "assets.html"; FoundStandalone 1; Listed "guide.html";
     Integrating "guide.html"; Integrated "guide.html"; Complete 1].
Proof.
  exact (proj2 (run_output sample_docs index_page index_template eq_refl eq_refl eq_refl)).
Defined.

(** X21.  A run that returns leaves in every standalone file the page
    composed from the text the file had and the template of the index page,
    whatever the other files hold. *)
Theorem run_writes_the_composed_pages (d : gmap string file) (index : text)
    (t : template_data) (n : string) (c : text) :
  readable d "index.html" = Some index -> template_of index = Some t ->
  forallb (can_write d) (standalone_files d) = true ->
  ends_with ".html" n = true -> n <> "index.html" ->
  readable d n = Some c -> str_contains sidebar_tag c = false ->
  page_after d n = Some (integrated_html (extract c) t).
Proof.
  intros Hr Ht Hw He Hne Hc Hs.
  assert (Hin : In n (standalone_files d)).
  { apply standalone_files_In. split; [|split; [exact He|]].
    - unfold readable in Hc. destruct (d !! n); [eexists; reflexivity|discriminate].
    - unfold is_standalone. rewrite Hc, Hs.
      destruct (String.eqb_spec n "index.html"); [contradiction|reflexivity]. }
  destruct (run_outcome d index t Hr Ht) as (d' & Hrun & Hpages & _).
  { intros E. rewrite E in Hin. destruct Hin. }
  rewrite first_unwritable_forallb in Hw.
  destruct (first_unwritable d (standalone_files d)) eqn:Ef; [discriminate|].
  rewrite (writable_prefix_all _ _ Ef) in Hpages.
  unfold page_after, page_in. rewrite Hrun. cbn [snd docs]. unfold readable.
  rewrite (Hpages n c Hin Hc). reflexivity.
Qed.

Lemma run_writes_the_composed_pages_witness :
  page_after sample_docs "guide.html"
  = Some (integrated_html (extract guide_page) index_template).
Proof.
  apply (run_writes_the_composed_pages sample_docs index_page index_template "guide.html"
           guide_page); try reflexivity.
  intros H. discriminate H.
Defined.

(** The lines of a run that report a file skipped or not extracted. *)
Lemma In_integrated_lines (l : line) (names : list string) :
  In l (integrated_lines names) -> exists n, l = Integrating n \/ l = Integrated n.
Proof.
  unfold integrated_lines. intros H. apply in_flat_map in H as (n & _ & [<-|[<-|[]]]).
  - exists n. left. reflexivity.
  - exists n. right. reflexivity.
Qed.

(** The lines of a run are not those of the skipping branches. *)
Lemma run_lines (d : option (gmap string file)) (l : line) :
  In l (out (snd (run d))) ->
  match l with
  | NotFoundSkipping _ | FailedToExtract _ | ErrorReading _ => False
  | _ => True
  end.
Proof.
  destruct d as [d|]; [|intros [<-|[]]; exact I].
  destruct (d !! "index.html") as [[[index|] wr]|] eqn:Ei.
  2,3: rewrite run_cases, Ei; cbn [data snd out]; intros H;
       repeat (destruct H as [<-|H]; [exact I|]); destruct H.
  destruct (template_of index) as [t|] eqn:Et.
  2: rewrite run_cases, Ei; cbn [data]; rewrite Et; cbn [snd out]; intros [<-|[]]; exact I.
  destruct (standalone_files d) as [|n0 rest] eqn:Es.
  - rewrite run_cases, Ei. cbn [data]. rewrite Et, Es. cbn [snd out]. intros H.
    apply in_app_or in H as [H|[<-|[]]]; [|exact I].
    apply in_map_iff in H as (n & <- & _). exact I.
  - assert (Hr : readable d "index.html" = Some index) by (unfold readable; rewrite Ei; reflexivity).
    destruct (run_outcome d index t Hr Et) as (d' & -> & _); [rewrite Es; discriminate|].
    cbn [snd out]. intros H.
    apply in_app_or in H as [H|H]; [apply in_map_iff in H as (n & <- & _); exact I|].
    apply in_app_or in H as [[<-|[]]|H]; [exact I|].
    apply in_app_or in H as [H|H]; [apply in_map_iff in H as (n & <- & _); exact I|].
    apply in_app_or in H as [H|H].
    + apply In_integrated_lines in H as (n & [-> | ->]); exact I.
    + destruct (first_unwritable d (standalone_files d)); destruct H as [<-|[]]; exact I.
Qed.

(** X22.  In a run the skipping branches of the last loop are never
    taken: its files have just been listed and read, so none is missing and
    the extractor fails on none; the lines that report a missing file, a
    failed extraction or an error of the extractor are never printed. *)
Theorem run_never_skips (d : option (gmap string file)) (n : string) :
  ~ In (NotFoundSkipping n) (out (snd (run d)))
  /\ ~ In (FailedToExtract n) (out (snd (run d)))
  /\ ~ In (ErrorReading n) (out (snd (run d))).
Proof. repeat split; intros H; apply (run_lines d _ H). Qed.

(** X23.  Running the driver twice.  When the index page has its sidebar
    tag with a [</nav>] after it, and the other anchors, a run that can
    write its files leaves a directory in which every page it wrote holds
    the sidebar tag: no file of it is standalone, and a second run returns
    with the directory unchanged. *)
Theorem second_run_finds_nothing (d : gmap string file) (index : text)
    (ia si k fi hi : nat) :
  readable d "index.html" = Some index ->
  index_of article_tag index = Some ia ->
  index_of sidebar_tag index = Some si ->
  index_of (py "</nav>") (skipn si index) = Some k ->
  index_of footer_tag index = Some fi ->
  index_of (py "</html>") index = Some hi ->
  forallb (can_write d) (standalone_files d) = true ->
  exists d',
    docs_after d = Some d'
    /\ standalone_files d' = []
    /\ run (Some d')
       = (Ok tt, {| docs := Some d';
                    out := List.map CouldNotRead (unreadable_files d') ++ [NoStandalone] |}).
Proof.
  intros Hr Ha Hs Hk Hf Hh Hw.
  destruct (template_sidebar_has_tag index ia si k fi hi Ha Hs Hk Hf Hh) as (t & Ht & Htag).
  pose proof (run_returns d index t Hr Ht Hw) as Hok.
  destruct (second_run_changes_nothing d index t Hr Ht Htag Hok) as (d' & log & Hd' & Hrun).
  exists d'. split; [exact Hd'|].
  assert (Hindex : readable d' "index.html" = Some index).
  { destruct (run_frame d) as (d2 & Hd2 & Hout & _).
    unfold docs_after in Hd'. rewrite Hd' in Hd2. injection Hd2 as <-.
    unfold readable. rewrite Hout; [exact Hr|].
    apply not_standalone_cases. left. reflexivity. }
  assert (Hnone : standalone_files d' = []).
  { destruct (standalone_files d') as [|n0 rest] eqn:Es; [reflexivity|exfalso].
    destruct (run_outcome d' index t Hindex Ht) as (d2 & Hrun2 & _); [rewrite Es; discriminate|].
    rewrite Hrun in Hrun2. injection Hrun2 as _ _ Hout.
    apply (f_equal last) in Hout. rewrite last_snoc in Hout.
    destruct (first_unwritable d' (standalone_files d'));
      rewrite app_comm_cons, !app_assoc, last_snoc in Hout; discriminate. }
  split; [exact Hnone|].
  rewrite run_cases. unfold readable in Hindex.
  destruct (d' !! "index.html"); [|discriminate]. rewrite Hindex, Ht, Hnone. reflexivity.
Qed.

Lemma second_run_finds_nothing_witness :
  exists d',
    docs_after sample_docs = Some d'
    /\ standalone_files d' = []
    /\ run (Some d')
       = (Ok tt, {| docs := Some d';
                    out := List.map CouldNotRead (unreadable_files d') ++ [NoStandalone] |}).
Proof.
  apply (second_run_finds_nothing sample_docs index_page 12 47 48 101 141); reflexivity.
Defined.
